(** * MP_REACH_NLRI decoding (parseBgpLibMpReach.cpp)

    A shallow embedding of [parse_bgp_lib::MPReachAttr] and the properties of
    its header, next-hop, unicast and labeled-unicast decoders.

    Conventions of the embedding:
    - a [u_char *] is the list of bytes from the pointer to the end of the
      object it points into; advancing the pointer drops bytes from the front;
    - what C++ leaves undefined (a read outside that object, a [memcpy] past
      the 16 bytes of [ip_raw], overflow of the signed [attr_len]) is the
      outcome [Fault];
    - the two [for] loops are run with fuel; [OutOfFuel] is a third outcome,
      shown further down never to occur with the fuel the decoders pass;
    - unsigned fixed-width arithmetic has its wrap-around written out. *)

From Stdlib Require Import ZArith Lia Strings.Byte Ascii String DecimalString.
From stdpp Require Import base option list gmap strings.

Set Default Proof Using "Type".
Local Open Scope Z_scope.

(** ** Outcomes *)

Inductive outcome (A : Type) : Type :=
| Done (a : A)
| Fault
| OutOfFuel.
Arguments Done {A} a.
Arguments Fault {A}.
Arguments OutOfFuel {A}.

Definition outcome_bind {A B : Type} (f : A -> outcome B) (m : outcome A) : outcome B :=
  match m with
  | Done a => f a
  | Fault => Fault
  | OutOfFuel => OutOfFuel
  end.

#[global] Instance outcome_mbind : MBind outcome := @outcome_bind.
#[global] Instance outcome_mret : MRet outcome := @Done.

(** ** Bytes, words and text *)

Abbreviation u_char := Byte.byte.

(** The numeric value of an octet. *)
Definition u8 (b : u_char) : Z := Z.of_N (Byte.to_N b).

(** The octet of a number below 256 (helper to write buffers down). *)
Definition octet (n : Z) : u_char := default Byte.x00 (Byte.of_N (Z.to_N n)).

(** [*data++] *)
Definition read_u8 (data : list u_char) : outcome (Z * list u_char) :=
  match data with
  | b :: rest => Done (u8 b, rest)
  | [] => Fault
  end.

(** [data += n], for [0 <= n]; the pointer may reach the end of the object, not pass it *)
Definition advance (n : Z) (data : list u_char) : outcome (list u_char) :=
  if Z.of_nat (length data) <? n then Fault else Done (drop (Z.to_nat n) data).

(** [bzero(buf, n)] *)
Definition bzero (n : nat) : list u_char := replicate n Byte.x00.

(** [memcpy(dst, src, n)]: the first [n] bytes of [dst] are replaced by the first
    [n] bytes of [src]; both objects must hold [n] bytes. *)
Definition memcpy (dst src : list u_char) (n : Z) : outcome (list u_char) :=
  if (Z.of_nat (length src) <? n) || (Z.of_nat (length dst) <? n) then Fault
  else Done (take (Z.to_nat n) src ++ drop (Z.to_nat n) dst).

(** The value of an unsigned integer object on the host: least significant byte first. *)
Definition host_value (obj : list u_char) : Z :=
  fold_right (fun b acc => u8 b + 256 * acc) 0 obj.

(** Modelled from the spec: [parse_bgp_lib::SWAP_BYTES] is declared in
    parseBgpLib.h, which is not part of the sources at hand; it changes an
    object from network to host order, which on the little-endian host assumed
    here is a reversal of its bytes. *)
Definition SWAP_BYTES (obj : list u_char) : list u_char := rev obj.

(** [operator<<] of an unsigned number on a [std::ostringstream]: decimal digits. *)
Definition decimal (n : Z) : string := NilZero.string_of_uint (N.to_uint (Z.to_N n)).

(** [inet_ntop(AF_INET, raw, ...)]: dotted quad of the first four bytes. *)
Definition inet_ntop4 (raw : list u_char) : string :=
  match raw with
  | a :: b :: c :: d :: _ =>
      (decimal (u8 a) ++ "." ++ decimal (u8 b) ++ "." ++ decimal (u8 c) ++ "." ++ decimal (u8 d))%string
  | _ => EmptyString
  end.

(** [std::string(first, last)] over raw bytes. *)
Definition binary_string (raw : list u_char) : string := string_of_list_byte raw.

(** ** The caller's structures (parseBgpLib.h) *)

(** Modelled from the spec: the enumeration [BGP_LIB_NLRI] is declared in
    parseBgpLib.h, which is absent; these are the keys of
    [parse_bgp_lib_nlri::nlri] that parseBgpLibMpReach.cpp writes (path
    identifier, prefix length, prefix text, binary prefix, labels of the
    spec's NLRI entry), taken as distinct enumerators. *)
Inductive BGP_LIB_NLRI : Set :=
| LIB_NLRI_PATH_ID
| LIB_NLRI_PREFIX_LENGTH
| LIB_NLRI_PREFIX
| LIB_NLRI_PREFIX_BIN
| LIB_NLRI_LABELS.

#[global] Instance BGP_LIB_NLRI_eq_dec : EqDecision BGP_LIB_NLRI.
Proof. solve_decision. Defined.

Definition BGP_LIB_NLRI_code (k : BGP_LIB_NLRI) : nat :=
  match k with
  | LIB_NLRI_PATH_ID => 0
  | LIB_NLRI_PREFIX_LENGTH => 1
  | LIB_NLRI_PREFIX => 2
  | LIB_NLRI_PREFIX_BIN => 3
  | LIB_NLRI_LABELS => 4
  end%nat.

Definition BGP_LIB_NLRI_of_code (n : nat) : option BGP_LIB_NLRI :=
  match n with
  | 0 => Some LIB_NLRI_PATH_ID
  | 1 => Some LIB_NLRI_PREFIX_LENGTH
  | 2 => Some LIB_NLRI_PREFIX
  | 3 => Some LIB_NLRI_PREFIX_BIN
  | 4 => Some LIB_NLRI_LABELS
  | _ => None
  end%nat.

#[global] Program Instance BGP_LIB_NLRI_countable : Countable BGP_LIB_NLRI :=
  inj_countable BGP_LIB_NLRI_code BGP_LIB_NLRI_of_code _.
Next Obligation. by intros []. Qed.

(** Modelled from the spec: [parse_bgp_lib_nlri] is declared in
    parseBgpLib.h, which is absent.  One NLRI entry: AFI, SAFI, entry kind,
    and a [std::map] from key to a sequence of strings, which is how
    parseBgpLibMpReach.cpp fills it ([nlri.nlri[key].push_back(string)]). *)
Record parse_bgp_lib_nlri : Type := Nlri {
  afi : Z;
  safi : Z;
  type : Z;
  nlri : gmap BGP_LIB_NLRI (list string)
}.

(** Modelled from the spec: the value type of [parsed_update::attrs] is
    declared in parseBgpLib.h, which is absent.  One attribute: its official
    type, its name, and a sequence of strings
    ([attr_value.push_back(std::string(...))]). *)
Record parse_bgp_lib_data : Type := AttrData {
  official_type : Z;
  attr_name : string;
  attr_value : list string
}.

(** Modelled from the spec: [parsed_update] is declared in parseBgpLib.h,
    which is absent.  The decoded update owned by the caller: a map from
    attribute kind to attribute value and the ordered collection of NLRI
    entries; attribute keys are the values of the [BGP_LIB_ATTRS]
    enumeration. *)
Record parsed_update : Type := Update {
  attrs : gmap Z parse_bgp_lib_data;
  nlri_list : list parse_bgp_lib_nlri
}.

(** [m[k].push_back(v)] on a [std::map] of lists: [operator[]] creates the
    empty list when the key is absent. *)
Definition push_back (k : BGP_LIB_NLRI) (v : string)
    (m : gmap BGP_LIB_NLRI (list string)) : gmap BGP_LIB_NLRI (list string) :=
  <[k := default [] (m !! k) ++ [v]]> m.

(** The list held under a key, empty when the key is absent. *)
Definition field (k : BGP_LIB_NLRI) (e : parse_bgp_lib_nlri) : list string :=
  default [] (nlri e !! k).

Definition nlri_push (k : BGP_LIB_NLRI) (v : string) (e : parse_bgp_lib_nlri) : parse_bgp_lib_nlri :=
  Nlri (afi e) (safi e) (type e) (push_back k v (nlri e)).

(** ** Fixed-width arithmetic *)

(** Conversion to [u_char] / [uint8_t]. *)
Definition to_u_char (z : Z) : Z := z mod 256.

(** Conversion to [uint16_t]. *)
Definition to_uint16 (z : Z) : Z := z mod 65536.

Definition INT_MIN : Z := - 2 ^ 31.
Definition INT_MAX : Z := 2 ^ 31 - 1.

(** [a - b] on [int]; overflow is undefined. *)
Definition int_sub (a b : Z) : outcome Z :=
  let r := a - b in
  if (INT_MIN <=? r) && (r <=? INT_MAX) then Done r else Fault.

(** ** The MPLS label union of [parseNlriData_LabelIPv4IPv6]

    [mpls_label] overlays a [uint32_t data] with the bit-fields [ttl] (8),
    [bos] (1), [exp] (3) and [value] (20).  The object is kept as its four
    bytes; on the little-endian host the fields are allocated from the least
    significant bit of [data] upwards. *)

Definition label_data (label : list u_char) : Z := host_value label.

Definition label_decode_ttl (label : list u_char) : Z :=
  Z.land (label_data label) 255.

Definition label_decode_bos (label : list u_char) : Z :=
  Z.land (Z.shiftr (label_data label) 8) 1.

Definition label_decode_exp (label : list u_char) : Z :=
  Z.land (Z.shiftr (label_data label) 9) 7.

Definition label_decode_value (label : list u_char) : Z :=
  Z.land (Z.shiftr (label_data label) 12) (2 ^ 20 - 1).

(** ** The header of the attribute *)

(** Modelled from the spec: [mp_reach_nlri] is declared in
    parseBgpLibMpReach.h, which is absent.  AFI (16 bits), SAFI and next-hop
    length (8 bits each), the next-hop pointer, the reserved octet, the NLRI
    pointer and the NLRI length.  The width of [nlri_len] is not visible; the
    value stored is [attr_len] and the conversion to the [uint16_t] parameter
    of the NLRI decoders is made where they are called. *)
Record mp_reach_nlri : Type := MpReach {
  mp_afi : Z;
  mp_safi : Z;
  mp_nh_len : Z;
  mp_next_hop : list u_char;
  mp_reserved : Z;
  mp_nlri_data : list u_char;
  mp_nlri_len : Z
}.

(** ** The locals that live across iterations of the prefix loops *)

Record loop_state : Type := Loop {
  cur_data : list u_char;
  cur_read_size : Z;
  cur_nlri : parse_bgp_lib_nlri;
  cur_list : list parse_bgp_lib_nlri
}.

(** The locals of the label loop. *)
Record label_state : Type := Labels {
  lb_data : list u_char;
  lb_addr_bytes : Z;
  lb_read_size : Z;
  lb_prefix_len : Z;
  lb_nlri : parse_bgp_lib_nlri;
  lb_label : list u_char
}.

(** How an iteration of a [for] body ends. *)
Inductive flow : Type :=
| Continue (st : loop_state)
| Break (st : loop_state).

(** ** Sample inputs *)

(** A buffer written as numbers. *)
Definition bytes_of (l : list Z) : list u_char := map octet l.

(** Capability registries: add-path negotiated for no family, for every family. *)
Definition no_addpath (afi safi : Z) : bool := false.
Definition all_addpath (afi safi : Z) : bool := true.

(** A stand-in for the IPv6 rendering where a sample needs one. *)
Definition sample_inet_ntop6 (raw : list u_char) : string := "::"%string.

Section MPReachAttr.

(** Enumerators declared in parseBgpLib.h; their values are kept abstract. *)
Variables BGP_AFI_IPV4 BGP_AFI_IPV6 BGP_AFI_BGPLS : Z.
Variables BGP_SAFI_UNICAST BGP_SAFI_NLRI_LABEL : Z.
Variable NLRI_TYPE_NONE : Z.
Variables LIB_ATTR_NEXT_HOP ATTR_TYPE_NEXT_HOP : Z.

(** [parser->getAddpathCapability(afi, safi)], the capability registry of
    the session. *)
Variable getAddpathCapability : Z -> Z -> bool.

(** [inet_ntop(AF_INET6, raw, ...)] over the 16 bytes of [ip_raw]. *)
Variable inet_ntop6 : list u_char -> string.

Definition inet_ntop (isIPv4 : bool) (ip_raw : list u_char) : string :=
  if isIPv4 then inet_ntop4 ip_raw else inet_ntop6 ip_raw.

(** *** Lines 217-225 and 312-320: the optional path identifier

    [len - read_size] is computed in [size_t]; inside the loops
    [read_size < len] holds where it is evaluated, so it does not wrap. *)
Definition parse_add_path (afi safi len : Z) (data : list u_char) (read_size : Z)
    : outcome (Z * list u_char * Z) :=
  if getAddpathCapability afi safi && (4 <=? len - read_size) then
    path_id ← memcpy (bzero 4) data 4;
    let path_id := SWAP_BYTES path_id in
    data ← advance 4 data;
    Done (host_value path_id, data, read_size + 4)
  else
    Done (0, data, read_size).

(** *** [parseNlriData_IPv4IPv6]: body of the prefix loop, lines 215-261 *)

(** Lines 215 and 227-261: what follows the path identifier. *)
Definition unicast_prefix (isIPv4 : bool) (path_id : Z) (data : list u_char) (read_size : Z)
    (nlri : parse_bgp_lib_nlri) (nlri_list : list parse_bgp_lib_nlri) : outcome loop_state :=
  let ip_raw := bzero 16 in
  let nlri := nlri_push LIB_NLRI_PATH_ID (decimal path_id) nlri in
  '(prefix_len, data) ← read_u8 data;
  let nlri := nlri_push LIB_NLRI_PREFIX_LENGTH (decimal prefix_len) nlri in
  let addr_bytes := prefix_len / 8 in
  let addr_bytes := if prefix_len mod 8 =? 0 then addr_bytes else to_u_char (addr_bytes + 1) in
  ip_raw ← memcpy ip_raw data addr_bytes;
  data ← advance addr_bytes data;
  let read_size := read_size + addr_bytes in
  let ip_char := inet_ntop isIPv4 ip_raw in
  let nlri := nlri_push LIB_NLRI_PREFIX ip_char nlri in
  let nlri := nlri_push LIB_NLRI_PREFIX_BIN (binary_string (take 4 ip_raw)) nlri in
  Done (Loop data read_size nlri (nlri_list ++ [nlri])).

Definition unicast_body (isIPv4 : bool) (len : Z) (st : loop_state) : outcome loop_state :=
  '(path_id, data, read_size) ←
    parse_add_path (afi (cur_nlri st)) (safi (cur_nlri st)) len (cur_data st) (cur_read_size st);
  unicast_prefix isIPv4 path_id data read_size (cur_nlri st) (cur_list st).

(** [for (...; read_size < len; read_size++)] *)
Fixpoint unicast_loop (fuel : nat) (isIPv4 : bool) (len : Z) (st : loop_state)
    : outcome loop_state :=
  if cur_read_size st <? len then
    match fuel with
    | O => OutOfFuel
    | S fuel =>
        st ← unicast_body isIPv4 len st;
        unicast_loop fuel isIPv4 len
          (Loop (cur_data st) (cur_read_size st + 1) (cur_nlri st) (cur_list st))
    end
  else Done st.

(** [data] is [None] for a null pointer; [len] is a [uint16_t]. *)
Definition parseNlriData_IPv4IPv6 (isIPv4 : bool) (data : option (list u_char)) (len : Z)
    (nlri_list : list parse_bgp_lib_nlri) : outcome (list parse_bgp_lib_nlri) :=
  match data with
  | None => Done nlri_list
  | Some data =>
      if len <=? 0 then Done nlri_list
      else
        let nlri :=
          Nlri (if isIPv4 then BGP_AFI_IPV4 else BGP_AFI_IPV6) BGP_SAFI_UNICAST NLRI_TYPE_NONE ∅ in
        st ← unicast_loop (Z.to_nat len) isIPv4 len (Loop data 0 nlri nlri_list);
        Done (cur_list st)
  end.

(** *** [parseNlriData_LabelIPv4IPv6]: the label loop, lines 344-364 *)
Fixpoint label_loop (fuel : nat) (st : label_state) : outcome label_state :=
  if 3 <=? lb_addr_bytes st then
    match fuel with
    | O => OutOfFuel
    | S fuel =>
        label ← memcpy (lb_label st) (lb_data st) 3;
        let label := SWAP_BYTES label in
        data ← advance 3 (lb_data st);
        let addr_bytes := lb_addr_bytes st - 3 in
        let read_size := lb_read_size st + 3 in
        let prefix_len := to_u_char (lb_prefix_len st - 24) in
        let nlri := nlri_push LIB_NLRI_PREFIX_LENGTH (decimal prefix_len) (lb_nlri st) in
        let nlri := nlri_push LIB_NLRI_LABELS (decimal (label_decode_value label)) nlri in
        let st := Labels data addr_bytes read_size prefix_len nlri label in
        if (label_decode_bos label =? 1) || (label_data label =? 0x80000000) then Done st
        else label_loop fuel st
    end
  else Done st.

(** Lines 322-383: what follows the path identifier. *)
Definition labeled_prefix (isIPv4 : bool) (len parsed_bytes : Z) (path_id : Z)
    (data : list u_char) (read_size : Z)
    (nlri : parse_bgp_lib_nlri) (nlri_list : list parse_bgp_lib_nlri) : outcome flow :=
  let nlri := nlri_push LIB_NLRI_PATH_ID (decimal path_id) nlri in
  if parsed_bytes =? len then Done (Break (Loop data read_size nlri nlri_list))
  else
    let label := bzero 4 in
    let ip_raw := bzero 16 in
    '(prefix_len, data) ← read_u8 data;
    let addr_bytes := prefix_len / 8 in
    let addr_bytes := if prefix_len mod 8 =? 0 then addr_bytes else addr_bytes + 1 in
    lb ← label_loop (Z.to_nat addr_bytes) (Labels data addr_bytes read_size prefix_len nlri label);
    ip_raw ← memcpy ip_raw (lb_data lb) (lb_addr_bytes lb);
    data ← advance (lb_addr_bytes lb) (lb_data lb);
    let read_size := lb_read_size lb + lb_addr_bytes lb in
    let ip_char := inet_ntop isIPv4 ip_raw in
    let nlri := nlri_push LIB_NLRI_PREFIX ip_char (lb_nlri lb) in
    let nlri := nlri_push LIB_NLRI_PREFIX_BIN (binary_string (take 4 ip_raw)) nlri in
    Done (Continue (Loop data read_size nlri (nlri_list ++ [nlri]))).

(** Body of the prefix loop, lines 312-383. *)
Definition labeled_body (isIPv4 : bool) (len parsed_bytes : Z) (st : loop_state) : outcome flow :=
  '(path_id, data, read_size) ←
    parse_add_path (afi (cur_nlri st)) (safi (cur_nlri st)) len (cur_data st) (cur_read_size st);
  labeled_prefix isIPv4 len parsed_bytes path_id data read_size (cur_nlri st) (cur_list st).

Fixpoint labeled_loop (fuel : nat) (isIPv4 : bool) (len parsed_bytes : Z) (st : loop_state)
    : outcome loop_state :=
  if cur_read_size st <? len then
    match fuel with
    | O => OutOfFuel
    | S fuel =>
        r ← labeled_body isIPv4 len parsed_bytes st;
        match r with
        | Break st => Done st
        | Continue st =>
            labeled_loop fuel isIPv4 len parsed_bytes
              (Loop (cur_data st) (cur_read_size st + 1) (cur_nlri st) (cur_list st))
        end
    end
  else Done st.

Definition parseNlriData_LabelIPv4IPv6 (isIPv4 : bool) (data : option (list u_char)) (len : Z)
    (nlri_list : list parse_bgp_lib_nlri) : outcome (list parse_bgp_lib_nlri) :=
  match data with
  | None => Done nlri_list
  | Some data =>
      if len <=? 0 then Done nlri_list
      else
        let nlri :=
          Nlri (if isIPv4 then BGP_AFI_IPV4 else BGP_AFI_IPV6) BGP_SAFI_NLRI_LABEL NLRI_TYPE_NONE ∅ in
        let parsed_bytes := 0 in
        st ← labeled_loop (Z.to_nat len) isIPv4 len parsed_bytes (Loop data 0 nlri nlri_list);
        Done (cur_list st)
  end.

(** *** [parseAfi_IPv4IPv6] *)

(** [update.attrs[k]]: [operator[]] creates a value-initialised attribute when
    the key is absent. *)
Definition attr_at (k : Z) (m : gmap Z parse_bgp_lib_data) : parse_bgp_lib_data :=
  default (AttrData 0 EmptyString []) (m !! k).

Definition set_official_type (k t : Z) (m : gmap Z parse_bgp_lib_data) :=
  <[k := AttrData t (attr_name (attr_at k m)) (attr_value (attr_at k m))]> m.

Definition assign_attr_name (k : Z) (s : string) (m : gmap Z parse_bgp_lib_data) :=
  <[k := AttrData (official_type (attr_at k m)) s (attr_value (attr_at k m))]> m.

Definition push_back_attr_value (k : Z) (s : string) (m : gmap Z parse_bgp_lib_data) :=
  <[k := AttrData (official_type (attr_at k m)) (attr_name (attr_at k m))
           (attr_value (attr_at k m) ++ [s])]> m.

(** Lines 137-140 and 156-159. *)
Definition next_hop_raw (nlri : mp_reach_nlri) : outcome (list u_char) :=
  let ip_raw := bzero 16 in
  if 16 <? mp_nh_len nlri then memcpy ip_raw (mp_next_hop nlri) 16
  else memcpy ip_raw (mp_next_hop nlri) (mp_nh_len nlri).

(** Lines 146-148 and 166-168. *)
Definition set_next_hop (ip_char : string) (m : gmap Z parse_bgp_lib_data) :=
  let m := set_official_type LIB_ATTR_NEXT_HOP ATTR_TYPE_NEXT_HOP m in
  let m := assign_attr_name LIB_ATTR_NEXT_HOP "nextHop" m in
  push_back_attr_value LIB_ATTR_NEXT_HOP ip_char m.

Definition parseAfi_IPv4IPv6 (isIPv4 : bool) (nlri : mp_reach_nlri) (update : parsed_update)
    : outcome parsed_update :=
  if mp_safi nlri =? BGP_SAFI_UNICAST then
    ip_raw ← next_hop_raw nlri;
    let ip_char := inet_ntop isIPv4 ip_raw in
    let attrs := set_next_hop ip_char (attrs update) in
    nlri_list ← parseNlriData_IPv4IPv6 isIPv4 (Some (mp_nlri_data nlri))
                  (to_uint16 (mp_nlri_len nlri)) (nlri_list update);
    Done (Update attrs nlri_list)
  else if mp_safi nlri =? BGP_SAFI_NLRI_LABEL then
    ip_raw ← next_hop_raw nlri;
    let ip_char := inet_ntop isIPv4 ip_raw in
    let attrs := set_next_hop ip_char (attrs update) in
    nlri_list ← parseNlriData_LabelIPv4IPv6 isIPv4 (Some (mp_nlri_data nlri))
                  (to_uint16 (mp_nlri_len nlri)) (nlri_list update);
    Done (Update attrs nlri_list)
  else Done update.

(** *** [parseAfi] *)
Definition parseAfi (nlri : mp_reach_nlri) (update : parsed_update) : outcome parsed_update :=
  if mp_afi nlri =? BGP_AFI_IPV6 then parseAfi_IPv4IPv6 false nlri update
  else if mp_afi nlri =? BGP_AFI_IPV4 then parseAfi_IPv4IPv6 true nlri update
  else if mp_afi nlri =? BGP_AFI_BGPLS then Done update
  else Done update.

(** *** [parseReachNlriAttr] *)
Definition parseReachNlriAttr (attr_len : Z) (data : list u_char) (update : parsed_update)
    : outcome parsed_update :=
  afi ← memcpy (bzero 2) data 2;
  data ← advance 2 data;
  attr_len ← int_sub attr_len 2;
  let afi := host_value (SWAP_BYTES afi) in
  '(safi, data) ← read_u8 data;
  attr_len ← int_sub attr_len 1;
  '(nh_len, data) ← read_u8 data;
  attr_len ← int_sub attr_len 1;
  let next_hop := data in
  data ← advance nh_len data;
  attr_len ← int_sub attr_len nh_len;
  '(reserved, data) ← read_u8 data;
  attr_len ← int_sub attr_len 1;
  let nlri := MpReach afi safi nh_len next_hop reserved data attr_len in
  if attr_len <? 0 then Done update
  else parseAfi nlri update.


(** ** The header check *)

(** The header bytes [parseReachNlriAttr] consumes before its length check:
    2 (AFI) + 1 (SAFI) + 1 (next-hop length) + next-hop bytes + 1 (reserved);
    the next-hop length is the fourth byte of the payload. *)
Definition consumed_header_bytes (data : list u_char) : option Z :=
  match data !! 3%nat with
  | Some n => Some (2 + 1 + 1 + u8 n + 1)
  | None => None
  end.

(** ** The working entry across iterations *)

(** Every per-key list of [e] is an initial segment of the list [e'] holds
    under the same key. *)
Definition entry_extends (e e' : parse_bgp_lib_nlri) : Prop :=
  forall k : BGP_LIB_NLRI, field k e `prefix_of` field k e'.

(** Consecutive entries of [new] extend one another. *)
Definition accumulating (new : list parse_bgp_lib_nlri) : Prop :=
  forall (i : nat) (e e' : parse_bgp_lib_nlri),
    new !! i = Some e -> new !! S i = Some e' -> entry_extends e e'.

(** The keys that receive exactly one value per completed iteration in both
    decoders. *)
Definition per_prefix_keys : list BGP_LIB_NLRI :=
  [LIB_NLRI_PATH_ID; LIB_NLRI_PREFIX; LIB_NLRI_PREFIX_BIN].

(** What one completed iteration does to the working entry and the list. *)
Definition appends_extended (st st' : loop_state) : Prop :=
  cur_list st' = cur_list st ++ [cur_nlri st'] /\
  entry_extends (cur_nlri st) (cur_nlri st') /\
  forall k, k ∈ per_prefix_keys ->
    length (field k (cur_nlri st')) = S (length (field k (cur_nlri st))).

(** The loop invariant, relative to the caller's list [l0]. *)
Definition accumulated (l0 : list parse_bgp_lib_nlri) (st : loop_state) : Prop :=
  exists new : list parse_bgp_lib_nlri,
    cur_list st = l0 ++ new /\
    accumulating new /\
    (forall e, last new = Some e -> entry_extends e (cur_nlri st)) /\
    (forall k, k ∈ per_prefix_keys -> length (field k (cur_nlri st)) = length new) /\
    (forall i e k, new !! i = Some e -> k ∈ per_prefix_keys -> length (field k e) = S i).

(** ** The label stack of one prefix *)

(** Lines 345-346: the union object once the three bytes at the cursor have
    been copied over its first three bytes and the four bytes swapped. *)
Definition load_label (label : list u_char) (w0 w1 w2 : u_char) : list u_char :=
  SWAP_BYTES ([w0; w1; w2] ++ drop 3 label).

(** Line 360: the test that leaves the label loop. *)
Definition ends_stack (label : list u_char) : bool :=
  (label_decode_bos label =? 1) || (label_data label =? 0x80000000).

(** The labels of one prefix, as union objects in wire order: one per three
    bytes, at most [n] of them, up to and including the first that ends the
    stack. *)
Fixpoint label_stack (n : nat) (label data : list u_char) : list (list u_char) :=
  match n, data with
  | S n, w0 :: w1 :: w2 :: rest =>
      let label := load_label label w0 w1 w2 in
      label :: (if ends_stack label then [] else label_stack n label rest)
  | _, _ => []
  end.

(** The locals of the label loop after the labels [ws] have been consumed. *)
Fixpoint after_labels (st : label_state) (ws : list (list u_char)) : label_state :=
  match ws with
  | [] => st
  | label :: ws =>
      let prefix_len := to_u_char (lb_prefix_len st - 24) in
      after_labels
        (Labels (drop 3 (lb_data st)) (lb_addr_bytes st - 3) (lb_read_size st + 3) prefix_len
           (nlri_push LIB_NLRI_LABELS (decimal (label_decode_value label))
              (nlri_push LIB_NLRI_PREFIX_LENGTH (decimal prefix_len) (lb_nlri st)))
           label)
        ws
  end.

(** ** Synthetic unicast bodies *)

(** A unicast route as it is put on the wire: the prefix length in bits and
    the address bytes that carry it. *)
Record unicast_route : Type := Route {
  route_len : u_char;
  route_addr : list u_char
}.

(** The address has ceil(length / 8) bytes, at most 16. *)
Definition well_formed_route (p : unicast_route) : Prop :=
  Z.of_nat (length (route_addr p)) = (u8 (route_len p) + 7) / 8 /\
  (u8 (route_len p) + 7) / 8 <= 16.

(** RFC 4760 section 5 without path identifiers: length byte, then address bytes. *)
Definition encode_route (p : unicast_route) : list u_char :=
  route_len p :: route_addr p.

Definition encode_unicast (ps : list unicast_route) : list u_char :=
  concat (map encode_route ps).

(** The text and binary form of a route's address. *)
Definition route_raw (p : unicast_route) : list u_char :=
  route_addr p ++ replicate (16 - length (route_addr p)) Byte.x00.

(** The working entry once route [p] has been decoded on top of [e], with
    path identifier 0. *)
Definition decoded_route (isIPv4 : bool) (e : parse_bgp_lib_nlri) (p : unicast_route)
    : parse_bgp_lib_nlri :=
  nlri_push LIB_NLRI_PREFIX_BIN (binary_string (take 4 (route_raw p)))
    (nlri_push LIB_NLRI_PREFIX (inet_ntop isIPv4 (route_raw p))
       (nlri_push LIB_NLRI_PREFIX_LENGTH (decimal (u8 (route_len p)))
          (nlri_push LIB_NLRI_PATH_ID (decimal 0) e))).

(** The entries appended for the routes [ps], starting from the working entry [e]. *)
Fixpoint decoded_routes (isIPv4 : bool) (e : parse_bgp_lib_nlri) (ps : list unicast_route)
    : list parse_bgp_lib_nlri :=
  match ps with
  | [] => []
  | p :: ps =>
      let e := decoded_route isIPv4 e p in
      e :: decoded_routes isIPv4 e ps
  end.

(** ** The dispatch on the address family *)

(** The [switch] of [parseAfi]: which of its cases call [parseAfi_IPv4IPv6],
    and with which flag. *)
Definition family_flag (afi : Z) : option bool :=
  if afi =? BGP_AFI_IPV6 then Some false
  else if afi =? BGP_AFI_IPV4 then Some true
  else None.

(** The working entry the two NLRI decoders start from (lines 208-210 and
    303-305). *)
Definition fresh_entry (isIPv4 : bool) (safi : Z) : parse_bgp_lib_nlri :=
  Nlri (if isIPv4 then BGP_AFI_IPV4 else BGP_AFI_IPV6) safi NLRI_TYPE_NONE ∅.

(** ** Spans that end inside a route, and bodies with path identifiers *)

(** The loop condition [read_size < len] holds before each route of [ps] and
    fails after the last: [len] bytes remain when the first route starts. *)
Fixpoint span_covers (len : Z) (ps : list unicast_route) : Prop :=
  match ps with
  | [] => len <= 0
  | p :: ps => 0 < len /\ span_covers (len - Z.of_nat (length (encode_route p))) ps
  end.

(** A 32-bit number on the wire, most significant byte first. *)
Definition network_order32 (v : Z) : list u_char :=
  [octet (v / 2 ^ 24 mod 256); octet (v / 2 ^ 16 mod 256);
   octet (v / 2 ^ 8 mod 256); octet (v mod 256)].

(** RFC 7911: the path identifier in front of the route. *)
Definition encode_route_id (q : Z * unicast_route) : list u_char :=
  network_order32 (fst q) ++ encode_route (snd q).

Definition encode_unicast_ids (qs : list (Z * unicast_route)) : list u_char :=
  concat (map encode_route_id qs).

(** The working entry once route [p] with path identifier [id] has been
    decoded on top of [e]. *)
Definition decoded_route_id (isIPv4 : bool) (e : parse_bgp_lib_nlri) (q : Z * unicast_route)
    : parse_bgp_lib_nlri :=
  nlri_push LIB_NLRI_PREFIX_BIN (binary_string (take 4 (route_raw (snd q))))
    (nlri_push LIB_NLRI_PREFIX (inet_ntop isIPv4 (route_raw (snd q)))
       (nlri_push LIB_NLRI_PREFIX_LENGTH (decimal (u8 (route_len (snd q))))
          (nlri_push LIB_NLRI_PATH_ID (decimal (fst q)) e))).

Fixpoint decoded_routes_ids (isIPv4 : bool) (e : parse_bgp_lib_nlri)
    (qs : list (Z * unicast_route)) : list parse_bgp_lib_nlri :=
  match qs with
  | [] => []
  | q :: qs =>
      let e := decoded_route_id isIPv4 e q in
      e :: decoded_routes_ids isIPv4 e qs
  end.

(** ** Synthetic labeled prefixes *)

(** The three octets of a label stack entry: label value (20 bits), traffic
    class 0, bottom-of-stack bit. *)
Definition encode_label (value : Z) (bos : bool) : list u_char :=
  [octet (value / 4096); octet (value / 16 mod 256);
   octet (value mod 16 * 16 + (if bos then 1 else 0))].

(** A label stack on the wire: the bottom-of-stack bit is set on the last
    entry and on no other. *)
Fixpoint encode_labels (values : list Z) : list u_char :=
  match values with
  | [] => []
  | v :: vs =>
      encode_label v (match vs with [] => true | _ => false end) ++ encode_labels vs
  end.

(** A labeled route: the label values, the number of address bits and the
    address bytes. *)
Record labeled_route : Type := LabeledRoute {
  route_labels : list Z;
  route_bits : Z;
  labeled_addr : list u_char
}.

(** The length byte counts the label octets as well. *)
Definition combined_len (r : labeled_route) : Z :=
  24 * Z.of_nat (length (route_labels r)) + route_bits r.

(** At least one label; values of 20 bits; no label above the last is the
    withdrawal value 0x80000; the combined length fits the length byte; the
    address has ceil(bits / 8) bytes, at most 16. *)
Definition well_formed_labeled (r : labeled_route) : Prop :=
  route_labels r <> [] /\
  Forall (fun v => 0 <= v < 2 ^ 20) (route_labels r) /\
  Forall (fun v => v <> 0x80000) (removelast (route_labels r)) /\
  0 <= route_bits r /\
  combined_len r <= 255 /\
  Z.of_nat (length (labeled_addr r)) = (route_bits r + 7) / 8 /\
  (route_bits r + 7) / 8 <= 16.

Definition encode_labeled (r : labeled_route) : list u_char :=
  octet (combined_len r) :: encode_labels (route_labels r) ++ labeled_addr r.

Definition encode_labeled_routes (rs : list labeled_route) : list u_char :=
  concat (map encode_labeled rs).

(** What the label loop pushes for the label values [values] when [total]
    bits are still counted: per label, the remaining length, then the value. *)
Fixpoint push_labels (total : Z) (values : list Z) (e : parse_bgp_lib_nlri)
    : parse_bgp_lib_nlri :=
  match values with
  | [] => e
  | v :: vs =>
      push_labels (total - 24) vs
        (nlri_push LIB_NLRI_LABELS (decimal v)
           (nlri_push LIB_NLRI_PREFIX_LENGTH (decimal (total - 24)) e))
  end.

Definition labeled_raw (r : labeled_route) : list u_char :=
  labeled_addr r ++ replicate (16 - length (labeled_addr r)) Byte.x00.

(** The working entry once the labeled route [r] with path identifier
    [path_id] has been decoded on top of [e]. *)
Definition decoded_labeled (isIPv4 : bool) (path_id : Z) (e : parse_bgp_lib_nlri)
    (r : labeled_route) : parse_bgp_lib_nlri :=
  nlri_push LIB_NLRI_PREFIX_BIN (binary_string (take 4 (labeled_raw r)))
    (nlri_push LIB_NLRI_PREFIX (inet_ntop isIPv4 (labeled_raw r))
       (push_labels (combined_len r) (route_labels r)
          (nlri_push LIB_NLRI_PATH_ID (decimal path_id) e))).

Fixpoint decoded_labeled_routes (isIPv4 : bool) (e : parse_bgp_lib_nlri)
    (rs : list labeled_route) : list parse_bgp_lib_nlri :=
  match rs with
  | [] => []
  | r :: rs =>
      let e := decoded_labeled isIPv4 0 e r in
      e :: decoded_labeled_routes isIPv4 e rs
  end.

(** ** Basic facts *)

Lemma u8_range (b : u_char) : 0 <= u8 b < 256.
Proof.
  unfold u8. pose proof (Byte.to_N_bounded b). lia.
Qed.

Lemma field_push_eq (k : BGP_LIB_NLRI) (v : string) (e : parse_bgp_lib_nlri) :
  field k (nlri_push k v e) = field k e ++ [v].
Proof.
  unfold field, nlri_push, push_back. simpl. by rewrite lookup_insert_eq.
Qed.

Lemma field_push_ne (k k' : BGP_LIB_NLRI) (v : string) (e : parse_bgp_lib_nlri) :
  k <> k' -> field k' (nlri_push k v e) = field k' e.
Proof.
  intros Hne. unfold field, nlri_push, push_back. simpl. by rewrite lookup_insert_ne.
Qed.

Lemma memcpy_done (dst src : list u_char) (n : Z) :
  n <= Z.of_nat (length src) ->
  n <= Z.of_nat (length dst) ->
  memcpy dst src n = Done (take (Z.to_nat n) src ++ drop (Z.to_nat n) dst).
Proof.
  intros Hs Hd. unfold memcpy.
  replace (Z.of_nat (length src) <? n) with false by (symmetry; apply Z.ltb_ge; lia).
  replace (Z.of_nat (length dst) <? n) with false by (symmetry; apply Z.ltb_ge; lia).
  reflexivity.
Qed.

Lemma advance_done (n : Z) (data : list u_char) :
  n <= Z.of_nat (length data) ->
  advance n data = Done (drop (Z.to_nat n) data).
Proof.
  intros Hn. unfold advance.
  replace (Z.of_nat (length data) <? n) with false by (symmetry; apply Z.ltb_ge; lia).
  reflexivity.
Qed.

(** ** The path identifier *)

Lemma memcpy_whole (dst : list u_char) (b0 b1 b2 b3 : u_char) (rest : list u_char) :
  length dst = 4%nat ->
  memcpy dst (b0 :: b1 :: b2 :: b3 :: rest) 4 = Done [b0; b1; b2; b3].
Proof.
  intros Hd. rewrite memcpy_done by (simpl length; lia).
  destruct dst as [|d0 [|d1 [|d2 [|d3 [|d4 dst]]]]]; simpl in Hd; try lia.
  reflexivity.
Qed.

Lemma host_value_network_order (b0 b1 b2 b3 : u_char) :
  host_value (SWAP_BYTES [b0; b1; b2; b3]) =
  u8 b0 * 2 ^ 24 + u8 b1 * 2 ^ 16 + u8 b2 * 2 ^ 8 + u8 b3.
Proof.
  unfold host_value, SWAP_BYTES. simpl. lia.
Qed.

Lemma parse_add_path_enabled (afi safi len : Z) (b0 b1 b2 b3 : u_char)
    (rest : list u_char) (read_size : Z) :
  getAddpathCapability afi safi = true ->
  4 <= len - read_size ->
  parse_add_path afi safi len (b0 :: b1 :: b2 :: b3 :: rest) read_size =
  Done (u8 b0 * 2 ^ 24 + u8 b1 * 2 ^ 16 + u8 b2 * 2 ^ 8 + u8 b3, rest, read_size + 4).
Proof.
  intros Hcap Hrem. unfold parse_add_path. rewrite Hcap.
  replace (4 <=? len - read_size) with true by (symmetry; apply Z.leb_le; lia).
  simpl andb. cbv iota.
  rewrite memcpy_whole by reflexivity.
  change (Done [b0; b1; b2; b3] ≫= _) with
    (advance 4 (b0 :: b1 :: b2 :: b3 :: rest) ≫=
       fun data => Done (host_value (SWAP_BYTES [b0; b1; b2; b3]), data, read_size + 4)).
  rewrite advance_done by (simpl length; lia).
  rewrite host_value_network_order. reflexivity.
Qed.

Lemma parse_add_path_disabled (afi safi len : Z) (data : list u_char) (read_size : Z) :
  getAddpathCapability afi safi = false \/ len - read_size < 4 ->
  parse_add_path afi safi len data read_size = Done (0, data, read_size).
Proof.
  intros H. unfold parse_add_path.
  destruct H as [-> | H]; [reflexivity|].
  replace (4 <=? len - read_size) with false by (symmetry; apply Z.leb_gt; lia).
  by rewrite andb_false_r.
Qed.

(** C5. In an iteration of either prefix loop, when add-path is enabled for
    the working entry's AFI/SAFI and at least four bytes of the span remain,
    the four bytes at the cursor are the path identifier, most significant
    byte first, and the rest of the iteration runs on the bytes after them;
    otherwise the path identifier is 0 and the rest of the iteration runs on
    the cursor as it is. *)
Theorem add_path_identifier (isIPv4 : bool) (len parsed_bytes : Z) (st : loop_state) :
  (getAddpathCapability (afi (cur_nlri st)) (safi (cur_nlri st)) = true ->
   4 <= len - cur_read_size st ->
   forall (b0 b1 b2 b3 : u_char) (rest : list u_char),
     cur_data st = b0 :: b1 :: b2 :: b3 :: rest ->
     let path_id := u8 b0 * 2 ^ 24 + u8 b1 * 2 ^ 16 + u8 b2 * 2 ^ 8 + u8 b3 in
     0 <= path_id < 2 ^ 32 /\
     unicast_body isIPv4 len st =
       unicast_prefix isIPv4 path_id rest (cur_read_size st + 4) (cur_nlri st) (cur_list st) /\
     labeled_body isIPv4 len parsed_bytes st =
       labeled_prefix isIPv4 len parsed_bytes path_id rest (cur_read_size st + 4)
         (cur_nlri st) (cur_list st)) /\
  (getAddpathCapability (afi (cur_nlri st)) (safi (cur_nlri st)) = false \/
   len - cur_read_size st < 4 ->
   unicast_body isIPv4 len st =
     unicast_prefix isIPv4 0 (cur_data st) (cur_read_size st) (cur_nlri st) (cur_list st) /\
   labeled_body isIPv4 len parsed_bytes st =
     labeled_prefix isIPv4 len parsed_bytes 0 (cur_data st) (cur_read_size st)
       (cur_nlri st) (cur_list st)).
Proof.
  split.
  - intros Hcap Hrem b0 b1 b2 b3 rest Hdata path_id.
    split.
    { subst path_id.
      pose proof (u8_range b0). pose proof (u8_range b1).
      pose proof (u8_range b2). pose proof (u8_range b3). lia. }
    unfold unicast_body, labeled_body. rewrite Hdata.
    rewrite parse_add_path_enabled by assumption. split; reflexivity.
  - intros Hoff. unfold unicast_body, labeled_body.
    rewrite parse_add_path_disabled by assumption. split; reflexivity.
Qed.

(** ** Address bytes of a unicast prefix *)

Lemma ceil_bytes (p : Z) :
  0 <= p < 256 ->
  (if p mod 8 =? 0 then p / 8 else to_u_char (p / 8 + 1)) = (p + 7) / 8.
Proof.
  intros Hp. unfold to_u_char.
  pose proof (Z.div_mod p 8 ltac:(lia)) as Hdm.
  pose proof (Z.mod_pos_bound p 8 ltac:(lia)) as Hm.
  destruct (Z.eqb_spec (p mod 8) 0) as [E|E].
  - apply (Z.div_unique _ _ _ 7); lia.
  - rewrite Z.mod_small by lia.
    apply (Z.div_unique _ _ _ (p mod 8 - 1)); lia.
Qed.

Lemma ceil_bytes_int (p : Z) :
  0 <= p < 256 ->
  (if p mod 8 =? 0 then p / 8 else p / 8 + 1) = (p + 7) / 8.
Proof.
  intros Hp. rewrite <- ceil_bytes by assumption.
  destruct (p mod 8 =? 0); [reflexivity|].
  unfold to_u_char. rewrite Z.mod_small; [reflexivity|].
  pose proof (Z.div_lt_upper_bound p 8 32 ltac:(lia) ltac:(lia)).
  pose proof (Z.div_pos p 8 ltac:(lia) ltac:(lia)). lia.
Qed.

Lemma ceil_bytes_range (p : Z) : 0 <= p < 256 -> 0 <= (p + 7) / 8 <= 32.
Proof.
  intros Hp. split.
  - apply Z.div_pos; lia.
  - apply Z.lt_succ_r. apply Z.div_lt_upper_bound; lia.
Qed.

Lemma buffer_after_copy (src : list u_char) (n : Z) :
  0 <= n <= 16 ->
  n <= Z.of_nat (length src) ->
  memcpy (bzero 16) src n =
    Done (take (Z.to_nat n) src ++ replicate (16 - Z.to_nat n) Byte.x00) /\
  length (take (Z.to_nat n) src ++ replicate (16 - Z.to_nat n) Byte.x00) = 16%nat.
Proof.
  intros Hn Hs. split.
  - rewrite memcpy_done; [|lia|unfold bzero; rewrite length_replicate; lia].
    unfold bzero. by rewrite drop_replicate.
  - rewrite length_app, length_take, length_replicate. lia.
Qed.

(** Lines 227-261 on a prefix that is present at the cursor and fits [ip_raw]. *)
Lemma unicast_prefix_run (isIPv4 : bool) (path_id : Z) (pl : u_char)
    (tail : list u_char) (read_size : Z)
    (nlri : parse_bgp_lib_nlri) (nlri_list : list parse_bgp_lib_nlri) :
  let n := (u8 pl + 7) / 8 in
  n <= 16 ->
  n <= Z.of_nat (length tail) ->
  let ip_raw := take (Z.to_nat n) tail ++ replicate (16 - Z.to_nat n) Byte.x00 in
  let entry :=
    nlri_push LIB_NLRI_PREFIX_BIN (binary_string (take 4 ip_raw))
      (nlri_push LIB_NLRI_PREFIX (inet_ntop isIPv4 ip_raw)
         (nlri_push LIB_NLRI_PREFIX_LENGTH (decimal (u8 pl))
            (nlri_push LIB_NLRI_PATH_ID (decimal path_id) nlri))) in
  unicast_prefix isIPv4 path_id (pl :: tail) read_size nlri nlri_list =
    Done (Loop (drop (Z.to_nat n) tail) (read_size + n) entry (nlri_list ++ [entry])).
Proof.
  intros n Hfit Hpresent ip_raw entry.
  pose proof (u8_range pl) as Hpl.
  pose proof (ceil_bytes_range (u8 pl) Hpl) as Hn. fold n in Hn.
  destruct (buffer_after_copy tail n ltac:(lia) Hpresent) as [Hcopy _].
  fold ip_raw in Hcopy.
  unfold unicast_prefix. cbn [read_u8 mbind outcome_mbind outcome_bind].
  rewrite ceil_bytes by assumption. fold n.
  rewrite Hcopy. cbn [mbind outcome_mbind outcome_bind].
  rewrite advance_done by assumption. reflexivity.
Qed.

(** C6. For a unicast prefix whose address fits the buffer and is present
    at the cursor, the decoder consumes exactly ceil(prefix length / 8)
    address bytes after the length byte and renders the copy of those bytes
    followed by zeros up to 16; a length of 0 consumes no address byte and
    renders as 0.0.0.0 for IPv4, a length of 32 consumes 4. *)
Theorem unicast_address_bytes (isIPv4 : bool) (path_id : Z) (pl : u_char)
    (tail : list u_char) (read_size : Z)
    (nlri : parse_bgp_lib_nlri) (nlri_list : list parse_bgp_lib_nlri) :
  let n := (u8 pl + 7) / 8 in
  n <= 16 ->
  n <= Z.of_nat (length tail) ->
  let ip_raw := take (Z.to_nat n) tail ++ replicate (16 - Z.to_nat n) Byte.x00 in
  let entry :=
    nlri_push LIB_NLRI_PREFIX_BIN (binary_string (take 4 ip_raw))
      (nlri_push LIB_NLRI_PREFIX (inet_ntop isIPv4 ip_raw)
         (nlri_push LIB_NLRI_PREFIX_LENGTH (decimal (u8 pl))
            (nlri_push LIB_NLRI_PATH_ID (decimal path_id) nlri))) in
  n = (if u8 pl mod 8 =? 0 then u8 pl / 8 else u8 pl / 8 + 1) /\
  length ip_raw = 16%nat /\
  unicast_prefix isIPv4 path_id (pl :: tail) read_size nlri nlri_list =
    Done (Loop (drop (Z.to_nat n) tail) (read_size + n) entry (nlri_list ++ [entry])) /\
  (u8 pl = 0 -> n = 0 /\ inet_ntop true ip_raw = "0.0.0.0"%string) /\
  (u8 pl = 32 -> n = 4).
Proof.
  intros n Hfit Hpresent ip_raw entry.
  pose proof (u8_range pl) as Hpl.
  pose proof (ceil_bytes_range (u8 pl) Hpl) as Hn. fold n in Hn.
  destruct (buffer_after_copy tail n ltac:(lia) Hpresent) as [_ Hlen].
  fold ip_raw in Hlen.
  split; [symmetry; by apply ceil_bytes_int|].
  split; [exact Hlen|]. split.
  - by apply unicast_prefix_run.
  - split.
    + intros H0. subst n ip_raw. rewrite H0. split; reflexivity.
    + intros H32. subst n. rewrite H32. reflexivity.
Qed.

(** ** The next hop *)

(** C7. The raw next hop handed to text conversion is the first
    min(next-hop length, 16) bytes of the next-hop field followed by zeros
    up to 16 bytes, and for the two supported SAFIs the attribute map of a
    completed decode is the caller's with the text of that buffer set as
    next hop. *)
Theorem next_hop_bytes (isIPv4 : bool) (nlri : mp_reach_nlri) (update : parsed_update) :
  let m := Z.min (mp_nh_len nlri) 16 in
  0 <= mp_nh_len nlri ->
  m <= Z.of_nat (length (mp_next_hop nlri)) ->
  let ip_raw := take (Z.to_nat m) (mp_next_hop nlri) ++ replicate (16 - Z.to_nat m) Byte.x00 in
  length ip_raw = 16%nat /\
  next_hop_raw nlri = Done ip_raw /\
  (mp_safi nlri = BGP_SAFI_UNICAST \/ mp_safi nlri = BGP_SAFI_NLRI_LABEL ->
   forall u' : parsed_update,
     parseAfi_IPv4IPv6 isIPv4 nlri update = Done u' ->
     attrs u' = set_next_hop (inet_ntop isIPv4 ip_raw) (attrs update)).
Proof.
  intros m Hnh Hpresent ip_raw.
  destruct (buffer_after_copy (mp_next_hop nlri) m ltac:(lia) Hpresent) as [Hcopy Hlen].
  fold ip_raw in Hcopy, Hlen.
  assert (Hraw : next_hop_raw nlri = Done ip_raw).
  { unfold next_hop_raw. destruct (Z.ltb_spec 16 (mp_nh_len nlri)) as [Hgt|Hle].
    - rewrite <- Hcopy. f_equal. lia.
    - rewrite <- Hcopy. f_equal. lia. }
  split; [exact Hlen|]. split; [exact Hraw|].
  intros Hsafi u' Hdone. unfold parseAfi_IPv4IPv6 in Hdone. rewrite Hraw in Hdone.
  cbn [mbind outcome_mbind outcome_bind] in Hdone.
  destruct (mp_safi nlri =? BGP_SAFI_UNICAST) eqn:Hu.
  - destruct (parseNlriData_IPv4IPv6 _ _ _ _) as [l| |]; simpl in Hdone; try discriminate.
    by inversion Hdone.
  - destruct (mp_safi nlri =? BGP_SAFI_NLRI_LABEL) eqn:Hl.
    + destruct (parseNlriData_LabelIPv4IPv6 _ _ _ _) as [l| |]; simpl in Hdone; try discriminate.
      by inversion Hdone.
    + destruct Hsafi as [E|E]; rewrite E in *.
      * rewrite Z.eqb_refl in Hu. discriminate.
      * rewrite Z.eqb_refl in Hl. discriminate.
Qed.

(** ** The declared length *)

Lemma int_sub_done (a b r : Z) : int_sub a b = Done r -> r = a - b.
Proof.
  unfold int_sub. destruct (_ && _); [|discriminate]. by inversion 1.
Qed.

Lemma int_sub_in_range (a b : Z) :
  INT_MIN <= a - b <= INT_MAX -> int_sub a b = Done (a - b).
Proof.
  intros [Hlo Hhi]. unfold int_sub.
  replace (INT_MIN <=? a - b) with true by (symmetry; apply Z.leb_le; lia).
  replace (a - b <=? INT_MAX) with true by (symmetry; apply Z.leb_le; lia).
  reflexivity.
Qed.

(** C2. When the declared length minus the consumed header bytes is
    negative (as it is for every declared length below 4), the decode of the
    attribute returns the caller's update as it was, with no NLRI entry
    appended and no next hop written, and never yields any other update. *)
Theorem declared_length_too_short (attr_len : Z) (data : list u_char)
    (update : parsed_update) (hdr : Z) :
  consumed_header_bytes data = Some hdr ->
  attr_len - hdr < 0 \/ attr_len < 4 ->
  (forall u' : parsed_update,
     parseReachNlriAttr attr_len data update = Done u' -> u' = update) /\
  (hdr <= Z.of_nat (length data) ->
   INT_MIN <= attr_len - hdr ->
   attr_len <= INT_MAX ->
   parseReachNlriAttr attr_len data update = Done update).
Proof.
  intros Hhdr Hshort.
  destruct data as [|a0 [|a1 [|s [|n rest]]]]; try discriminate.
  unfold consumed_header_bytes in Hhdr. simpl in Hhdr. inversion Hhdr as [Hh]. clear Hhdr.
  pose proof (u8_range n) as Hn.
  assert (Hneg : attr_len - hdr < 0) by lia. clear Hshort.
  split.
  - intros u' Hdone. unfold parseReachNlriAttr in Hdone.
    rewrite memcpy_done in Hdone by (simpl length; lia).
    rewrite advance_done in Hdone by (simpl length; lia).
    change (drop (Z.to_nat 2) (a0 :: a1 :: s :: n :: rest)) with (s :: n :: rest) in Hdone.
    cbn [mbind outcome_mbind outcome_bind read_u8] in Hdone.
    destruct (int_sub attr_len 2) as [l1| |] eqn:E1; try discriminate.
    apply int_sub_done in E1.
    cbn [mbind outcome_mbind outcome_bind] in Hdone.
    destruct (int_sub l1 1) as [l2| |] eqn:E2; try discriminate.
    apply int_sub_done in E2.
    cbn [mbind outcome_mbind outcome_bind] in Hdone.
    destruct (int_sub l2 1) as [l3| |] eqn:E3; try discriminate.
    apply int_sub_done in E3.
    cbn [mbind outcome_mbind outcome_bind] in Hdone.
    destruct (advance (u8 n) rest) as [d1| |] eqn:E4; try discriminate.
    cbn [mbind outcome_mbind outcome_bind] in Hdone.
    destruct (int_sub l3 (u8 n)) as [l4| |] eqn:E5; try discriminate.
    apply int_sub_done in E5.
    cbn [mbind outcome_mbind outcome_bind] in Hdone.
    destruct (read_u8 d1) as [[r d2]| |] eqn:E6; try discriminate.
    cbn [mbind outcome_mbind outcome_bind] in Hdone.
    destruct (int_sub l4 1) as [l5| |] eqn:E7; try discriminate.
    apply int_sub_done in E7.
    cbn [mbind outcome_mbind outcome_bind] in Hdone.
    replace (l5 <? 0) with true in Hdone by (symmetry; apply Z.ltb_lt; lia).
    by inversion Hdone.
  - intros Hlen Hlo Hhi. simpl length in Hlen. unfold parseReachNlriAttr.
    unfold INT_MIN, INT_MAX in *.
    rewrite memcpy_done by (simpl length; lia).
    rewrite advance_done by (simpl length; lia).
    change (drop (Z.to_nat 2) (a0 :: a1 :: s :: n :: rest)) with (s :: n :: rest).
    cbn [mbind outcome_mbind outcome_bind read_u8].
    rewrite (int_sub_in_range attr_len 2) by (unfold INT_MIN, INT_MAX; lia).
    cbn [mbind outcome_mbind outcome_bind].
    rewrite (int_sub_in_range (attr_len - 2) 1) by (unfold INT_MIN, INT_MAX; lia).
    cbn [mbind outcome_mbind outcome_bind].
    rewrite (int_sub_in_range (attr_len - 2 - 1) 1) by (unfold INT_MIN, INT_MAX; lia).
    cbn [mbind outcome_mbind outcome_bind].
    rewrite (advance_done (u8 n) rest) by lia.
    cbn [mbind outcome_mbind outcome_bind].
    rewrite (int_sub_in_range (attr_len - 2 - 1 - 1) (u8 n)) by (unfold INT_MIN, INT_MAX; lia).
    cbn [mbind outcome_mbind outcome_bind].
    assert (Hd : exists r d2, drop (Z.to_nat (u8 n)) rest = r :: d2).
    { destruct (drop (Z.to_nat (u8 n)) rest) as [|r d2] eqn:E; [|eauto].
      apply (f_equal length) in E. rewrite length_drop in E. simpl in E. lia. }
    destruct Hd as (r & d2 & ->).
    cbn [mbind outcome_mbind outcome_bind read_u8].
    rewrite (int_sub_in_range (attr_len - 2 - 1 - 1 - u8 n) 1) by (unfold INT_MIN, INT_MAX; lia).
    cbn [mbind outcome_mbind outcome_bind].
    replace (attr_len - 2 - 1 - 1 - u8 n - 1 <? 0) with true
      by (symmetry; apply Z.ltb_lt; lia).
    reflexivity.
Qed.

(** ** Progress and termination *)

Ltac bind_inv H :=
  repeat match type of H with
  | (?m ≫= _) = _ =>
      let E := fresh "E" in
      destruct m eqn:E; cbn [mbind outcome_mbind outcome_bind] in H; try discriminate H
  | (let '(_, _) := ?p in _) = _ => destruct p
  end.

Lemma read_u8_done (data : list u_char) (v : Z) (rest : list u_char) :
  read_u8 data = Done (v, rest) ->
  0 <= v < 256 /\ length data = S (length rest).
Proof.
  destruct data as [|b d]; [discriminate|]. simpl. intros H. inversion H; subst.
  split; [apply u8_range|reflexivity].
Qed.

Lemma advance_inv (n : Z) (data rest : list u_char) :
  advance n data = Done rest ->
  n <= Z.of_nat (length data) /\ rest = drop (Z.to_nat n) data.
Proof.
  unfold advance. destruct (Z.ltb_spec (Z.of_nat (length data)) n) as [Hlt|Hge]; [discriminate|].
  intros H. inversion H. split; [lia|reflexivity].
Qed.

Lemma memcpy_inv (dst src : list u_char) (n : Z) (r : list u_char) :
  memcpy dst src n = Done r ->
  n <= Z.of_nat (length src) /\ n <= Z.of_nat (length dst) /\
  r = take (Z.to_nat n) src ++ drop (Z.to_nat n) dst.
Proof.
  unfold memcpy.
  destruct (Z.ltb_spec (Z.of_nat (length src)) n) as [Hs|Hs]; [discriminate|].
  destruct (Z.ltb_spec (Z.of_nat (length dst)) n) as [Hd|Hd]; [discriminate|].
  simpl. intros H. inversion H. repeat split; lia.
Qed.

Lemma advance_length (n : Z) (data rest : list u_char) :
  0 <= n ->
  advance n data = Done rest ->
  Z.of_nat (length rest) = Z.of_nat (length data) - n.
Proof.
  intros Hn H. apply advance_inv in H as [Hle ->]. rewrite length_drop. lia.
Qed.

Lemma parse_add_path_progress (afi safi len : Z) (data : list u_char) (read_size : Z)
    (path_id : Z) (data' : list u_char) (read_size' : Z) :
  parse_add_path afi safi len data read_size = Done (path_id, data', read_size') ->
  read_size <= read_size' /\ (length data' <= length data)%nat.
Proof.
  unfold parse_add_path. destruct (_ && _).
  - intros H. bind_inv H. inversion H; subst.
    apply advance_length in E0; lia.
  - intros H. inversion H; subst. split; lia.
Qed.

Lemma addr_bytes_nonneg (p : Z) :
  0 <= p < 256 ->
  0 <= (if p mod 8 =? 0 then p / 8 else to_u_char (p / 8 + 1)) /\
  0 <= (if p mod 8 =? 0 then p / 8 else p / 8 + 1).
Proof.
  intros Hp. rewrite ceil_bytes, ceil_bytes_int by assumption.
  pose proof (ceil_bytes_range p Hp). lia.
Qed.

Lemma unicast_prefix_progress (isIPv4 : bool) (path_id : Z) (data : list u_char)
    (read_size : Z) (e : parse_bgp_lib_nlri) (l : list parse_bgp_lib_nlri)
    (st' : loop_state) :
  unicast_prefix isIPv4 path_id data read_size e l = Done st' ->
  read_size <= cur_read_size st' /\
  (length (cur_data st') < length data)%nat /\
  length (cur_list st') = S (length l).
Proof.
  unfold unicast_prefix. intros H. bind_inv H.
  inversion H; subst; clear H. simpl.
  apply read_u8_done in E as [Hv Hlen].
  pose proof (addr_bytes_nonneg z Hv) as [Hab _].
  apply advance_length in E1; [|exact Hab].
  rewrite length_app. simpl. lia.
Qed.

Lemma unicast_body_progress (isIPv4 : bool) (len : Z) (st st' : loop_state) :
  unicast_body isIPv4 len st = Done st' ->
  cur_read_size st <= cur_read_size st' /\
  (length (cur_data st') < length (cur_data st))%nat /\
  length (cur_list st') = S (length (cur_list st)).
Proof.
  unfold unicast_body. intros H. bind_inv H.
  apply parse_add_path_progress in E as [Hrs Hd].
  apply unicast_prefix_progress in H as (Hrs' & Hd' & Hl). lia.
Qed.

Lemma memcpy_total (dst src : list u_char) (n : Z) : memcpy dst src n <> OutOfFuel.
Proof. unfold memcpy. destruct (_ || _); discriminate. Qed.

Lemma advance_total (n : Z) (data : list u_char) : advance n data <> OutOfFuel.
Proof. unfold advance. destruct (_ <? _); discriminate. Qed.

Lemma read_u8_total (data : list u_char) : read_u8 data <> OutOfFuel.
Proof. destruct data; discriminate. Qed.

Lemma int_sub_total (a b : Z) : int_sub a b <> OutOfFuel.
Proof. unfold int_sub. destruct (_ && _); discriminate. Qed.

Lemma bind_total {A B : Type} (m : outcome A) (f : A -> outcome B) :
  m <> OutOfFuel -> (forall a, m = Done a -> f a <> OutOfFuel) -> m ≫= f <> OutOfFuel.
Proof.
  intros Hm Hf. destruct m as [a| |]; cbn [mbind outcome_mbind outcome_bind].
  - by apply Hf.
  - discriminate.
  - done.
Qed.

Lemma label_loop_fuel (fuel : nat) (st : label_state) :
  lb_addr_bytes st <= Z.of_nat fuel ->
  label_loop fuel st <> OutOfFuel.
Proof.
  revert st. induction fuel as [|fuel IH]; intros st Hfuel; simpl.
  - destruct (Z.leb_spec 3 (lb_addr_bytes st)) as [Hge|Hlt]; [lia|discriminate].
  - destruct (Z.leb_spec 3 (lb_addr_bytes st)) as [Hge|Hlt]; [|discriminate].
    apply bind_total; [apply memcpy_total|]. intros label _.
    apply bind_total; [apply advance_total|]. intros data _.
    destruct (_ || _); [discriminate|].
    apply IH. simpl. lia.
Qed.

Lemma label_loop_progress (fuel : nat) (st st' : label_state) :
  0 <= lb_addr_bytes st ->
  label_loop fuel st = Done st' ->
  0 <= lb_addr_bytes st' /\
  lb_read_size st <= lb_read_size st' /\
  (length (lb_data st') <= length (lb_data st))%nat.
Proof.
  revert st. induction fuel as [|fuel IH]; intros st Hab; simpl.
  - destruct (Z.leb_spec 3 (lb_addr_bytes st)) as [Hge|Hlt]; [discriminate|].
    intros H; inversion H; subst. lia.
  - destruct (Z.leb_spec 3 (lb_addr_bytes st)) as [Hge|Hlt].
    + intros H. bind_inv H.
      apply advance_length in E0; [|lia].
      destruct (_ || _).
      * inversion H; subst; simpl. lia.
      * apply IH in H; simpl in *; lia.
    + intros H; inversion H; subst. lia.
Qed.

Lemma labeled_prefix_progress (isIPv4 : bool) (len parsed_bytes path_id : Z)
    (data : list u_char) (read_size : Z) (e : parse_bgp_lib_nlri)
    (l : list parse_bgp_lib_nlri) (st' : loop_state) :
  labeled_prefix isIPv4 len parsed_bytes path_id data read_size e l = Done (Continue st') ->
  read_size <= cur_read_size st' /\
  (length (cur_data st') < length data)%nat /\
  length (cur_list st') = S (length l).
Proof.
  unfold labeled_prefix. destruct (parsed_bytes =? len); [discriminate|].
  intros H. bind_inv H. inversion H; subst; clear H. simpl.
  apply read_u8_done in E as [Hv Hlen].
  pose proof (addr_bytes_nonneg z Hv) as [_ Hab].
  apply label_loop_progress in E0 as (Hab' & Hrs & Hd); [|exact Hab].
  simpl in Hrs, Hd.
  apply advance_length in E2; [|exact Hab'].
  rewrite length_app. simpl. lia.
Qed.

Lemma labeled_prefix_break (isIPv4 : bool) (len parsed_bytes path_id : Z)
    (data : list u_char) (read_size : Z) (e : parse_bgp_lib_nlri)
    (l : list parse_bgp_lib_nlri) (st' : loop_state) :
  labeled_prefix isIPv4 len parsed_bytes path_id data read_size e l = Done (Break st') ->
  parsed_bytes = len /\ cur_list st' = l.
Proof.
  unfold labeled_prefix. destruct (Z.eqb_spec parsed_bytes len) as [Heq|Hne].
  - intros H; inversion H; subst. split; reflexivity.
  - intros H. bind_inv H; discriminate.
Qed.

Lemma labeled_body_progress (isIPv4 : bool) (len parsed_bytes : Z) (st st' : loop_state) :
  labeled_body isIPv4 len parsed_bytes st = Done (Continue st') ->
  cur_read_size st <= cur_read_size st' /\
  (length (cur_data st') < length (cur_data st))%nat /\
  length (cur_list st') = S (length (cur_list st)).
Proof.
  unfold labeled_body. intros H. bind_inv H.
  apply parse_add_path_progress in E as [Hrs Hd].
  apply labeled_prefix_progress in H as (Hrs' & Hd' & Hl). lia.
Qed.

Lemma parse_add_path_total (afi safi len : Z) (data : list u_char) (read_size : Z) :
  parse_add_path afi safi len data read_size <> OutOfFuel.
Proof.
  unfold parse_add_path. destruct (_ && _); [|discriminate].
  apply bind_total; [apply memcpy_total|]. intros p _.
  apply bind_total; [apply advance_total|]. discriminate.
Qed.

Lemma unicast_body_total (isIPv4 : bool) (len : Z) (st : loop_state) :
  unicast_body isIPv4 len st <> OutOfFuel.
Proof.
  unfold unicast_body. apply bind_total; [apply parse_add_path_total|].
  intros [[pid d] rs] _. unfold unicast_prefix.
  apply bind_total; [apply read_u8_total|]. intros [pl d'] _.
  apply bind_total; [apply memcpy_total|]. intros raw _.
  apply bind_total; [apply advance_total|]. discriminate.
Qed.

Lemma labeled_body_total (isIPv4 : bool) (len parsed_bytes : Z) (st : loop_state) :
  labeled_body isIPv4 len parsed_bytes st <> OutOfFuel.
Proof.
  unfold labeled_body. apply bind_total; [apply parse_add_path_total|].
  intros [[pid d] rs] _. unfold labeled_prefix.
  destruct (parsed_bytes =? len); [discriminate|].
  apply bind_total; [apply read_u8_total|]. intros [pl d'] _.
  apply bind_total; [apply label_loop_fuel; simpl; lia|]. intros lb _.
  apply bind_total; [apply memcpy_total|]. intros raw _.
  apply bind_total; [apply advance_total|]. discriminate.
Qed.

Lemma unicast_loop_fuel (fuel : nat) (isIPv4 : bool) (len : Z) (st : loop_state) :
  len - cur_read_size st <= Z.of_nat fuel ->
  unicast_loop fuel isIPv4 len st <> OutOfFuel.
Proof.
  revert st. induction fuel as [|fuel IH]; intros st Hfuel; simpl.
  - destruct (Z.ltb_spec (cur_read_size st) len) as [Hlt|Hge]; [lia|discriminate].
  - destruct (Z.ltb_spec (cur_read_size st) len) as [Hlt|Hge]; [|discriminate].
    apply bind_total; [apply unicast_body_total|]. intros st1 Hbody.
    apply unicast_body_progress in Hbody as (Hrs & _ & _).
    apply IH. simpl. lia.
Qed.

Lemma labeled_loop_fuel (fuel : nat) (isIPv4 : bool) (len parsed_bytes : Z) (st : loop_state) :
  len - cur_read_size st <= Z.of_nat fuel ->
  labeled_loop fuel isIPv4 len parsed_bytes st <> OutOfFuel.
Proof.
  revert st. induction fuel as [|fuel IH]; intros st Hfuel; simpl.
  - destruct (Z.ltb_spec (cur_read_size st) len) as [Hlt|Hge]; [lia|discriminate].
  - destruct (Z.ltb_spec (cur_read_size st) len) as [Hlt|Hge]; [|discriminate].
    apply bind_total; [apply labeled_body_total|]. intros [st1|st1] Hbody; [|discriminate].
    apply labeled_body_progress in Hbody as (Hrs & _ & _).
    apply IH. simpl. lia.
Qed.

Lemma unicast_loop_count (fuel : nat) (isIPv4 : bool) (len : Z) (st st' : loop_state) :
  unicast_loop fuel isIPv4 len st = Done st' ->
  Z.of_nat (length (cur_list st')) <=
    Z.of_nat (length (cur_list st)) + Z.max 0 (len - cur_read_size st).
Proof.
  revert st. induction fuel as [|fuel IH]; intros st; simpl.
  - destruct (Z.ltb_spec (cur_read_size st) len) as [Hlt|Hge]; [discriminate|].
    intros H; inversion H; subst. lia.
  - destruct (Z.ltb_spec (cur_read_size st) len) as [Hlt|Hge].
    + intros H. bind_inv H.
      apply unicast_body_progress in E as (Hrs & _ & Hl).
      apply IH in H. simpl in H. lia.
    + intros H; inversion H; subst. lia.
Qed.

Lemma labeled_loop_count (fuel : nat) (isIPv4 : bool) (len parsed_bytes : Z)
    (st st' : loop_state) :
  labeled_loop fuel isIPv4 len parsed_bytes st = Done st' ->
  Z.of_nat (length (cur_list st')) <=
    Z.of_nat (length (cur_list st)) + Z.max 0 (len - cur_read_size st).
Proof.
  revert st. induction fuel as [|fuel IH]; intros st; simpl.
  - destruct (Z.ltb_spec (cur_read_size st) len) as [Hlt|Hge]; [discriminate|].
    intros H; inversion H; subst. lia.
  - destruct (Z.ltb_spec (cur_read_size st) len) as [Hlt|Hge].
    + intros H. bind_inv H. destruct a as [st1|st1].
      * apply labeled_body_progress in E as (Hrs & _ & Hl).
        apply IH in H. simpl in H. lia.
      * inversion H; subst. unfold labeled_body in E. bind_inv E.
        apply labeled_prefix_break in E as [_ ->]. lia.
    + intros H; inversion H; subst. lia.
Qed.

Lemma parseNlriData_IPv4IPv6_total (isIPv4 : bool) (data : option (list u_char)) (len : Z)
    (l : list parse_bgp_lib_nlri) :
  parseNlriData_IPv4IPv6 isIPv4 data len l <> OutOfFuel.
Proof.
  unfold parseNlriData_IPv4IPv6. destruct data as [data|]; [|discriminate].
  destruct (len <=? 0); [discriminate|].
  apply bind_total; [apply unicast_loop_fuel; simpl; lia|]. discriminate.
Qed.

Lemma parseNlriData_LabelIPv4IPv6_total (isIPv4 : bool) (data : option (list u_char))
    (len : Z) (l : list parse_bgp_lib_nlri) :
  parseNlriData_LabelIPv4IPv6 isIPv4 data len l <> OutOfFuel.
Proof.
  unfold parseNlriData_LabelIPv4IPv6. destruct data as [data|]; [|discriminate].
  destruct (len <=? 0); [discriminate|].
  apply bind_total; [apply labeled_loop_fuel; simpl; lia|]. discriminate.
Qed.

Lemma parseNlriData_IPv4IPv6_count (isIPv4 : bool) (data : option (list u_char)) (len : Z)
    (l l' : list parse_bgp_lib_nlri) :
  parseNlriData_IPv4IPv6 isIPv4 data len l = Done l' ->
  Z.of_nat (length l') <= Z.of_nat (length l) + Z.max 0 len.
Proof.
  unfold parseNlriData_IPv4IPv6. destruct data as [data|].
  - destruct (len <=? 0).
    + intros H; inversion H; subst. lia.
    + intros H. bind_inv H. inversion H; subst.
      apply unicast_loop_count in E. simpl in E. lia.
  - intros H; inversion H; subst. lia.
Qed.

Lemma parseNlriData_LabelIPv4IPv6_count (isIPv4 : bool) (data : option (list u_char))
    (len : Z) (l l' : list parse_bgp_lib_nlri) :
  parseNlriData_LabelIPv4IPv6 isIPv4 data len l = Done l' ->
  Z.of_nat (length l') <= Z.of_nat (length l) + Z.max 0 len.
Proof.
  unfold parseNlriData_LabelIPv4IPv6. destruct data as [data|].
  - destruct (len <=? 0).
    + intros H; inversion H; subst. lia.
    + intros H. bind_inv H. inversion H; subst.
      apply labeled_loop_count in E. simpl in E. lia.
  - intros H; inversion H; subst. lia.
Qed.

Lemma parseAfi_total (nlri : mp_reach_nlri) (update : parsed_update) :
  parseAfi nlri update <> OutOfFuel.
Proof.
  assert (Hfam : forall b, parseAfi_IPv4IPv6 b nlri update <> OutOfFuel).
  { intros b. unfold parseAfi_IPv4IPv6, next_hop_raw.
    destruct (mp_safi nlri =? BGP_SAFI_UNICAST);
      [|destruct (mp_safi nlri =? BGP_SAFI_NLRI_LABEL); [|discriminate]].
    - apply bind_total; [destruct (16 <? _); apply memcpy_total|]. intros raw _.
      apply bind_total; [apply parseNlriData_IPv4IPv6_total|]. discriminate.
    - apply bind_total; [destruct (16 <? _); apply memcpy_total|]. intros raw _.
      apply bind_total; [apply parseNlriData_LabelIPv4IPv6_total|]. discriminate. }
  unfold parseAfi.
  destruct (_ =? BGP_AFI_IPV6); [apply Hfam|].
  destruct (_ =? BGP_AFI_IPV4); [apply Hfam|].
  destruct (_ =? BGP_AFI_BGPLS); discriminate.
Qed.

Lemma to_uint16_le (z : Z) : 0 <= z -> 0 <= to_uint16 z <= z.
Proof.
  intros Hz. unfold to_uint16. split.
  - apply Z.mod_pos_bound. lia.
  - apply Z.mod_le; lia.
Qed.

Lemma parseAfi_count (nlri : mp_reach_nlri) (update u' : parsed_update) :
  0 <= mp_nlri_len nlri ->
  parseAfi nlri update = Done u' ->
  Z.of_nat (length (nlri_list u')) <=
    Z.of_nat (length (nlri_list update)) + mp_nlri_len nlri.
Proof.
  intros Hlen.
  pose proof (to_uint16_le _ Hlen) as H16.
  assert (Hfam : forall b, parseAfi_IPv4IPv6 b nlri update = Done u' ->
            Z.of_nat (length (nlri_list u')) <=
              Z.of_nat (length (nlri_list update)) + mp_nlri_len nlri).
  { intros b. unfold parseAfi_IPv4IPv6.
    destruct (mp_safi nlri =? BGP_SAFI_UNICAST);
      [|destruct (mp_safi nlri =? BGP_SAFI_NLRI_LABEL)].
    - intros H. bind_inv H. inversion H; subst. simpl.
      apply parseNlriData_IPv4IPv6_count in E0. lia.
    - intros H. bind_inv H. inversion H; subst. simpl.
      apply parseNlriData_LabelIPv4IPv6_count in E0. lia.
    - intros H; inversion H; subst. lia. }
  unfold parseAfi.
  destruct (_ =? BGP_AFI_IPV6); [apply Hfam|].
  destruct (_ =? BGP_AFI_IPV4); [apply Hfam|].
  destruct (_ =? BGP_AFI_BGPLS); intros H; inversion H; subst; lia.
Qed.

(** C9. The decode of an attribute never runs out of the fuel its loops are
    given, so it always ends; every completed iteration of either prefix
    loop moves the cursor forward by at least one byte and appends one
    entry, and a completed decode has appended at most as many entries as
    the declared attribute length. *)
Theorem decode_terminates :
  (forall (attr_len : Z) (data : list u_char) (update : parsed_update),
     parseReachNlriAttr attr_len data update <> OutOfFuel) /\
  (forall (isIPv4 : bool) (data : option (list u_char)) (len : Z)
          (l : list parse_bgp_lib_nlri),
     parseNlriData_IPv4IPv6 isIPv4 data len l <> OutOfFuel /\
     parseNlriData_LabelIPv4IPv6 isIPv4 data len l <> OutOfFuel) /\
  (forall (isIPv4 : bool) (len : Z) (st st' : loop_state),
     unicast_body isIPv4 len st = Done st' ->
     cur_read_size st < cur_read_size st' + 1 /\
     (length (cur_data st') < length (cur_data st))%nat /\
     length (cur_list st') = S (length (cur_list st))) /\
  (forall (isIPv4 : bool) (len parsed_bytes : Z) (st st' : loop_state),
     labeled_body isIPv4 len parsed_bytes st = Done (Continue st') ->
     cur_read_size st < cur_read_size st' + 1 /\
     (length (cur_data st') < length (cur_data st))%nat /\
     length (cur_list st') = S (length (cur_list st))) /\
  (forall (attr_len : Z) (data : list u_char) (update u' : parsed_update),
     parseReachNlriAttr attr_len data update = Done u' ->
     Z.of_nat (length (nlri_list u')) <=
       Z.of_nat (length (nlri_list update)) + Z.max 0 attr_len).
Proof.
  split; [|split; [|split; [|split]]].
  - intros attr_len data update. unfold parseReachNlriAttr.
    apply bind_total; [apply memcpy_total|]. intros afi _.
    apply bind_total; [apply advance_total|]. intros d1 _.
    apply bind_total; [apply int_sub_total|]. intros l1 _.
    apply bind_total; [apply read_u8_total|]. intros [safi d2] _.
    apply bind_total; [apply int_sub_total|]. intros l2 _.
    apply bind_total; [apply read_u8_total|]. intros [nh d3] _.
    apply bind_total; [apply int_sub_total|]. intros l3 _.
    apply bind_total; [apply advance_total|]. intros d4 _.
    apply bind_total; [apply int_sub_total|]. intros l4 _.
    apply bind_total; [apply read_u8_total|]. intros [rsv d5] _.
    apply bind_total; [apply int_sub_total|]. intros l5 _.
    destruct (l5 <? 0); [discriminate|apply parseAfi_total].
  - intros isIPv4 data len l. split.
    + apply parseNlriData_IPv4IPv6_total.
    + apply parseNlriData_LabelIPv4IPv6_total.
  - intros isIPv4 len st st' H.
    apply unicast_body_progress in H as (Hrs & Hd & Hl). repeat split; [lia|lia|exact Hl].
  - intros isIPv4 len parsed_bytes st st' H.
    apply labeled_body_progress in H as (Hrs & Hd & Hl). repeat split; [lia|lia|exact Hl].
  - intros attr_len data update u' H. unfold parseReachNlriAttr in H.
    bind_inv H.
    repeat match goal with
           | E : int_sub _ _ = Done _ |- _ => apply int_sub_done in E
           | E : read_u8 _ = Done _ |- _ => apply read_u8_done in E as [? _]
           end.
    match type of H with
    | (if ?r <? 0 then _ else _) = _ => destruct (Z.ltb_spec r 0) as [Hneg|Hpos]
    end.
    + inversion H; subst. lia.
    + apply parseAfi_count in H; simpl in *; lia.
Qed.

(** ** Accumulation in the working entry *)

Lemma entry_extends_refl (e : parse_bgp_lib_nlri) : entry_extends e e.
Proof. intros k. reflexivity. Qed.

Lemma entry_extends_trans (e1 e2 e3 : parse_bgp_lib_nlri) :
  entry_extends e1 e2 -> entry_extends e2 e3 -> entry_extends e1 e3.
Proof. intros H12 H23 k. etrans; [apply H12|apply H23]. Qed.

Lemma entry_extends_push (k : BGP_LIB_NLRI) (v : string) (e : parse_bgp_lib_nlri) :
  entry_extends e (nlri_push k v e).
Proof.
  intros k'. destruct (decide (k = k')) as [<-|Hne].
  - rewrite field_push_eq. by apply prefix_app_r.
  - by rewrite field_push_ne.
Qed.

Lemma length_field_push (k k' : BGP_LIB_NLRI) (v : string) (e : parse_bgp_lib_nlri) :
  length (field k' (nlri_push k v e)) =
  if decide (k = k') then S (length (field k' e)) else length (field k' e).
Proof.
  destruct (decide (k = k')) as [<-|Hne].
  - rewrite field_push_eq, length_app. simpl. lia.
  - by rewrite field_push_ne.
Qed.

Lemma unicast_body_appends (isIPv4 : bool) (len : Z) (st st' : loop_state) :
  unicast_body isIPv4 len st = Done st' -> appends_extended st st'.
Proof.
  unfold unicast_body. intros H. bind_inv H.
  unfold unicast_prefix in H. bind_inv H. inversion H; subst; clear H.
  split; [reflexivity|]. split.
  - simpl. repeat (eapply entry_extends_trans; [|apply entry_extends_push]).
    apply entry_extends_refl.
  - intros k Hk. simpl. rewrite !length_field_push.
    unfold per_prefix_keys in Hk. rewrite !elem_of_cons in Hk.
    destruct Hk as [->|[->|[->|Hk]]]; [reflexivity..|by apply elem_of_nil in Hk].
Qed.

Lemma label_loop_extends (fuel : nat) (st st' : label_state) :
  label_loop fuel st = Done st' ->
  entry_extends (lb_nlri st) (lb_nlri st') /\
  forall k, k ∈ per_prefix_keys -> field k (lb_nlri st') = field k (lb_nlri st).
Proof.
  revert st. induction fuel as [|fuel IH]; intros st; simpl.
  - destruct (3 <=? lb_addr_bytes st); [discriminate|].
    intros H; inversion H; subst. split; [apply entry_extends_refl|reflexivity].
  - destruct (3 <=? lb_addr_bytes st).
    + intros H. bind_inv H.
      assert (Hstep : forall e,
        entry_extends e
          (nlri_push LIB_NLRI_LABELS (decimal (label_decode_value (SWAP_BYTES a)))
             (nlri_push LIB_NLRI_PREFIX_LENGTH
                (decimal (to_u_char (lb_prefix_len st - 24))) e)) /\
        forall k, k ∈ per_prefix_keys ->
          field k (nlri_push LIB_NLRI_LABELS (decimal (label_decode_value (SWAP_BYTES a)))
             (nlri_push LIB_NLRI_PREFIX_LENGTH
                (decimal (to_u_char (lb_prefix_len st - 24))) e)) = field k e).
      { intros e. split.
        - repeat (eapply entry_extends_trans; [|apply entry_extends_push]).
          apply entry_extends_refl.
        - intros k Hk. unfold per_prefix_keys in Hk. rewrite !elem_of_cons in Hk.
          destruct Hk as [->|[->|[->|Hk]]]; [|..|by apply elem_of_nil in Hk];
            by rewrite !field_push_ne. }
      destruct (Hstep (lb_nlri st)) as [Hext Hkeep].
      destruct (_ || _).
      * inversion H; subst; clear H. simpl. split; assumption.
      * apply IH in H as [Hext' Hkeep']. simpl in Hext', Hkeep'. split.
        -- eapply entry_extends_trans; eassumption.
        -- intros k Hk. rewrite Hkeep' by assumption. by apply Hkeep.
    + intros H; inversion H; subst. split; [apply entry_extends_refl|reflexivity].
Qed.

Lemma labeled_body_appends (isIPv4 : bool) (len parsed_bytes : Z) (st st' : loop_state) :
  labeled_body isIPv4 len parsed_bytes st = Done (Continue st') -> appends_extended st st'.
Proof.
  unfold labeled_body. intros H. bind_inv H.
  unfold labeled_prefix in H. destruct (parsed_bytes =? len); [discriminate|].
  bind_inv H. inversion H; subst; clear H.
  match goal with
  | E : label_loop _ _ = Done _ |- _ => apply label_loop_extends in E as [Hext Hkeep]
  end.
  simpl in Hext, Hkeep.
  split; [reflexivity|]. split.
  - simpl. repeat (eapply entry_extends_trans; [|apply entry_extends_push]).
    eapply entry_extends_trans; [apply entry_extends_push|exact Hext].
  - intros k Hk. simpl. rewrite !length_field_push, Hkeep by assumption.
    rewrite length_field_push.
    unfold per_prefix_keys in Hk. rewrite !elem_of_cons in Hk.
    destruct Hk as [->|[->|[->|Hk]]]; [reflexivity..|by apply elem_of_nil in Hk].
Qed.

Lemma accumulated_start (l0 : list parse_bgp_lib_nlri) (data : list u_char) (rs a s t : Z) :
  accumulated l0 (Loop data rs (Nlri a s t ∅) l0).
Proof.
  exists []. simpl. split; [by rewrite app_nil_r|]. split; [|split; [|split]].
  - intros i e e' Hi. by rewrite lookup_nil in Hi.
  - intros e He. discriminate.
  - intros k _. reflexivity.
  - intros i e k Hi. by rewrite lookup_nil in Hi.
Qed.

Lemma accumulated_step (l0 : list parse_bgp_lib_nlri) (st st' : loop_state) :
  accumulated l0 st -> appends_extended st st' -> accumulated l0 st'.
Proof.
  intros (new & Hl & Hacc & Hlast & Hcur & Hcount) (Happ & Hext & Hlen).
  exists (new ++ [cur_nlri st']).
  split; [rewrite Happ, Hl; by rewrite app_assoc|].
  split; [|split; [|split]].
  - intros i e e' Hi Hi'.
    destruct (decide (S i < length new)%nat) as [Hlt|Hge].
    + rewrite lookup_app_l in Hi by lia. rewrite lookup_app_l in Hi' by lia.
      by eapply Hacc.
    + destruct (decide (S i = length new)) as [Heq|Hne].
      * rewrite lookup_app_l in Hi by lia.
        rewrite lookup_app_r in Hi' by lia.
        replace (S i - length new)%nat with 0%nat in Hi' by lia.
        simpl in Hi'. inversion Hi'; subst e'.
        eapply entry_extends_trans; [|exact Hext].
        apply Hlast. rewrite last_lookup. rewrite <- Heq. exact Hi.
      * apply lookup_lt_Some in Hi'. rewrite length_app in Hi'. simpl in Hi'. lia.
  - intros e He. rewrite last_snoc in He. inversion He. apply entry_extends_refl.
  - intros k Hk. rewrite Hlen by assumption. rewrite Hcur by assumption.
    rewrite length_app. simpl. lia.
  - intros i e k Hi Hk.
    destruct (decide (i < length new)%nat) as [Hlt|Hge].
    + rewrite lookup_app_l in Hi by lia. by eapply Hcount.
    + rewrite lookup_app_r in Hi by lia.
      destruct (i - length new)%nat as [|j] eqn:Hj; simpl in Hi; [|by rewrite lookup_nil in Hi].
      inversion Hi; subst e. rewrite Hlen by assumption. rewrite Hcur by assumption. lia.
Qed.

Lemma accumulated_next (l0 : list parse_bgp_lib_nlri) (st : loop_state) (rs : Z) :
  accumulated l0 st -> accumulated l0 (Loop (cur_data st) rs (cur_nlri st) (cur_list st)).
Proof. intros H. exact H. Qed.

Lemma unicast_loop_accumulated (fuel : nat) (isIPv4 : bool) (len : Z)
    (l0 : list parse_bgp_lib_nlri) (st st' : loop_state) :
  accumulated l0 st ->
  unicast_loop fuel isIPv4 len st = Done st' ->
  accumulated l0 st'.
Proof.
  revert st. induction fuel as [|fuel IH]; intros st Hinv; simpl.
  - destruct (cur_read_size st <? len); [discriminate|]. by inversion 1; subst.
  - destruct (cur_read_size st <? len); [|by inversion 1; subst].
    intros H. bind_inv H.
    apply unicast_body_appends in E.
    eapply IH; [|exact H]. apply accumulated_next. eapply accumulated_step; eassumption.
Qed.

Lemma labeled_body_break (isIPv4 : bool) (len parsed_bytes : Z) (st st' : loop_state) :
  labeled_body isIPv4 len parsed_bytes st = Done (Break st') ->
  cur_list st' = cur_list st /\ parsed_bytes = len.
Proof.
  unfold labeled_body. intros H. bind_inv H.
  apply labeled_prefix_break in H as [-> ->]. split; reflexivity.
Qed.

Lemma labeled_loop_accumulated (fuel : nat) (isIPv4 : bool) (len parsed_bytes : Z)
    (l0 : list parse_bgp_lib_nlri) (st st' : loop_state) :
  accumulated l0 st ->
  labeled_loop fuel isIPv4 len parsed_bytes st = Done st' ->
  exists st'' : loop_state, accumulated l0 st'' /\ cur_list st' = cur_list st''.
Proof.
  revert st. induction fuel as [|fuel IH]; intros st Hinv; simpl.
  - destruct (cur_read_size st <? len); [discriminate|]. inversion 1; subst. eauto.
  - destruct (cur_read_size st <? len); [|inversion 1; subst; eauto].
    intros H. bind_inv H. destruct a as [st1|st1].
    + apply labeled_body_appends in E.
      eapply IH; [|exact H]. apply accumulated_next. eapply accumulated_step; eassumption.
    + inversion H; subst. apply labeled_body_break in E as [E _].
      exists st. split; assumption.
Qed.

(** C10. Within one call of either NLRI decoder the working entry is never
    cleared: the entries the call appends form a sequence in which every
    per-key list of an entry is an initial segment of the same list of the
    next entry, and the i-th appended entry holds i path identifiers, i
    prefix texts and i binary prefixes. *)
Theorem working_entry_accumulates (isIPv4 : bool) (data : option (list u_char)) (len : Z)
    (l l' : list parse_bgp_lib_nlri) :
  parseNlriData_IPv4IPv6 isIPv4 data len l = Done l' \/
  parseNlriData_LabelIPv4IPv6 isIPv4 data len l = Done l' ->
  exists new : list parse_bgp_lib_nlri,
    l' = l ++ new /\
    (forall (i : nat) (e e' : parse_bgp_lib_nlri),
       new !! i = Some e -> new !! S i = Some e' ->
       forall k : BGP_LIB_NLRI, field k e `prefix_of` field k e') /\
    (forall (i : nat) (e : parse_bgp_lib_nlri),
       new !! i = Some e ->
       length (field LIB_NLRI_PATH_ID e) = S i /\
       length (field LIB_NLRI_PREFIX e) = S i /\
       length (field LIB_NLRI_PREFIX_BIN e) = S i).
Proof.
  assert (Hfinal : forall st, accumulated l st -> exists new,
            cur_list st = l ++ new /\
            (forall i e e', new !! i = Some e -> new !! S i = Some e' ->
               forall k, field k e `prefix_of` field k e') /\
            (forall i e, new !! i = Some e ->
               length (field LIB_NLRI_PATH_ID e) = S i /\
               length (field LIB_NLRI_PREFIX e) = S i /\
               length (field LIB_NLRI_PREFIX_BIN e) = S i)).
  { intros st (new & Hl & Hacc & _ & _ & Hcount). exists new.
    split; [exact Hl|]. split; [exact Hacc|].
    intros i e Hi. repeat split; eapply Hcount; try exact Hi;
      unfold per_prefix_keys; set_solver. }
  assert (Hnone : exists new : list parse_bgp_lib_nlri,
            l = l ++ new /\
            (forall i e e', new !! i = Some e -> new !! S i = Some e' ->
               forall k, field k e `prefix_of` field k e') /\
            (forall i e, new !! i = Some e ->
               length (field LIB_NLRI_PATH_ID e) = S i /\
               length (field LIB_NLRI_PREFIX e) = S i /\
               length (field LIB_NLRI_PREFIX_BIN e) = S i)).
  { exists []. split; [by rewrite app_nil_r|].
    split; intros i e; intros; by rewrite lookup_nil in *. }
  intros [H|H].
  - unfold parseNlriData_IPv4IPv6 in H. destruct data as [data|]; [|by inversion H; subst].
    destruct (len <=? 0); [by inversion H; subst|].
    bind_inv H. inversion H; subst; clear H.
    apply Hfinal. eapply unicast_loop_accumulated; [|eassumption].
    apply accumulated_start.
  - unfold parseNlriData_LabelIPv4IPv6 in H. destruct data as [data|]; [|by inversion H; subst].
    destruct (len <=? 0); [by inversion H; subst|].
    bind_inv H. inversion H; subst; clear H.
    match goal with
    | E : labeled_loop _ _ _ _ _ = Done _ |- _ =>
        eapply labeled_loop_accumulated in E as (st'' & Hinv & ->);
          [|apply accumulated_start]
    end.
    by apply Hfinal.
Qed.

(** ** The label loop *)

Lemma load_label_bytes (x0 x1 x2 x3 w0 w1 w2 : u_char) :
  load_label [x0; x1; x2; x3] w0 w1 w2 = [x3; w2; w1; w0].
Proof. reflexivity. Qed.

Lemma load_label_length (label : list u_char) (w0 w1 w2 : u_char) :
  length label = 4%nat -> length (load_label label w0 w1 w2) = 4%nat.
Proof.
  intros H. destruct label as [|x0 [|x1 [|x2 [|x3 [|x4 label]]]]]; simpl in H; try lia.
  reflexivity.
Qed.

Lemma memcpy_label (label : list u_char) (w0 w1 w2 : u_char) (rest : list u_char) :
  length label = 4%nat ->
  memcpy label (w0 :: w1 :: w2 :: rest) 3 = Done ([w0; w1; w2] ++ drop 3 label).
Proof.
  intros H. rewrite memcpy_done by (simpl length; lia). reflexivity.
Qed.

Lemma land_bit (x : Z) : Z.land x 1 = x mod 2.
Proof. apply (Z.land_ones x 1). lia. Qed.

Lemma land_octet (x : Z) : Z.land x 255 = x mod 256.
Proof. apply (Z.land_ones x 8). lia. Qed.

Lemma land_value (x : Z) : Z.land x (2 ^ 20 - 1) = x mod 2 ^ 20.
Proof. apply (Z.land_ones x 20). lia. Qed.

(** The fields of a loaded label in terms of the three bytes on the wire
    and of the byte the union held last. *)
Lemma label_fields (x0 x1 x2 x3 w0 w1 w2 : u_char) :
  let label := load_label [x0; x1; x2; x3] w0 w1 w2 in
  label_data label = u8 w0 * 2 ^ 24 + u8 w1 * 2 ^ 16 + u8 w2 * 2 ^ 8 + u8 x3 /\
  label_decode_value label = u8 w0 * 2 ^ 12 + u8 w1 * 2 ^ 4 + u8 w2 / 2 ^ 4 /\
  label_decode_bos label = u8 w2 mod 2 /\
  label_decode_ttl label = u8 x3.
Proof.
  intros label. subst label. rewrite load_label_bytes.
  unfold label_decode_value, label_decode_bos, label_decode_ttl, label_data, host_value.
  cbn [fold_right].
  pose proof (u8_range w0) as Hw0. pose proof (u8_range w1) as Hw1.
  pose proof (u8_range w2) as Hw2. pose proof (u8_range x3) as Hx3.
  rewrite land_bit, land_octet, land_value.
  rewrite !Z.shiftr_div_pow2 by lia.
  change (2 ^ 24) with 16777216. change (2 ^ 16) with 65536. change (2 ^ 12) with 4096.
  change (2 ^ 8) with 256. change (2 ^ 4) with 16. change (2 ^ 20) with 1048576.
  clear - Hw0 Hw1 Hw2 Hx3.
  repeat split; Z.div_mod_to_equations; lia.
Qed.

Lemma label_loop_run (fuel : nat) (st : label_state) :
  0 <= lb_addr_bytes st <= Z.of_nat fuel ->
  lb_addr_bytes st <= Z.of_nat (length (lb_data st)) ->
  length (lb_label st) = 4%nat ->
  label_loop fuel st =
    Done (after_labels st
            (label_stack (Z.to_nat (lb_addr_bytes st / 3)) (lb_label st) (lb_data st))).
Proof.
  revert st. induction fuel as [|fuel IH]; intros st Hab Hdata Hlabel.
  - assert (lb_addr_bytes st = 0) as E by lia.
    simpl. rewrite E. simpl. destruct st; simpl in *; subst; reflexivity.
  - simpl. destruct (Z.leb_spec 3 (lb_addr_bytes st)) as [Hge|Hlt].
    + assert (Hq : Z.to_nat (lb_addr_bytes st / 3) =
                   S (Z.to_nat ((lb_addr_bytes st - 3) / 3))).
      { replace (lb_addr_bytes st) with ((lb_addr_bytes st - 3) + 1 * 3) at 1 by lia.
        rewrite Z.div_add by lia.
        pose proof (Z.div_pos (lb_addr_bytes st - 3) 3 ltac:(lia) ltac:(lia)). lia. }
      rewrite Hq.
      destruct (lb_data st) as [|w0 [|w1 [|w2 rest]]] eqn:Ed; simpl length in Hdata; try lia.
      rewrite memcpy_label by assumption.
      rewrite advance_done by (simpl length; lia).
      cbn [mbind outcome_mbind outcome_bind].
      change (SWAP_BYTES ([w0; w1; w2] ++ drop 3 (lb_label st)))
        with (load_label (lb_label st) w0 w1 w2).
      change (drop (Z.to_nat 3) (w0 :: w1 :: w2 :: rest)) with rest.
      cbn [label_stack after_labels]. rewrite Ed.
      change (drop 3 (w0 :: w1 :: w2 :: rest)) with rest.
      fold (ends_stack (load_label (lb_label st) w0 w1 w2)).
      destruct (ends_stack (load_label (lb_label st) w0 w1 w2)); [reflexivity|].
      rewrite IH; [reflexivity| | |]; cbn [lb_addr_bytes lb_data lb_label].
      * lia.
      * simpl length in Hdata. lia.
      * by apply load_label_length.
    + replace (lb_addr_bytes st / 3) with 0; [reflexivity|].
      symmetry. apply Z.div_small. lia.
Qed.

Lemma after_labels_fields (ws : list (list u_char)) (st : label_state) :
  let st' := after_labels st ws in
  let k := length ws in
  lb_data st' = drop (3 * k) (lb_data st) /\
  lb_addr_bytes st' = lb_addr_bytes st - 3 * Z.of_nat k /\
  lb_read_size st' = lb_read_size st + 3 * Z.of_nat k /\
  (k <> 0%nat -> lb_prefix_len st' = to_u_char (lb_prefix_len st - 24 * Z.of_nat k)) /\
  field LIB_NLRI_LABELS (lb_nlri st') =
    field LIB_NLRI_LABELS (lb_nlri st) ++ map (fun l => decimal (label_decode_value l)) ws /\
  field LIB_NLRI_PREFIX_LENGTH (lb_nlri st') =
    field LIB_NLRI_PREFIX_LENGTH (lb_nlri st) ++
    map (fun j => decimal (to_u_char (lb_prefix_len st - 24 * Z.of_nat j))) (seq 1 k) /\
  (forall key, key <> LIB_NLRI_LABELS -> key <> LIB_NLRI_PREFIX_LENGTH ->
     field key (lb_nlri st') = field key (lb_nlri st)).
Proof.
  revert st. induction ws as [|l ws IH]; intros st; cbn zeta.
  - simpl. rewrite !app_nil_r. repeat split; try lia; try done.
  - cbn [after_labels length].
    destruct (IH (Labels (drop 3 (lb_data st)) (lb_addr_bytes st - 3) (lb_read_size st + 3)
                    (to_u_char (lb_prefix_len st - 24))
                    (nlri_push LIB_NLRI_LABELS (decimal (label_decode_value l))
                       (nlri_push LIB_NLRI_PREFIX_LENGTH
                          (decimal (to_u_char (lb_prefix_len st - 24))) (lb_nlri st)))
                    l))
      as (Hd & Hab & Hrs & Hpl & Hlab & Hlen & Hoth).
    cbn [lb_data lb_addr_bytes lb_read_size lb_prefix_len lb_nlri] in *.
    assert (Hmod : forall j : Z,
              to_u_char (to_u_char (lb_prefix_len st - 24) - 24 * j) =
              to_u_char (lb_prefix_len st - 24 * (j + 1))).
    { intros j. unfold to_u_char. rewrite Zminus_mod_idemp_l. f_equal. lia. }
    split; [|split; [|split; [|split; [|split; [|split]]]]].
    + rewrite Hd, drop_drop. f_equal. lia.
    + lia.
    + lia.
    + intros _. destruct ws as [|l' ws].
      * simpl. by rewrite Z.mul_1_r.
      * rewrite Hpl by discriminate. rewrite Hmod.
        replace (Z.of_nat (length (l' :: ws)) + 1) with (Z.of_nat (S (length (l' :: ws))))
          by lia.
        reflexivity.
    + rewrite Hlab, field_push_eq, field_push_ne by discriminate.
      by rewrite <- app_assoc.
    + rewrite Hlen, field_push_ne, field_push_eq by discriminate.
      rewrite <- app_assoc. f_equal. cbn [seq map]. f_equal.
      rewrite <- (seq_shift (length ws) 1), map_map. apply map_ext. intros j.
      rewrite Hmod. replace (Z.of_nat j + 1) with (Z.of_nat (S j)) by lia. reflexivity.
    + intros key Hk1 Hk2. rewrite Hoth by assumption. by rewrite !field_push_ne.
Qed.

Lemma label_stack_length (n : nat) (label data : list u_char) :
  (length (label_stack n label data) <= n)%nat /\
  (3 * length (label_stack n label data) <= length data)%nat /\
  (1 <= n -> 3 <= length data -> 1 <= length (label_stack n label data))%nat.
Proof.
  revert label data. induction n as [|n IH]; intros label data; [simpl; lia|].
  destruct data as [|w0 [|w1 [|w2 rest]]]; simpl; try lia.
  destruct (ends_stack _); simpl; [lia|].
  destruct (IH (load_label label w0 w1 w2) rest) as (H1 & H2 & _). lia.
Qed.

Lemma label_stack_ends (n : nat) (label data : list u_char) :
  let ws := label_stack n label data in
  (forall (i : nat) (l : list u_char),
     ws !! i = Some l -> (S i < length ws)%nat -> ends_stack l = false) /\
  ((length ws < n)%nat -> (3 * n <= length data)%nat ->
   exists l, last ws = Some l /\ ends_stack l = true).
Proof.
  revert label data. induction n as [|n IH]; intros label data; cbn zeta.
  - split; [intros i l Hi; simpl in Hi; discriminate Hi|simpl; lia].
  - destruct data as [|w0 [|w1 [|w2 rest]]];
      try (split; [intros i l Hi; simpl in Hi; discriminate Hi|simpl; lia]).
    cbn [label_stack].
    destruct (ends_stack (load_label label w0 w1 w2)) eqn:Eend.
    + split.
      * intros i l Hi Hlt. simpl in Hlt. lia.
      * intros _ _. exists (load_label label w0 w1 w2). split; [reflexivity|exact Eend].
    + destruct (IH (load_label label w0 w1 w2) rest) as [Hmid Hlast]. split.
      * intros [|i] l Hi Hlt.
        -- simpl in Hi. inversion Hi; subst. exact Eend.
        -- simpl in Hi, Hlt. apply (Hmid i l Hi). lia.
      * intros Hlt Hdata. simpl in Hlt, Hdata.
        destruct Hlast as (l & Hl & He); [lia|lia|].
        exists l. split; [|exact He].
        destruct (label_stack n (load_label label w0 w1 w2) rest) as [|l0 ws] eqn:Ews;
          [discriminate|]. exact Hl.
Qed.

Lemma label_stack_wire (n : nat) (label data : list u_char) :
  length label = 4%nat ->
  forall (i : nat) (l : list u_char),
    label_stack n label data !! i = Some l ->
    exists w0 w1 w2 : u_char,
      data !! (3 * i)%nat = Some w0 /\
      data !! (3 * i + 1)%nat = Some w1 /\
      data !! (3 * i + 2)%nat = Some w2 /\
      label_decode_value l = u8 w0 * 2 ^ 12 + u8 w1 * 2 ^ 4 + u8 w2 / 2 ^ 4 /\
      label_decode_bos l = u8 w2 mod 2 /\
      label_data l = u8 w0 * 2 ^ 24 + u8 w1 * 2 ^ 16 + u8 w2 * 2 ^ 8 + label_decode_ttl l /\
      (i = 0%nat -> label_decode_ttl l = u8 (default Byte.x00 (label !! 3%nat))).
Proof.
  revert label data. induction n as [|n IH]; intros label data Hlabel i l Hi.
  - simpl in Hi. discriminate Hi.
  - destruct data as [|w0 [|w1 [|w2 rest]]]; try (simpl in Hi; discriminate Hi).
    cbn [label_stack] in Hi. destruct i as [|i].
    + simpl in Hi. inversion Hi; subst l. exists w0, w1, w2.
      destruct label as [|x0 [|x1 [|x2 [|x3 [|x4 label]]]]]; simpl in Hlabel; try lia.
      destruct (label_fields x0 x1 x2 x3 w0 w1 w2) as (Hdat & Hval & Hbos & Httl).
      repeat split; try assumption; try reflexivity;
        [rewrite Hdat, Httl; reflexivity|intros _; rewrite Httl; reflexivity].
    + simpl in Hi. destruct (ends_stack _); [simpl in Hi; discriminate Hi|].
      destruct (IH (load_label label w0 w1 w2) rest (load_label_length _ _ _ _ Hlabel) i l Hi)
        as (v0 & v1 & v2 & H0 & H1 & H2 & Hval & Hbos & Hdat & _).
      exists v0, v1, v2.
      replace (3 * S i)%nat with (S (S (S (3 * i)))) by lia.
      repeat split; try assumption; try discriminate.
Qed.

Lemma sentinel_bos (label : list u_char) :
  label_data label = 0x80000000 -> label_decode_bos label = 0.
Proof. unfold label_decode_bos. by intros ->. Qed.

(** X17. For a prefix whose declared bytes are present, the label loop
    consumes one label per three bytes while at least three of the declared
    bytes remain, appends the 20-bit value of each in wire order, goes on
    after a label only if neither its bottom-of-stack bit is set nor the
    union's 32-bit member [data] equals 0x80000000, and leaves with three or
    more bytes remaining only after a label for which one of the two holds.
    [data] is the three wire octets times 256 plus the union's low byte,
    which at the first label is the byte the union held before the loop; a
    [data] of 0x80000000 has its bottom-of-stack bit clear. *)
Theorem label_loop_stops (fuel : nat) (st : label_state) :
  0 <= lb_addr_bytes st <= Z.of_nat fuel ->
  lb_addr_bytes st <= Z.of_nat (length (lb_data st)) ->
  length (lb_label st) = 4%nat ->
  let ws := label_stack (Z.to_nat (lb_addr_bytes st / 3)) (lb_label st) (lb_data st) in
  let k := length ws in
  exists st' : label_state,
    label_loop fuel st = Done st' /\
    (3 <= lb_addr_bytes st -> (1 <= k)%nat) /\
    lb_addr_bytes st' = lb_addr_bytes st - 3 * Z.of_nat k /\
    0 <= lb_addr_bytes st' /\
    lb_data st' = drop (3 * k) (lb_data st) /\
    lb_read_size st' = lb_read_size st + 3 * Z.of_nat k /\
    field LIB_NLRI_LABELS (lb_nlri st') =
      field LIB_NLRI_LABELS (lb_nlri st) ++ map (fun l => decimal (label_decode_value l)) ws /\
    (forall (i : nat) (l : list u_char),
       ws !! i = Some l ->
       exists w0 w1 w2 : u_char,
         lb_data st !! (3 * i)%nat = Some w0 /\
         lb_data st !! (3 * i + 1)%nat = Some w1 /\
         lb_data st !! (3 * i + 2)%nat = Some w2 /\
         label_decode_value l = u8 w0 * 2 ^ 12 + u8 w1 * 2 ^ 4 + u8 w2 / 2 ^ 4 /\
         label_decode_bos l = u8 w2 mod 2 /\
         label_data l =
           u8 w0 * 2 ^ 24 + u8 w1 * 2 ^ 16 + u8 w2 * 2 ^ 8 + label_decode_ttl l /\
         (i = 0%nat -> label_decode_ttl l = u8 (default Byte.x00 (lb_label st !! 3%nat)))) /\
    (forall (i : nat) (l : list u_char),
       ws !! i = Some l -> (S i < k)%nat ->
       label_decode_bos l <> 1 /\ label_data l <> 0x80000000) /\
    (3 <= lb_addr_bytes st' ->
     exists l : list u_char,
       last ws = Some l /\ (label_decode_bos l = 1 \/ label_data l = 0x80000000)) /\
    (forall l : list u_char, label_data l = 0x80000000 -> label_decode_bos l = 0).
Proof.
  intros Hab Hdata Hlabel ws k.
  exists (after_labels st ws). split; [by apply label_loop_run|].
  destruct (after_labels_fields ws st) as (Hd & Hab' & Hrs & _ & Hlab & _ & _).
  fold k in Hd, Hab', Hrs.
  pose proof (Z.div_pos (lb_addr_bytes st) 3 ltac:(lia) ltac:(lia)) as Hq.
  pose proof (Z.mul_div_le (lb_addr_bytes st) 3 ltac:(lia)) as Hq3.
  destruct (label_stack_length (Z.to_nat (lb_addr_bytes st / 3)) (lb_label st) (lb_data st))
    as (Hk & Hk3 & Hk1).
  fold ws in Hk, Hk3, Hk1. fold k in Hk, Hk3, Hk1.
  destruct (label_stack_ends (Z.to_nat (lb_addr_bytes st / 3)) (lb_label st) (lb_data st))
    as (Hmid & Hlast).
  fold ws in Hmid, Hlast. fold k in Hmid, Hlast.
  assert (Hends : forall l, ends_stack l = true <->
                    label_decode_bos l = 1 \/ label_data l = 0x80000000).
  { intros l. unfold ends_stack. rewrite orb_true_iff, !Z.eqb_eq. reflexivity. }
  repeat match goal with |- _ /\ _ => split end.
  - intros H3. apply Hk1; [|lia].
    assert (1 <= lb_addr_bytes st / 3) by (apply Z.div_le_lower_bound; lia). lia.
  - exact Hab'.
  - lia.
  - exact Hd.
  - exact Hrs.
  - exact Hlab.
  - intros i l Hi. by apply (label_stack_wire _ _ _ Hlabel i l Hi).
  - intros i l Hi Hlt. specialize (Hmid i l Hi Hlt).
    split; intros Hc; assert (ends_stack l = true) as Ht by (apply Hends; auto); congruence.
  - intros H3. destruct Hlast as (l & Hl & He).
    + assert (Z.of_nat k + 1 <= lb_addr_bytes st / 3); [|lia].
      apply Z.div_le_lower_bound; lia.
    + lia.
    + exists l. split; [exact Hl|]. by apply Hends.
  - apply sentinel_bos.
Qed.

(** ** The next-hop attribute *)

(** Lines 146-148: the type and the name are assigned, the value is appended
    to whatever the attribute held. *)
Lemma set_next_hop_appends (ip_char : string) (m : gmap Z parse_bgp_lib_data) :
  attr_at LIB_ATTR_NEXT_HOP (set_next_hop ip_char m) =
  AttrData ATTR_TYPE_NEXT_HOP "nextHop"
    (attr_value (attr_at LIB_ATTR_NEXT_HOP m) ++ [ip_char]).
Proof.
  unfold set_next_hop, push_back_attr_value, assign_attr_name, set_official_type, attr_at.
  rewrite !lookup_insert_eq. reflexivity.
Qed.

Lemma set_next_hop_other (ip_char : string) (m : gmap Z parse_bgp_lib_data) (k : Z) :
  k <> LIB_ATTR_NEXT_HOP -> set_next_hop ip_char m !! k = m !! k.
Proof.
  intros Hk.
  unfold set_next_hop, push_back_attr_value, assign_attr_name, set_official_type.
  by rewrite !lookup_insert_ne.
Qed.

(** ** The prefix length after the label stack *)

(** Line 351 on an 8-bit counter: after [k >= 1] labels the recorded length is
    the combined length minus 24 k reduced modulo 256, which is the difference
    itself exactly when the combined length covers the labels. *)
Lemma prefix_len_after_labels (ws : list (list u_char)) (st : label_state) :
  0 <= lb_prefix_len st < 256 ->
  ws <> [] ->
  let k := Z.of_nat (length ws) in
  lb_prefix_len (after_labels st ws) = (lb_prefix_len st - 24 * k) mod 256 /\
  (lb_prefix_len (after_labels st ws) = lb_prefix_len st - 24 * k <->
   24 * k <= lb_prefix_len st).
Proof.
  intros Hpl Hws k.
  destruct (after_labels_fields ws st) as (_ & _ & _ & Hlen & _).
  assert (Hk : length ws <> 0%nat) by (destruct ws; [done|discriminate]).
  specialize (Hlen Hk). fold k in Hlen. unfold to_u_char in Hlen.
  split; [exact Hlen|]. rewrite Hlen.
  pose proof (Z.mod_pos_bound (lb_prefix_len st - 24 * k) 256 ltac:(lia)) as Hm.
  split.
  - intros E. lia.
  - intros Hle. apply Z.mod_small. lia.
Qed.

(** ** Decoding a synthetic unicast body *)

Lemma unicast_loop_routes (isIPv4 : bool) (len : Z) (ps : list unicast_route) :
  forall (fuel : nat) (st : loop_state) (extra : list u_char),
    Forall well_formed_route ps ->
    getAddpathCapability (afi (cur_nlri st)) (safi (cur_nlri st)) = false ->
    cur_data st = encode_unicast ps ++ extra ->
    len - cur_read_size st = Z.of_nat (length (encode_unicast ps)) ->
    Z.of_nat (length (encode_unicast ps)) <= Z.of_nat fuel ->
    exists (e : parse_bgp_lib_nlri),
      unicast_loop fuel isIPv4 len st =
        Done (Loop extra len e
                (cur_list st ++ decoded_routes isIPv4 (cur_nlri st) ps)).
Proof.
  induction ps as [|p ps IH]; intros fuel st extra Hwf Hcap Hdata Hlen Hfuel.
  - simpl in *. exists (cur_nlri st).
    assert (Hrs : cur_read_size st = len) by lia.
    destruct fuel; simpl;
      replace (cur_read_size st <? len) with false by (symmetry; apply Z.ltb_ge; lia);
      destruct st; simpl in *; subst; by rewrite app_nil_r.
  - inversion Hwf as [|? ? [Hp16 Hpn] Hwf']; subst.
    assert (Henc : encode_unicast (p :: ps) =
                   route_len p :: (route_addr p ++ encode_unicast ps)) by reflexivity.
    rewrite Henc in Hdata, Hlen, Hfuel. clear Henc.
    rewrite <- app_comm_cons, <- app_assoc in Hdata.
    cbn [length] in Hlen, Hfuel. rewrite length_app in Hlen, Hfuel.
    destruct fuel as [|fuel]; [lia|].
    cbn [unicast_loop].
    replace (cur_read_size st <? len) with true by (symmetry; apply Z.ltb_lt; lia).
    unfold unicast_body. rewrite parse_add_path_disabled by (left; exact Hcap).
    cbn [mbind outcome_mbind outcome_bind]. rewrite Hdata.
    rewrite unicast_prefix_run; [|lia|rewrite length_app; lia].
    cbn [mbind outcome_mbind outcome_bind cur_data cur_read_size cur_nlri cur_list].
    rewrite <- Hp16, Nat2Z.id.
    rewrite take_app_length, drop_app_length.
    fold (route_raw p). fold (decoded_route isIPv4 (cur_nlri st) p).
    edestruct (IH fuel
                 (Loop (encode_unicast ps ++ extra)
                    (cur_read_size st + Z.of_nat (length (route_addr p)) + 1)
                    (decoded_route isIPv4 (cur_nlri st) p)
                    (cur_list st ++ [decoded_route isIPv4 (cur_nlri st) p]))
                 extra) as [e He]; try assumption; try reflexivity.
    + cbn [cur_nlri cur_read_size]. lia.
    + lia.
    + exists e. rewrite He. cbn [cur_list cur_nlri decoded_routes].
      by rewrite <- app_assoc.
Qed.

(** Decoding an encoded body of well-formed routes, add-path disabled:
    one entry per route, each built on top of the one before. *)
Lemma unicast_round_trip (isIPv4 : bool) (ps : list unicast_route)
    (l : list parse_bgp_lib_nlri) :
  Forall well_formed_route ps ->
  Z.of_nat (length (encode_unicast ps)) < 65536 ->
  getAddpathCapability (if isIPv4 then BGP_AFI_IPV4 else BGP_AFI_IPV6) BGP_SAFI_UNICAST = false ->
  parseNlriData_IPv4IPv6 isIPv4 (Some (encode_unicast ps))
    (Z.of_nat (length (encode_unicast ps))) l =
  Done (l ++ decoded_routes isIPv4
               (Nlri (if isIPv4 then BGP_AFI_IPV4 else BGP_AFI_IPV6) BGP_SAFI_UNICAST
                  NLRI_TYPE_NONE ∅) ps).
Proof.
  intros Hwf _ Hcap. unfold parseNlriData_IPv4IPv6.
  destruct (Z.leb_spec (Z.of_nat (length (encode_unicast ps))) 0) as [Hz|Hpos].
  - destruct ps as [|p ps]; [by rewrite app_nil_r|].
    unfold encode_unicast in Hz. simpl in Hz. lia.
  - edestruct (unicast_loop_routes isIPv4 (Z.of_nat (length (encode_unicast ps))) ps
                 (Z.to_nat (Z.of_nat (length (encode_unicast ps))))
                 (Loop (encode_unicast ps) 0
                    (Nlri (if isIPv4 then BGP_AFI_IPV4 else BGP_AFI_IPV6) BGP_SAFI_UNICAST
                       NLRI_TYPE_NONE ∅) l) []) as [e He];
      try assumption; cbn [cur_data cur_read_size cur_nlri afi safi];
      try by rewrite ?app_nil_r.
    + lia.
    + lia.
    + rewrite He. reflexivity.
Qed.

Lemma decoded_routes_length (isIPv4 : bool) (e : parse_bgp_lib_nlri) (ps : list unicast_route) :
  length (decoded_routes isIPv4 e ps) = length ps.
Proof.
  revert e. induction ps as [|p ps IH]; intros e; simpl; [reflexivity|]. by rewrite IH.
Qed.

(** The [i]-th entry holds the fields of the routes 0..i, not of route [i] alone. *)
Lemma decoded_routes_fields (isIPv4 : bool) (ps : list unicast_route) :
  forall (e : parse_bgp_lib_nlri) (i : nat) (ei : parse_bgp_lib_nlri),
    decoded_routes isIPv4 e ps !! i = Some ei ->
    field LIB_NLRI_PATH_ID ei =
      field LIB_NLRI_PATH_ID e ++ replicate (S i) "0"%string /\
    field LIB_NLRI_PREFIX_LENGTH ei =
      field LIB_NLRI_PREFIX_LENGTH e ++
      map (fun p => decimal (u8 (route_len p))) (take (S i) ps) /\
    field LIB_NLRI_PREFIX ei =
      field LIB_NLRI_PREFIX e ++
      map (fun p => inet_ntop isIPv4 (route_raw p)) (take (S i) ps) /\
    field LIB_NLRI_PREFIX_BIN ei =
      field LIB_NLRI_PREFIX_BIN e ++
      map (fun p => binary_string (take 4 (route_raw p))) (take (S i) ps).
Proof.
  induction ps as [|p ps IH]; intros e i ei Hi; [simpl in Hi; discriminate Hi|].
  assert (Hone :
    field LIB_NLRI_PATH_ID (decoded_route isIPv4 e p) =
      field LIB_NLRI_PATH_ID e ++ ["0"%string] /\
    field LIB_NLRI_PREFIX_LENGTH (decoded_route isIPv4 e p) =
      field LIB_NLRI_PREFIX_LENGTH e ++ [decimal (u8 (route_len p))] /\
    field LIB_NLRI_PREFIX (decoded_route isIPv4 e p) =
      field LIB_NLRI_PREFIX e ++ [inet_ntop isIPv4 (route_raw p)] /\
    field LIB_NLRI_PREFIX_BIN (decoded_route isIPv4 e p) =
      field LIB_NLRI_PREFIX_BIN e ++ [binary_string (take 4 (route_raw p))]).
  { unfold decoded_route. repeat split.
    - by rewrite !field_push_ne, field_push_eq by discriminate.
    - by rewrite !field_push_ne, field_push_eq, field_push_ne by discriminate.
    - by rewrite field_push_ne, field_push_eq, !field_push_ne by discriminate.
    - by rewrite field_push_eq, !field_push_ne by discriminate. }
  destruct Hone as (H1 & H2 & H3 & H4).
  destruct i as [|i]; cbn [decoded_routes] in Hi; simpl in Hi.
  - inversion Hi; subst ei. cbn [take map replicate]. repeat split; assumption.
  - destruct (IH _ _ _ Hi) as (G1 & G2 & G3 & G4).
    rewrite G1, G2, G3, G4, H1, H2, H3, H4.
    cbn [take map replicate]. rewrite <- !app_assoc. repeat split; reflexivity.
Qed.

(** * Further properties of the decoder *)

(** ** The header and the dispatch *)

Lemma header_run (attr_len : Z) (a0 a1 s n : u_char) (nh : list u_char) (rsv : u_char)
    (body : list u_char) (update : parsed_update) :
  length nh = Z.to_nat (u8 n) ->
  INT_MIN <= attr_len - (5 + u8 n) ->
  attr_len <= INT_MAX ->
  parseReachNlriAttr attr_len (a0 :: a1 :: s :: n :: nh ++ rsv :: body) update =
  if attr_len - (5 + u8 n) <? 0 then Done update
  else parseAfi
         (MpReach (u8 a0 * 256 + u8 a1) (u8 s) (u8 n) (nh ++ rsv :: body) (u8 rsv) body
            (attr_len - (5 + u8 n)))
         update.
Proof.
  intros Hnh Hlo Hhi. pose proof (u8_range n) as Hn.
  unfold INT_MIN, INT_MAX in Hlo, Hhi.
  unfold parseReachNlriAttr.
  rewrite memcpy_done by (simpl length; lia).
  rewrite advance_done by (simpl length; lia).
  change (drop (Z.to_nat 2) (a0 :: a1 :: s :: n :: nh ++ rsv :: body))
    with (s :: n :: nh ++ rsv :: body).
  change (take (Z.to_nat 2) (a0 :: a1 :: s :: n :: nh ++ rsv :: body) ++
          drop (Z.to_nat 2) (bzero 2)) with [a0; a1].
  cbn [mbind outcome_mbind outcome_bind read_u8].
  rewrite (int_sub_in_range attr_len 2) by (unfold INT_MIN, INT_MAX; lia).
  cbn [mbind outcome_mbind outcome_bind].
  rewrite (int_sub_in_range (attr_len - 2) 1) by (unfold INT_MIN, INT_MAX; lia).
  cbn [mbind outcome_mbind outcome_bind].
  rewrite (int_sub_in_range (attr_len - 2 - 1) 1) by (unfold INT_MIN, INT_MAX; lia).
  cbn [mbind outcome_mbind outcome_bind].
  rewrite (advance_done (u8 n) (nh ++ rsv :: body))
    by (rewrite length_app; simpl length; lia).
  cbn [mbind outcome_mbind outcome_bind].
  rewrite (int_sub_in_range (attr_len - 2 - 1 - 1) (u8 n)) by (unfold INT_MIN, INT_MAX; lia).
  cbn [mbind outcome_mbind outcome_bind].
  rewrite <- Hnh, drop_app_length.
  cbn [mbind outcome_mbind outcome_bind read_u8].
  rewrite (int_sub_in_range (attr_len - 2 - 1 - 1 - u8 n) 1) by (unfold INT_MIN, INT_MAX; lia).
  cbn [mbind outcome_mbind outcome_bind].
  replace (attr_len - 2 - 1 - 1 - u8 n - 1) with (attr_len - (5 + u8 n)) by lia.
  replace (host_value (SWAP_BYTES [a0; a1])) with (u8 a0 * 256 + u8 a1)
    by (unfold host_value, SWAP_BYTES; simpl; lia).
  reflexivity.
Qed.

Lemma parseAfi_family (nlri : mp_reach_nlri) (update : parsed_update) :
  parseAfi nlri update =
  match family_flag (mp_afi nlri) with
  | Some isIPv4 => parseAfi_IPv4IPv6 isIPv4 nlri update
  | None => Done update
  end.
Proof.
  unfold parseAfi, family_flag.
  destruct (mp_afi nlri =? BGP_AFI_IPV6); [reflexivity|].
  destruct (mp_afi nlri =? BGP_AFI_IPV4); [reflexivity|].
  destruct (mp_afi nlri =? BGP_AFI_BGPLS); reflexivity.
Qed.

(** X1. For a payload that holds its header and a declared length that covers
    it, the decode is the dispatch on these header fields: the AFI is bytes
    0-1 most significant first, the SAFI byte 2, the next-hop length byte 3,
    the next hop starts at byte 4, the byte after the next hop is the
    reserved octet, the NLRI span is what follows it and its length is the
    declared length minus 5 and the next-hop length. *)
Theorem header_fields (attr_len : Z) (a0 a1 s n : u_char) (nh : list u_char) (rsv : u_char)
    (body : list u_char) (update : parsed_update) :
  length nh = Z.to_nat (u8 n) ->
  0 <= attr_len - (5 + u8 n) ->
  attr_len <= INT_MAX ->
  parseReachNlriAttr attr_len (a0 :: a1 :: s :: n :: nh ++ rsv :: body) update =
  parseAfi
    (MpReach (u8 a0 * 256 + u8 a1) (u8 s) (u8 n) (nh ++ rsv :: body) (u8 rsv) body
       (attr_len - (5 + u8 n)))
    update.
Proof.
  intros Hnh Hlen Hhi.
  rewrite header_run by (try assumption; unfold INT_MIN; lia).
  replace (attr_len - (5 + u8 n) <? 0) with false by (symmetry; apply Z.ltb_ge; lia).
  reflexivity.
Qed.

(** X2. An attribute whose AFI is neither IPv4 nor IPv6 (BGP-LS included), or
    whose SAFI is neither unicast nor labeled unicast, is skipped: the decode
    returns the caller's update as it was, without a next hop and without an
    entry. *)
Theorem unsupported_family_is_skipped (attr_len : Z) (a0 a1 s n : u_char) (nh : list u_char)
    (rsv : u_char) (body : list u_char) (update : parsed_update) :
  length nh = Z.to_nat (u8 n) ->
  INT_MIN <= attr_len - (5 + u8 n) ->
  attr_len <= INT_MAX ->
  family_flag (u8 a0 * 256 + u8 a1) = None \/
  (u8 s <> BGP_SAFI_UNICAST /\ u8 s <> BGP_SAFI_NLRI_LABEL) ->
  parseReachNlriAttr attr_len (a0 :: a1 :: s :: n :: nh ++ rsv :: body) update = Done update.
Proof.
  intros Hnh Hlo Hhi Hskip. rewrite header_run by assumption.
  destruct (attr_len - (5 + u8 n) <? 0); [reflexivity|].
  rewrite parseAfi_family. cbn [mp_afi].
  destruct Hskip as [-> | [Hu Hl]]; [reflexivity|].
  destruct (family_flag _) as [isIPv4|]; [|reflexivity].
  unfold parseAfi_IPv4IPv6. cbn [mp_safi].
  destruct (Z.eqb_spec (u8 s) BGP_SAFI_UNICAST) as [E|_]; [contradiction|].
  destruct (Z.eqb_spec (u8 s) BGP_SAFI_NLRI_LABEL) as [E|_]; [contradiction|].
  reflexivity.
Qed.

(** ** What every appended entry satisfies *)

Lemma unicast_loop_entries (Q : parse_bgp_lib_nlri -> Prop) (isIPv4 : bool) (len : Z) :
  (forall st st', Q (cur_nlri st) -> unicast_body isIPv4 len st = Done st' -> Q (cur_nlri st')) ->
  forall (fuel : nat) (st st' : loop_state),
    Q (cur_nlri st) ->
    unicast_loop fuel isIPv4 len st = Done st' ->
    exists new : list parse_bgp_lib_nlri, cur_list st' = cur_list st ++ new /\ Forall Q new.
Proof.
  intros Hstep fuel. induction fuel as [|fuel IH]; intros st st' HQ; simpl.
  - destruct (cur_read_size st <? len); [discriminate|].
    inversion 1; subst. exists []. by rewrite app_nil_r.
  - destruct (cur_read_size st <? len).
    + intros H. bind_inv H.
      pose proof (Hstep _ _ HQ E) as HQ'.
      apply unicast_body_appends in E as (Hl & _).
      apply IH in H as (new & Hnew & Hall); [|exact HQ'].
      cbn [cur_list] in Hnew. exists (cur_nlri a :: new). split.
      * rewrite Hnew, Hl, <- app_assoc. reflexivity.
      * by constructor.
    + inversion 1; subst. exists []. by rewrite app_nil_r.
Qed.

Lemma labeled_loop_entries (Q : parse_bgp_lib_nlri -> Prop) (isIPv4 : bool)
    (len parsed_bytes : Z) :
  (forall st st', Q (cur_nlri st) ->
     labeled_body isIPv4 len parsed_bytes st = Done (Continue st') -> Q (cur_nlri st')) ->
  forall (fuel : nat) (st st' : loop_state),
    Q (cur_nlri st) ->
    labeled_loop fuel isIPv4 len parsed_bytes st = Done st' ->
    exists new : list parse_bgp_lib_nlri, cur_list st' = cur_list st ++ new /\ Forall Q new.
Proof.
  intros Hstep fuel. induction fuel as [|fuel IH]; intros st st' HQ; simpl.
  - destruct (cur_read_size st <? len); [discriminate|].
    inversion 1; subst. exists []. by rewrite app_nil_r.
  - destruct (cur_read_size st <? len).
    + intros H. bind_inv H. destruct a as [st1|st1].
      * pose proof (Hstep _ _ HQ E) as HQ'.
        apply labeled_body_appends in E as (Hl & _).
        apply IH in H as (new & Hnew & Hall); [|exact HQ'].
        cbn [cur_list] in Hnew. exists (cur_nlri st1 :: new). split.
        -- rewrite Hnew, Hl, <- app_assoc. reflexivity.
        -- by constructor.
      * inversion H; subst. apply labeled_body_break in E as [-> _].
        exists []. by rewrite app_nil_r.
    + inversion 1; subst. exists []. by rewrite app_nil_r.
Qed.

Lemma parseNlriData_IPv4IPv6_entries (Q : parse_bgp_lib_nlri -> Prop) (isIPv4 : bool)
    (data : option (list u_char)) (len : Z) (l l' : list parse_bgp_lib_nlri) :
  (forall st st', Q (cur_nlri st) -> unicast_body isIPv4 len st = Done st' -> Q (cur_nlri st')) ->
  Q (fresh_entry isIPv4 BGP_SAFI_UNICAST) ->
  parseNlriData_IPv4IPv6 isIPv4 data len l = Done l' ->
  exists new : list parse_bgp_lib_nlri, l' = l ++ new /\ Forall Q new.
Proof.
  intros Hstep HQ H. unfold parseNlriData_IPv4IPv6 in H.
  destruct data as [data|]; [|inversion H; subst; exists []; by rewrite app_nil_r].
  destruct (len <=? 0); [inversion H; subst; exists []; by rewrite app_nil_r|].
  bind_inv H. inversion H; subst.
  eapply unicast_loop_entries in E; [exact E|exact Hstep|exact HQ].
Qed.

Lemma parseNlriData_LabelIPv4IPv6_entries (Q : parse_bgp_lib_nlri -> Prop) (isIPv4 : bool)
    (data : option (list u_char)) (len : Z) (l l' : list parse_bgp_lib_nlri) :
  (forall st st', Q (cur_nlri st) ->
     labeled_body isIPv4 len 0 st = Done (Continue st') -> Q (cur_nlri st')) ->
  Q (fresh_entry isIPv4 BGP_SAFI_NLRI_LABEL) ->
  parseNlriData_LabelIPv4IPv6 isIPv4 data len l = Done l' ->
  exists new : list parse_bgp_lib_nlri, l' = l ++ new /\ Forall Q new.
Proof.
  intros Hstep HQ H. unfold parseNlriData_LabelIPv4IPv6 in H.
  destruct data as [data|]; [|inversion H; subst; exists []; by rewrite app_nil_r].
  destruct (len <=? 0); [inversion H; subst; exists []; by rewrite app_nil_r|].
  bind_inv H. inversion H; subst.
  eapply labeled_loop_entries in E; [exact E|exact Hstep|exact HQ].
Qed.

(** The working entry after one iteration of the unicast loop. *)
Lemma unicast_body_entry (isIPv4 : bool) (len : Z) (st st' : loop_state) :
  unicast_body isIPv4 len st = Done st' ->
  exists (path_id prefix_len : Z) (ip_raw : list u_char),
    length ip_raw = 16%nat /\
    cur_nlri st' =
      nlri_push LIB_NLRI_PREFIX_BIN (binary_string (take 4 ip_raw))
        (nlri_push LIB_NLRI_PREFIX (inet_ntop isIPv4 ip_raw)
           (nlri_push LIB_NLRI_PREFIX_LENGTH (decimal prefix_len)
              (nlri_push LIB_NLRI_PATH_ID (decimal path_id) (cur_nlri st)))).
Proof.
  unfold unicast_body. intros H. bind_inv H.
  unfold unicast_prefix in H. bind_inv H. inversion H; subst; clear H.
  match goal with
  | E : read_u8 _ = Done _ |- _ => apply read_u8_done in E as [Hpl _]
  end.
  match goal with
  | E : memcpy _ _ _ = Done ?r |- _ => apply memcpy_inv in E as (Hs & Hd & Hr)
  end.
  eexists _, _, _. split; [|reflexivity].
  pose proof (addr_bytes_nonneg _ Hpl) as [Hab _].
  rewrite Hr. unfold bzero in *. rewrite length_replicate in Hd.
  rewrite length_app, length_take, length_drop, length_replicate. lia.
Qed.

(** The working entry after the label loop: as many values are added under
    the label key as under the prefix-length key, nothing else changes. *)
Lemma label_loop_entry (fuel : nat) (st st' : label_state) :
  label_loop fuel st = Done st' ->
  afi (lb_nlri st') = afi (lb_nlri st) /\
  safi (lb_nlri st') = safi (lb_nlri st) /\
  type (lb_nlri st') = type (lb_nlri st) /\
  (forall key, key <> LIB_NLRI_LABELS -> key <> LIB_NLRI_PREFIX_LENGTH ->
     field key (lb_nlri st') = field key (lb_nlri st)) /\
  exists labels lengths : list string,
    length labels = length lengths /\
    field LIB_NLRI_LABELS (lb_nlri st') = field LIB_NLRI_LABELS (lb_nlri st) ++ labels /\
    field LIB_NLRI_PREFIX_LENGTH (lb_nlri st') =
      field LIB_NLRI_PREFIX_LENGTH (lb_nlri st) ++ lengths.
Proof.
  revert st. induction fuel as [|fuel IH]; intros st; simpl.
  - destruct (3 <=? lb_addr_bytes st); [discriminate|].
    inversion 1; subst. repeat split; try reflexivity.
    exists [], []. by rewrite !app_nil_r.
  - destruct (3 <=? lb_addr_bytes st).
    + intros H. bind_inv H.
      set (e1 := nlri_push LIB_NLRI_LABELS (decimal (label_decode_value (SWAP_BYTES a)))
                   (nlri_push LIB_NLRI_PREFIX_LENGTH
                      (decimal (to_u_char (lb_prefix_len st - 24))) (lb_nlri st))) in *.
      assert (Hother : forall key, key <> LIB_NLRI_LABELS -> key <> LIB_NLRI_PREFIX_LENGTH ->
                field key e1 = field key (lb_nlri st)).
      { intros key H1 H2. subst e1. by rewrite !field_push_ne. }
      assert (Hlab : field LIB_NLRI_LABELS e1 =
                field LIB_NLRI_LABELS (lb_nlri st) ++
                [decimal (label_decode_value (SWAP_BYTES a))]).
      { subst e1. by rewrite field_push_eq, field_push_ne. }
      assert (Hlen : field LIB_NLRI_PREFIX_LENGTH e1 =
                field LIB_NLRI_PREFIX_LENGTH (lb_nlri st) ++
                [decimal (to_u_char (lb_prefix_len st - 24))]).
      { subst e1. by rewrite field_push_ne, field_push_eq. }
      destruct (_ || _).
      * inversion H; subst; clear H. cbn [lb_nlri]. repeat split; try reflexivity.
        -- exact Hother.
        -- exists [decimal (label_decode_value (SWAP_BYTES a))],
             [decimal (to_u_char (lb_prefix_len st - 24))].
           split; [reflexivity|]. split; [exact Hlab|exact Hlen].
      * apply IH in H as (Ha & Hs & Ht & Hoth & labels & lengths & Hll & Hl1 & Hl2).
        cbn [lb_nlri] in *. repeat split; try assumption.
        -- intros key H1 H2. rewrite Hoth by assumption. by apply Hother.
        -- exists (decimal (label_decode_value (SWAP_BYTES a)) :: labels),
             (decimal (to_u_char (lb_prefix_len st - 24)) :: lengths).
           split; [simpl; by rewrite Hll|].
           rewrite Hl1, Hl2, Hlab, Hlen, <- !app_assoc. split; reflexivity.
    + inversion 1; subst. repeat split; try reflexivity.
      exists [], []. by rewrite !app_nil_r.
Qed.

(** The working entry after one iteration of the labeled loop. *)
Lemma labeled_body_entry (isIPv4 : bool) (len parsed_bytes : Z) (st st' : loop_state) :
  labeled_body isIPv4 len parsed_bytes st = Done (Continue st') ->
  exists (path_id : Z) (ip_raw : list u_char) (labels lengths : list string),
    length ip_raw = 16%nat /\
    length labels = length lengths /\
    afi (cur_nlri st') = afi (cur_nlri st) /\
    safi (cur_nlri st') = safi (cur_nlri st) /\
    type (cur_nlri st') = type (cur_nlri st) /\
    field LIB_NLRI_PATH_ID (cur_nlri st') =
      field LIB_NLRI_PATH_ID (cur_nlri st) ++ [decimal path_id] /\
    field LIB_NLRI_PREFIX (cur_nlri st') =
      field LIB_NLRI_PREFIX (cur_nlri st) ++ [inet_ntop isIPv4 ip_raw] /\
    field LIB_NLRI_PREFIX_BIN (cur_nlri st') =
      field LIB_NLRI_PREFIX_BIN (cur_nlri st) ++ [binary_string (take 4 ip_raw)] /\
    field LIB_NLRI_LABELS (cur_nlri st') = field LIB_NLRI_LABELS (cur_nlri st) ++ labels /\
    field LIB_NLRI_PREFIX_LENGTH (cur_nlri st') =
      field LIB_NLRI_PREFIX_LENGTH (cur_nlri st) ++ lengths.
Proof.
  unfold labeled_body. intros H. bind_inv H.
  unfold labeled_prefix in H. destruct (parsed_bytes =? len); [discriminate|].
  bind_inv H. inversion H; subst; clear H.
  match goal with
  | E : read_u8 _ = Done _ |- _ => apply read_u8_done in E as [Hpl _]
  end.
  pose proof (addr_bytes_nonneg _ Hpl) as [_ Hab].
  match goal with
  | E : label_loop _ _ = Done _ |- _ => rename E into Hloop
  end.
  pose proof Hloop as Hprog. apply label_loop_progress in Hprog as (Hab' & _ & _);
    [|exact Hab].
  apply label_loop_entry in Hloop
    as (Ha & Hs & Ht & Hoth & labels & lengths & Hll & Hl1 & Hl2).
  match goal with
  | E : memcpy _ _ _ = Done ?r |- _ =>
      apply memcpy_inv in E as (Hsrc & Hd & Hr); set (raw := r) in *
  end.
  cbn [lb_nlri] in *.
  eexists _, raw, labels, lengths. cbn [cur_nlri].
  split; [|split; [exact Hll|]].
  { rewrite Hr. unfold bzero in *. rewrite length_replicate in Hd.
    rewrite length_app, length_take, length_drop, length_replicate. lia. }
  cbn [afi safi type nlri_push]. cbn [afi safi type nlri_push] in Ha, Hs, Ht.
  split; [exact Ha|]. split; [exact Hs|]. split; [exact Ht|].
  split.
  { rewrite 2!field_push_ne by done. rewrite (Hoth LIB_NLRI_PATH_ID) by done.
    by rewrite field_push_eq. }
  split.
  { rewrite field_push_ne by done. rewrite field_push_eq.
    rewrite (Hoth LIB_NLRI_PREFIX) by done. by rewrite field_push_ne. }
  split.
  { rewrite field_push_eq. rewrite field_push_ne by done.
    rewrite (Hoth LIB_NLRI_PREFIX_BIN) by done. by rewrite field_push_ne. }
  split.
  { rewrite 2!field_push_ne by done. rewrite Hl1. by rewrite field_push_ne. }
  rewrite 2!field_push_ne by done. rewrite Hl2. by rewrite field_push_ne.
Qed.

Lemma binary_string_length (raw : list u_char) :
  String.length (binary_string raw) = length raw.
Proof.
  induction raw as [|b raw IH]; [reflexivity|].
  change (binary_string (b :: raw)) with (String (ascii_of_byte b) (binary_string raw)).
  change (String.length (String (ascii_of_byte b) (binary_string raw)))
    with (S (String.length (binary_string raw))).
  by rewrite IH.
Qed.

Lemma binary_prefix_length (ip_raw : list u_char) :
  length ip_raw = 16%nat -> String.length (binary_string (take 4 ip_raw)) = 4%nat.
Proof.
  intros H. rewrite binary_string_length, length_take. lia.
Qed.

(** X3. Both NLRI decoders only append: a completed call returns the
    caller's list followed by new entries, and every new entry carries the
    address family chosen by the flag, the SAFI of its decoder and the type
    NLRI_TYPE_NONE. *)
Theorem appended_entries_are_tagged (isIPv4 : bool) (data : option (list u_char)) (len : Z)
    (l l' : list parse_bgp_lib_nlri) :
  (parseNlriData_IPv4IPv6 isIPv4 data len l = Done l' ->
   exists new : list parse_bgp_lib_nlri,
     l' = l ++ new /\
     Forall (fun e => afi e = (if isIPv4 then BGP_AFI_IPV4 else BGP_AFI_IPV6) /\
                      safi e = BGP_SAFI_UNICAST /\ type e = NLRI_TYPE_NONE) new) /\
  (parseNlriData_LabelIPv4IPv6 isIPv4 data len l = Done l' ->
   exists new : list parse_bgp_lib_nlri,
     l' = l ++ new /\
     Forall (fun e => afi e = (if isIPv4 then BGP_AFI_IPV4 else BGP_AFI_IPV6) /\
                      safi e = BGP_SAFI_NLRI_LABEL /\ type e = NLRI_TYPE_NONE) new).
Proof.
  split; intros H.
  - eapply parseNlriData_IPv4IPv6_entries; [| |exact H].
    + intros st st' HQ Hbody.
      apply unicast_body_entry in Hbody as (pid & pl & raw & _ & ->). exact HQ.
    + repeat split.
  - eapply parseNlriData_LabelIPv4IPv6_entries; [| |exact H].
    + intros st st' (Ha & Hs & Ht) Hbody.
      apply labeled_body_entry in Hbody
        as (pid & raw & labels & lengths & _ & _ & Ha' & Hs' & Ht' & _).
      rewrite Ha', Hs', Ht'. by repeat split.
    + repeat split.
Qed.

(** X4. Every binary prefix stored in an entry that either NLRI decoder
    appends is exactly four characters long, for IPv6 as for IPv4: lines 258
    and 380 keep the first four bytes of the 16-byte buffer. *)
Theorem binary_prefix_is_four_bytes (isIPv4 : bool) (data : option (list u_char)) (len : Z)
    (l l' : list parse_bgp_lib_nlri) :
  parseNlriData_IPv4IPv6 isIPv4 data len l = Done l' \/
  parseNlriData_LabelIPv4IPv6 isIPv4 data len l = Done l' ->
  exists new : list parse_bgp_lib_nlri,
    l' = l ++ new /\
    Forall (fun e => Forall (fun s => String.length s = 4%nat) (field LIB_NLRI_PREFIX_BIN e))
      new.
Proof.
  intros [H|H].
  - eapply parseNlriData_IPv4IPv6_entries; [| |exact H].
    + intros st st' HQ Hbody.
      apply unicast_body_entry in Hbody as (pid & pl & raw & Hraw & ->).
      rewrite field_push_eq, !field_push_ne by done.
      apply Forall_app. split; [exact HQ|].
      constructor; [by apply binary_prefix_length|constructor].
    + constructor.
  - eapply parseNlriData_LabelIPv4IPv6_entries; [| |exact H].
    + intros st st' HQ Hbody.
      apply labeled_body_entry in Hbody
        as (pid & raw & labels & lengths & Hraw & _ & _ & _ & _ & _ & _ & Hbin & _).
      rewrite Hbin. apply Forall_app. split; [exact HQ|].
      constructor; [by apply binary_prefix_length|constructor].
    + constructor.
Qed.

(** X5. The unicast decoder never writes a label and records one prefix
    length per path identifier.  The labeled decoder records a prefix length
    inside the label loop, once per label consumed and not once per prefix:
    in each of its entries the label list and the prefix-length list have the
    same length. *)
Theorem prefix_lengths_follow_labels (isIPv4 : bool) (data : option (list u_char)) (len : Z)
    (l l' : list parse_bgp_lib_nlri) :
  (parseNlriData_IPv4IPv6 isIPv4 data len l = Done l' ->
   exists new : list parse_bgp_lib_nlri,
     l' = l ++ new /\
     Forall (fun e => field LIB_NLRI_LABELS e = [] /\
                      length (field LIB_NLRI_PREFIX_LENGTH e) =
                      length (field LIB_NLRI_PATH_ID e)) new) /\
  (parseNlriData_LabelIPv4IPv6 isIPv4 data len l = Done l' ->
   exists new : list parse_bgp_lib_nlri,
     l' = l ++ new /\
     Forall (fun e => length (field LIB_NLRI_PREFIX_LENGTH e) =
                      length (field LIB_NLRI_LABELS e)) new).
Proof.
  split; intros H.
  - eapply parseNlriData_IPv4IPv6_entries; [| |exact H].
    + intros st st' [Hlab Hlen] Hbody.
      apply unicast_body_entry in Hbody as (pid & pl & raw & _ & ->). split.
      * by rewrite !field_push_ne.
      * rewrite 2!field_push_ne by done. rewrite field_push_eq, field_push_ne by done.
        rewrite 3!field_push_ne by done. rewrite field_push_eq.
        rewrite !length_app, Hlen. reflexivity.
    + split; reflexivity.
  - eapply parseNlriData_LabelIPv4IPv6_entries; [| |exact H].
    + intros st st' HQ Hbody.
      apply labeled_body_entry in Hbody
        as (pid & raw & labels & lengths & _ & Hll & _ & _ & _ & _ & _ & _ & Hlab & Hlen).
      rewrite Hlab, Hlen, !length_app, HQ, Hll. reflexivity.
    + reflexivity.
Qed.

(** X6. A completed decode of an attribute keeps what the caller's update
    held: its NLRI entries, in order, at the front of the list, and every
    attribute other than the next hop; the attribute map is either untouched
    or the caller's with one next-hop value set. *)
Theorem decode_keeps_the_update (attr_len : Z) (data : list u_char) (update u' : parsed_update) :
  parseReachNlriAttr attr_len data update = Done u' ->
  (exists new : list parse_bgp_lib_nlri, nlri_list u' = nlri_list update ++ new) /\
  (forall k : Z, k <> LIB_ATTR_NEXT_HOP -> attrs u' !! k = attrs update !! k) /\
  (attrs u' = attrs update \/
   exists ip_char : string, attrs u' = set_next_hop ip_char (attrs update)).
Proof.
  intros H. unfold parseReachNlriAttr in H. bind_inv H.
  assert (Hsame : forall u : parsed_update,
            (exists new : list parse_bgp_lib_nlri, nlri_list u = nlri_list u ++ new) /\
            (forall k : Z, k <> LIB_ATTR_NEXT_HOP -> attrs u !! k = attrs u !! k) /\
            (attrs u = attrs u \/
             exists ip_char : string, attrs u = set_next_hop ip_char (attrs u))).
  { intros u. split; [exists []; by rewrite app_nil_r|]. split; [done|by left]. }
  match type of H with
  | (if ?c then _ else _) = _ => destruct c
  end; [inversion H; subst; apply Hsame|].
  rewrite parseAfi_family in H.
  destruct (family_flag _) as [isIPv4|]; [|inversion H; subst; apply Hsame].
  unfold parseAfi_IPv4IPv6 in H. cbn [mp_safi mp_nlri_data mp_nlri_len] in H.
  match type of H with
  | (if ?c then _ else _) = _ => destruct c
  end.
  - bind_inv H. inversion H; subst; clear H. cbn [attrs nlri_list].
    match goal with
    | E : parseNlriData_IPv4IPv6 _ _ _ _ = Done _ |- _ =>
        apply (parseNlriData_IPv4IPv6_entries (fun _ => True)) in E as (new & -> & _);
          [|done|done]
    end.
    split; [by exists new|]. split; [intros k Hk; by apply set_next_hop_other|].
    right. by eexists.
  - match type of H with
    | (if ?c then _ else _) = _ => destruct c
    end; [|inversion H; subst; apply Hsame].
    bind_inv H. inversion H; subst; clear H. cbn [attrs nlri_list].
    match goal with
    | E : parseNlriData_LabelIPv4IPv6 _ _ _ _ = Done _ |- _ =>
        apply (parseNlriData_LabelIPv4IPv6_entries (fun _ => True)) in E as (new & -> & _);
          [|done|done]
    end.
    split; [by exists new|]. split; [intros k Hk; by apply set_next_hop_other|].
    right. by eexists.
Qed.

(** ** The cursor and [read_size] *)

Lemma drop_drop_Z (a b : Z) (data : list u_char) :
  0 <= a -> 0 <= b ->
  drop (Z.to_nat a) (drop (Z.to_nat b) data) = drop (Z.to_nat (b + a)) data.
Proof.
  intros Ha Hb. rewrite drop_drop. f_equal. lia.
Qed.

Lemma parse_add_path_consumes (afi safi len : Z) (data : list u_char) (read_size : Z)
    (path_id : Z) (data' : list u_char) (read_size' : Z) :
  parse_add_path afi safi len data read_size = Done (path_id, data', read_size') ->
  0 <= read_size' - read_size <= 4 /\
  data' = drop (Z.to_nat (read_size' - read_size)) data.
Proof.
  unfold parse_add_path. destruct (_ && _).
  - intros H. bind_inv H. inversion H; subst.
    match goal with
    | E : advance _ _ = Done _ |- _ => apply advance_inv in E as [_ ->]
    end.
    split; [lia|]. f_equal. lia.
  - intros H. inversion H; subst. split; [lia|].
    replace (read_size' - read_size') with 0 by lia. reflexivity.
Qed.

Lemma unicast_body_consumes (isIPv4 : bool) (len : Z) (st st' : loop_state) :
  unicast_body isIPv4 len st = Done st' ->
  let d := cur_read_size st' + 1 - cur_read_size st in
  1 <= d <= 21 /\ cur_data st' = drop (Z.to_nat d) (cur_data st).
Proof.
  unfold unicast_body. intros H. bind_inv H.
  match goal with
  | E : parse_add_path _ _ _ _ _ = Done _ |- _ =>
      apply parse_add_path_consumes in E as (Hpid & Hdata)
  end.
  unfold unicast_prefix in H. bind_inv H. inversion H; subst; clear H.
  cbn [cur_read_size cur_data].
  match goal with
  | E : read_u8 ?d = Done (?v, ?r) |- _ =>
      pose proof (read_u8_done _ _ _ E) as [Hpl _];
      assert (Hr : r = drop (Z.to_nat 1) d) by (destruct d; [discriminate|by inversion E])
  end.
  pose proof (addr_bytes_nonneg _ Hpl) as [Hab _].
  match goal with
  | E : memcpy _ _ _ = Done _ |- _ => apply memcpy_inv in E as (_ & Hfit & _)
  end.
  unfold bzero in Hfit. rewrite length_replicate in Hfit.
  match goal with
  | E : advance _ _ = Done _ |- _ => apply advance_inv in E as [_ ->]
  end.
  split; [lia|].
  rewrite Hr, !drop_drop_Z by lia. f_equal. lia.
Qed.

Lemma label_loop_consumes (fuel : nat) (st st' : label_state) :
  0 <= lb_addr_bytes st ->
  label_loop fuel st = Done st' ->
  exists c : Z,
    0 <= c /\
    lb_addr_bytes st' = lb_addr_bytes st - c /\
    0 <= lb_addr_bytes st' /\
    lb_read_size st' = lb_read_size st + c /\
    lb_data st' = drop (Z.to_nat c) (lb_data st).
Proof.
  revert st. induction fuel as [|fuel IH]; intros st Hab; simpl.
  - destruct (3 <=? lb_addr_bytes st); [discriminate|].
    inversion 1; subst. exists 0. repeat split; lia.
  - destruct (Z.leb_spec 3 (lb_addr_bytes st)) as [Hge|Hlt].
    + intros H. bind_inv H.
      match goal with
      | E : advance _ _ = Done _ |- _ => apply advance_inv in E as [_ ->]
      end.
      destruct (_ || _).
      * inversion H; subst; clear H. exists 3. cbn. repeat split; lia.
      * apply IH in H as (c & Hc & Hab' & Hpos & Hrs & Hd); [|cbn; lia].
        cbn in Hab', Hrs, Hd. exists (3 + c). repeat split; try lia.
        rewrite Hd, drop_drop_Z by lia. reflexivity.
    + inversion 1; subst. exists 0. repeat split; lia.
Qed.

Lemma labeled_body_consumes (isIPv4 : bool) (len parsed_bytes : Z) (st st' : loop_state) :
  labeled_body isIPv4 len parsed_bytes st = Done (Continue st') ->
  let d := cur_read_size st' + 1 - cur_read_size st in
  1 <= d <= 37 /\ cur_data st' = drop (Z.to_nat d) (cur_data st).
Proof.
  unfold labeled_body. intros H. bind_inv H.
  match goal with
  | E : parse_add_path _ _ _ _ _ = Done _ |- _ =>
      apply parse_add_path_consumes in E as (Hpid & Hdata)
  end.
  unfold labeled_prefix in H. destruct (parsed_bytes =? len); [discriminate|].
  bind_inv H. inversion H; subst; clear H.
  cbn [cur_read_size cur_data].
  match goal with
  | E : read_u8 ?d = Done (?v, ?r) |- _ =>
      pose proof (read_u8_done _ _ _ E) as [Hpl _];
      assert (Hr : r = drop (Z.to_nat 1) d) by (destruct d; [discriminate|by inversion E])
  end.
  pose proof (addr_bytes_nonneg _ Hpl) as [_ Hab].
  rewrite ceil_bytes_int in * by assumption.
  pose proof (ceil_bytes_range _ Hpl) as Hceil.
  match goal with
  | E : label_loop _ _ = Done _ |- _ =>
      apply label_loop_consumes in E as (c & Hc & Hab' & Hpos & Hrs & Hd); [|cbn; lia]
  end.
  cbn in Hab', Hrs, Hd.
  match goal with
  | E : advance _ _ = Done _ |- _ => apply advance_inv in E as [_ ->]
  end.
  split; [lia|].
  rewrite Hd, Hr, !drop_drop_Z by lia. f_equal. lia.
Qed.

Lemma unicast_loop_cursor (fuel : nat) (isIPv4 : bool) (len : Z) (st st' : loop_state) :
  unicast_loop fuel isIPv4 len st = Done st' ->
  cur_read_size st < len ->
  len <= cur_read_size st' <= len + 20 /\
  cur_data st' = drop (Z.to_nat (cur_read_size st' - cur_read_size st)) (cur_data st).
Proof.
  revert st. induction fuel as [|fuel IH]; intros st; simpl.
  - destruct (Z.ltb_spec (cur_read_size st) len) as [Hlt|Hge]; [discriminate|]. lia.
  - destruct (Z.ltb_spec (cur_read_size st) len) as [Hlt|Hge]; [|lia].
    intros H _. bind_inv H.
    match goal with
    | E : unicast_body _ _ _ = Done ?a |- _ =>
        apply unicast_body_consumes in E as (Hd & Hdata); rename a into st1
    end.
    destruct (Z.lt_ge_cases (cur_read_size st1 + 1) len) as [Hmore|Hdone].
    + apply IH in H as (Hrs & Hcur); [|cbn; lia]. cbn in Hrs, Hcur.
      split; [lia|]. rewrite Hcur, Hdata, drop_drop_Z by lia. f_equal. lia.
    + destruct fuel; simpl in H;
        (replace (cur_read_size st1 + 1 <? len) with false in H
           by (symmetry; apply Z.ltb_ge; lia));
        inversion H; subst; cbn; (split; [lia|exact Hdata]).
Qed.

Lemma labeled_loop_cursor (fuel : nat) (isIPv4 : bool) (len parsed_bytes : Z)
    (st st' : loop_state) :
  labeled_loop fuel isIPv4 len parsed_bytes st = Done st' ->
  parsed_bytes <> len ->
  cur_read_size st < len ->
  len <= cur_read_size st' <= len + 36 /\
  cur_data st' = drop (Z.to_nat (cur_read_size st' - cur_read_size st)) (cur_data st).
Proof.
  intros H Hpb. revert st H. induction fuel as [|fuel IH]; intros st; simpl.
  - destruct (Z.ltb_spec (cur_read_size st) len) as [Hlt|Hge]; [discriminate|]. lia.
  - destruct (Z.ltb_spec (cur_read_size st) len) as [Hlt|Hge]; [|lia].
    intros H _. bind_inv H.
    match goal with
    | E : labeled_body _ _ _ _ = Done ?a |- _ => destruct a as [st1|st1]
    end.
    2:{ match goal with
        | E : labeled_body _ _ _ _ = Done _ |- _ => apply labeled_body_break in E as [_ E]
        end. contradiction. }
    match goal with
    | E : labeled_body _ _ _ _ = Done _ |- _ =>
        apply labeled_body_consumes in E as (Hd & Hdata)
    end.
    destruct (Z.lt_ge_cases (cur_read_size st1 + 1) len) as [Hmore|Hdone].
    + apply IH in H as (Hrs & Hcur); [|cbn; lia]. cbn in Hrs, Hcur.
      split; [lia|]. rewrite Hcur, Hdata, drop_drop_Z by lia. f_equal. lia.
    + destruct fuel; simpl in H;
        (replace (cur_read_size st1 + 1 <? len) with false in H
           by (symmetry; apply Z.ltb_ge; lia));
        inversion H; subst; cbn; (split; [lia|exact Hdata]).
Qed.

(** X7. In both prefix loops [read_size] counts exactly the bytes taken from
    the buffer: when a loop that was entered ends, the cursor is the initial
    one advanced by the growth of [read_size].  The loop ends with
    [read_size] at or past the span length, and past it by at most 20 bytes
    in the unicast decoder and 36 in the labeled one: the span length only
    decides whether another iteration starts, not how far an iteration
    reads. *)
Theorem read_size_counts_consumed_bytes (fuel : nat) (isIPv4 : bool) (len : Z)
    (st st' : loop_state) :
  cur_read_size st < len ->
  (unicast_loop fuel isIPv4 len st = Done st' ->
   len <= cur_read_size st' <= len + 20 /\
   cur_data st' = drop (Z.to_nat (cur_read_size st' - cur_read_size st)) (cur_data st)) /\
  (labeled_loop fuel isIPv4 len 0 st = Done st' ->
   0 <= cur_read_size st ->
   len <= cur_read_size st' <= len + 36 /\
   cur_data st' = drop (Z.to_nat (cur_read_size st' - cur_read_size st)) (cur_data st)).
Proof.
  intros Hlt. split.
  - intros H. by eapply unicast_loop_cursor.
  - intros H Hpos. eapply labeled_loop_cursor; [exact H|lia|exact Hlt].
Qed.

(** ** Unicast bodies: spans and round trips *)

Lemma u8_octet (v : Z) : 0 <= v < 256 -> u8 (octet v) = v.
Proof.
  intros Hv. unfold u8, octet.
  destruct (Byte.of_N (Z.to_N v)) as [b|] eqn:E.
  - apply Byte.to_of_N in E. simpl. lia.
  - apply Byte.of_N_None_iff in E. lia.
Qed.

Lemma span_covers_length (ps : list unicast_route) (len : Z) :
  span_covers len ps -> Z.of_nat (length ps) <= Z.max 0 len.
Proof.
  revert len. induction ps as [|p ps IH]; intros len; simpl; [lia|].
  intros [Hpos Hrest]. apply IH in Hrest. lia.
Qed.

Lemma span_covers_exact (ps : list unicast_route) :
  span_covers (Z.of_nat (length (encode_unicast ps))) ps.
Proof.
  induction ps as [|p ps IH]; simpl; [lia|].
  unfold encode_unicast in *. cbn [map concat]. rewrite length_app. split.
  - simpl. lia.
  - match goal with
    | |- span_covers ?x ps =>
        replace x with (Z.of_nat (length (concat (map encode_route ps)))) by (simpl; lia)
    end.
    exact IH.
Qed.

Lemma span_covers_last (init : list unicast_route) (p : unicast_route) (len : Z) :
  Z.of_nat (length (encode_unicast init)) < len <=
    Z.of_nat (length (encode_unicast (init ++ [p]))) ->
  span_covers len (init ++ [p]).
Proof.
  revert len. induction init as [|p0 init IH]; intros len.
  - unfold encode_unicast. simpl. rewrite app_nil_r. intros H. split; lia.
  - unfold encode_unicast in *. cbn [map concat app]. rewrite !length_app.
    intros H. cbn [span_covers]. split; [lia|]. apply IH. lia.
Qed.

Lemma unicast_loop_covered (isIPv4 : bool) (len : Z) (ps : list unicast_route) :
  forall (fuel : nat) (st : loop_state) (extra : list u_char),
    Forall well_formed_route ps ->
    getAddpathCapability (afi (cur_nlri st)) (safi (cur_nlri st)) = false ->
    cur_data st = encode_unicast ps ++ extra ->
    span_covers (len - cur_read_size st) ps ->
    (length ps <= fuel)%nat ->
    exists (e : parse_bgp_lib_nlri) (rs : Z),
      unicast_loop fuel isIPv4 len st =
        Done (Loop extra rs e (cur_list st ++ decoded_routes isIPv4 (cur_nlri st) ps)).
Proof.
  induction ps as [|p ps IH]; intros fuel st extra Hwf Hcap Hdata Hcov Hfuel.
  - simpl in *. exists (cur_nlri st), (cur_read_size st).
    destruct fuel; simpl;
      replace (cur_read_size st <? len) with false by (symmetry; apply Z.ltb_ge; lia);
      destruct st; simpl in *; subst; by rewrite app_nil_r.
  - inversion Hwf as [|? ? [Hp16 Hpn] Hwf']; subst.
    assert (Henc : encode_unicast (p :: ps) =
                   route_len p :: (route_addr p ++ encode_unicast ps)) by reflexivity.
    rewrite Henc in Hdata. clear Henc.
    rewrite <- app_comm_cons, <- app_assoc in Hdata.
    destruct Hcov as [Hpos Hcov]. cbn [encode_route length] in Hcov.
    destruct fuel as [|fuel]; [simpl in Hfuel; lia|].
    cbn [unicast_loop].
    replace (cur_read_size st <? len) with true by (symmetry; apply Z.ltb_lt; lia).
    unfold unicast_body. rewrite parse_add_path_disabled by (left; exact Hcap).
    cbn [mbind outcome_mbind outcome_bind]. rewrite Hdata.
    rewrite unicast_prefix_run; [|lia|rewrite length_app; lia].
    cbn [mbind outcome_mbind outcome_bind cur_data cur_read_size cur_nlri cur_list].
    rewrite <- Hp16, Nat2Z.id.
    rewrite take_app_length, drop_app_length.
    fold (route_raw p). fold (decoded_route isIPv4 (cur_nlri st) p).
    edestruct (IH fuel
                 (Loop (encode_unicast ps ++ extra)
                    (cur_read_size st + Z.of_nat (length (route_addr p)) + 1)
                    (decoded_route isIPv4 (cur_nlri st) p)
                    (cur_list st ++ [decoded_route isIPv4 (cur_nlri st) p]))
                 extra) as (e & rs & He); try assumption; try reflexivity.
    + cbn [cur_read_size].
      replace (len - (cur_read_size st + Z.of_nat (length (route_addr p)) + 1))
        with (len - cur_read_size st - Z.of_nat (S (length (route_addr p)))) by lia.
      exact Hcov.
    + simpl in Hfuel. lia.
    + exists e, rs. rewrite He. cbn [cur_list cur_nlri decoded_routes].
      by rewrite <- app_assoc.
Qed.

Lemma unicast_decode_covered (isIPv4 : bool) (ps : list unicast_route) (extra : list u_char)
    (len : Z) (l : list parse_bgp_lib_nlri) :
  Forall well_formed_route ps ->
  getAddpathCapability (if isIPv4 then BGP_AFI_IPV4 else BGP_AFI_IPV6) BGP_SAFI_UNICAST = false ->
  span_covers len ps ->
  parseNlriData_IPv4IPv6 isIPv4 (Some (encode_unicast ps ++ extra)) len l =
  Done (l ++ decoded_routes isIPv4 (fresh_entry isIPv4 BGP_SAFI_UNICAST) ps).
Proof.
  intros Hwf Hcap Hcov. unfold parseNlriData_IPv4IPv6.
  destruct (Z.leb_spec len 0) as [Hz|Hpos].
  - destruct ps as [|p ps]; [by rewrite app_nil_r|]. destruct Hcov. lia.
  - pose proof (span_covers_length _ _ Hcov) as Hn.
    edestruct (unicast_loop_covered isIPv4 len ps (Z.to_nat len)
                 (Loop (encode_unicast ps ++ extra) 0 (fresh_entry isIPv4 BGP_SAFI_UNICAST) l)
                 extra) as (e & rs & He);
      try assumption; try reflexivity.
    + cbn [cur_read_size]. by rewrite Z.sub_0_r.
    + lia.
    + unfold fresh_entry in He. rewrite He. reflexivity.
Qed.

(** X8. With add-path disabled, a unicast body of well-formed routes decodes
    to the same entries for every span length that ends inside the last
    route: once the first byte of a route lies within the span the whole
    route is read, also the part past the span. *)
Theorem span_may_end_inside_last_route (isIPv4 : bool) (init : list unicast_route)
    (p : unicast_route) (extra : list u_char) (len : Z) (l : list parse_bgp_lib_nlri) :
  Forall well_formed_route (init ++ [p]) ->
  getAddpathCapability (if isIPv4 then BGP_AFI_IPV4 else BGP_AFI_IPV6) BGP_SAFI_UNICAST = false ->
  Z.of_nat (length (encode_unicast init)) < len <=
    Z.of_nat (length (encode_unicast (init ++ [p]))) ->
  parseNlriData_IPv4IPv6 isIPv4 (Some (encode_unicast (init ++ [p]) ++ extra)) len l =
  parseNlriData_IPv4IPv6 isIPv4 (Some (encode_unicast (init ++ [p]) ++ extra))
    (Z.of_nat (length (encode_unicast (init ++ [p])))) l.
Proof.
  intros Hwf Hcap Hlen.
  rewrite (unicast_decode_covered isIPv4 (init ++ [p]) extra len l Hwf Hcap)
    by (by apply span_covers_last).
  rewrite (unicast_decode_covered isIPv4 (init ++ [p]) extra _ l Hwf Hcap)
    by apply span_covers_exact.
  reflexivity.
Qed.

(** X9. Round trip without path identifiers: decoding the encoding of
    well-formed routes with add-path disabled appends one entry per route,
    in order, and the values recorded last in the i-th entry are those of the
    i-th route: path identifier 0, its length in bits, the text of its
    address padded with zeros, and the first four bytes of that address. *)
Theorem unicast_round_trip_last_values (isIPv4 : bool) (ps : list unicast_route)
    (l : list parse_bgp_lib_nlri) :
  Forall well_formed_route ps ->
  Z.of_nat (length (encode_unicast ps)) < 65536 ->
  getAddpathCapability (if isIPv4 then BGP_AFI_IPV4 else BGP_AFI_IPV6) BGP_SAFI_UNICAST = false ->
  exists new : list parse_bgp_lib_nlri,
    parseNlriData_IPv4IPv6 isIPv4 (Some (encode_unicast ps))
      (Z.of_nat (length (encode_unicast ps))) l = Done (l ++ new) /\
    length new = length ps /\
    forall (i : nat) (p : unicast_route) (e : parse_bgp_lib_nlri),
      ps !! i = Some p -> new !! i = Some e ->
      last (field LIB_NLRI_PATH_ID e) = Some "0"%string /\
      last (field LIB_NLRI_PREFIX_LENGTH e) = Some (decimal (u8 (route_len p))) /\
      last (field LIB_NLRI_PREFIX e) = Some (inet_ntop isIPv4 (route_raw p)) /\
      last (field LIB_NLRI_PREFIX_BIN e) = Some (binary_string (take 4 (route_raw p))).
Proof.
  intros Hwf Hlen Hcap.
  exists (decoded_routes isIPv4 (fresh_entry isIPv4 BGP_SAFI_UNICAST) ps).
  split; [by apply unicast_round_trip|]. split; [apply decoded_routes_length|].
  intros i p e Hp He.
  destruct (decoded_routes_fields isIPv4 ps _ i e He) as (H1 & H2 & H3 & H4).
  rewrite H1, H2, H3, H4.
  rewrite (take_S_r ps i p Hp), !map_app. cbn [map].
  rewrite !app_assoc, !last_snoc.
  replace (S i) with (i + 1)%nat by lia. rewrite replicate_add. cbn [replicate].
  rewrite app_assoc, last_snoc. repeat split; reflexivity.
Qed.

(** ** Unicast bodies with path identifiers *)

Lemma network_order32_value (v : Z) :
  0 <= v < 2 ^ 32 ->
  u8 (octet (v / 2 ^ 24 mod 256)) * 2 ^ 24 + u8 (octet (v / 2 ^ 16 mod 256)) * 2 ^ 16 +
  u8 (octet (v / 2 ^ 8 mod 256)) * 2 ^ 8 + u8 (octet (v mod 256)) = v.
Proof.
  intros Hv.
  rewrite !u8_octet by (apply Z.mod_pos_bound; lia).
  change (2 ^ 32) with 4294967296 in Hv.
  change (2 ^ 24) with 16777216. change (2 ^ 16) with 65536. change (2 ^ 8) with 256.
  clear - Hv. Z.div_mod_to_equations. lia.
Qed.

Lemma encode_unicast_ids_cons (q : Z * unicast_route) (qs : list (Z * unicast_route)) :
  encode_unicast_ids (q :: qs) =
  octet (fst q / 2 ^ 24 mod 256) :: octet (fst q / 2 ^ 16 mod 256) ::
  octet (fst q / 2 ^ 8 mod 256) :: octet (fst q mod 256) ::
  route_len (snd q) :: (route_addr (snd q) ++ encode_unicast_ids qs).
Proof. reflexivity. Qed.

Lemma unicast_loop_routes_ids (isIPv4 : bool) (len : Z) (qs : list (Z * unicast_route)) :
  forall (fuel : nat) (st : loop_state) (extra : list u_char),
    Forall (fun q => 0 <= fst q < 2 ^ 32 /\ well_formed_route (snd q)) qs ->
    getAddpathCapability (afi (cur_nlri st)) (safi (cur_nlri st)) = true ->
    cur_data st = encode_unicast_ids qs ++ extra ->
    len - cur_read_size st = Z.of_nat (length (encode_unicast_ids qs)) ->
    (length qs <= fuel)%nat ->
    exists (e : parse_bgp_lib_nlri),
      unicast_loop fuel isIPv4 len st =
        Done (Loop extra len e (cur_list st ++ decoded_routes_ids isIPv4 (cur_nlri st) qs)).
Proof.
  induction qs as [|q qs IH]; intros fuel st extra Hwf Hcap Hdata Hlen Hfuel.
  - simpl in *. exists (cur_nlri st).
    assert (Hrs : cur_read_size st = len) by lia.
    destruct fuel; simpl;
      replace (cur_read_size st <? len) with false by (symmetry; apply Z.ltb_ge; lia);
      destruct st; simpl in *; subst; by rewrite app_nil_r.
  - inversion Hwf as [|? ? [Hid [Hp16 Hpn]] Hwf']; subst.
    rewrite encode_unicast_ids_cons in Hdata, Hlen.
    rewrite <- !app_comm_cons, <- app_assoc in Hdata.
    cbn [length] in Hlen. rewrite length_app in Hlen.
    destruct fuel as [|fuel]; [simpl in Hfuel; lia|].
    cbn [unicast_loop].
    replace (cur_read_size st <? len) with true by (symmetry; apply Z.ltb_lt; lia).
    unfold unicast_body. rewrite Hdata.
    rewrite parse_add_path_enabled by (try assumption; lia).
    rewrite network_order32_value by assumption.
    cbn [mbind outcome_mbind outcome_bind].
    rewrite unicast_prefix_run; [|lia|rewrite length_app; lia].
    cbn [mbind outcome_mbind outcome_bind cur_data cur_read_size cur_nlri cur_list].
    rewrite <- Hp16, Nat2Z.id.
    rewrite take_app_length, drop_app_length.
    fold (route_raw (snd q)). fold (decoded_route_id isIPv4 (cur_nlri st) q).
    edestruct (IH fuel
                 (Loop (encode_unicast_ids qs ++ extra)
                    (cur_read_size st + 4 + Z.of_nat (length (route_addr (snd q))) + 1)
                    (decoded_route_id isIPv4 (cur_nlri st) q)
                    (cur_list st ++ [decoded_route_id isIPv4 (cur_nlri st) q]))
                 extra) as [e He]; try assumption; try reflexivity.
    + cbn [cur_read_size]. lia.
    + simpl in Hfuel. lia.
    + exists e. rewrite He. cbn [cur_list cur_nlri decoded_routes_ids].
      by rewrite <- app_assoc.
Qed.

Lemma decoded_routes_ids_length (isIPv4 : bool) (e : parse_bgp_lib_nlri)
    (qs : list (Z * unicast_route)) :
  length (decoded_routes_ids isIPv4 e qs) = length qs.
Proof.
  revert e. induction qs as [|q qs IH]; intros e; simpl; [reflexivity|]. by rewrite IH.
Qed.

Lemma decoded_routes_ids_last (isIPv4 : bool) (qs : list (Z * unicast_route)) :
  forall (e : parse_bgp_lib_nlri) (i : nat) (q : Z * unicast_route) (ei : parse_bgp_lib_nlri),
    qs !! i = Some q ->
    decoded_routes_ids isIPv4 e qs !! i = Some ei ->
    last (field LIB_NLRI_PATH_ID ei) = Some (decimal (fst q)) /\
    last (field LIB_NLRI_PREFIX_LENGTH ei) = Some (decimal (u8 (route_len (snd q)))) /\
    last (field LIB_NLRI_PREFIX ei) = Some (inet_ntop isIPv4 (route_raw (snd q))) /\
    last (field LIB_NLRI_PREFIX_BIN ei) = Some (binary_string (take 4 (route_raw (snd q)))).
Proof.
  induction qs as [|q0 qs IH]; intros e i q ei Hq Hi; [discriminate Hq|].
  destruct i as [|i]; cbn [decoded_routes_ids] in Hi; simpl in Hq, Hi.
  - inversion Hq; inversion Hi; subst. unfold decoded_route_id. repeat split.
    + rewrite !field_push_ne, field_push_eq by done. apply last_snoc.
    + rewrite 2!field_push_ne by done. rewrite field_push_eq. apply last_snoc.
    + rewrite field_push_ne by done. rewrite field_push_eq. apply last_snoc.
    + rewrite field_push_eq. apply last_snoc.
  - by eapply IH.
Qed.

(** X10. Round trip with path identifiers: with add-path enabled, decoding a
    body in which every route is preceded by its 32-bit path identifier
    appends one entry per route, in order, and the values recorded last in
    the i-th entry are the i-th path identifier in decimal and the length,
    address text and first four address bytes of the i-th route. *)
Theorem unicast_round_trip_with_path_ids (isIPv4 : bool) (qs : list (Z * unicast_route))
    (l : list parse_bgp_lib_nlri) :
  Forall (fun q => 0 <= fst q < 2 ^ 32 /\ well_formed_route (snd q)) qs ->
  Z.of_nat (length (encode_unicast_ids qs)) < 65536 ->
  getAddpathCapability (if isIPv4 then BGP_AFI_IPV4 else BGP_AFI_IPV6) BGP_SAFI_UNICAST = true ->
  exists new : list parse_bgp_lib_nlri,
    parseNlriData_IPv4IPv6 isIPv4 (Some (encode_unicast_ids qs))
      (Z.of_nat (length (encode_unicast_ids qs))) l = Done (l ++ new) /\
    length new = length qs /\
    forall (i : nat) (q : Z * unicast_route) (e : parse_bgp_lib_nlri),
      qs !! i = Some q -> new !! i = Some e ->
      last (field LIB_NLRI_PATH_ID e) = Some (decimal (fst q)) /\
      last (field LIB_NLRI_PREFIX_LENGTH e) = Some (decimal (u8 (route_len (snd q)))) /\
      last (field LIB_NLRI_PREFIX e) = Some (inet_ntop isIPv4 (route_raw (snd q))) /\
      last (field LIB_NLRI_PREFIX_BIN e) = Some (binary_string (take 4 (route_raw (snd q)))).
Proof.
  intros Hwf _ Hcap.
  exists (decoded_routes_ids isIPv4 (fresh_entry isIPv4 BGP_SAFI_UNICAST) qs).
  split; [|split; [apply decoded_routes_ids_length|]].
  - unfold parseNlriData_IPv4IPv6.
    destruct (Z.leb_spec (Z.of_nat (length (encode_unicast_ids qs))) 0) as [Hz|Hpos].
    + destruct qs as [|q qs]; [by rewrite app_nil_r|].
      rewrite encode_unicast_ids_cons in Hz. simpl in Hz. lia.
    + assert (Hn : Z.of_nat (length qs) <= Z.of_nat (length (encode_unicast_ids qs))).
      { clear. induction qs as [|q qs IH]; [simpl; lia|].
        rewrite encode_unicast_ids_cons. cbn [length]. rewrite length_app. lia. }
      edestruct (unicast_loop_routes_ids isIPv4 (Z.of_nat (length (encode_unicast_ids qs))) qs
                   (Z.to_nat (Z.of_nat (length (encode_unicast_ids qs))))
                   (Loop (encode_unicast_ids qs) 0 (fresh_entry isIPv4 BGP_SAFI_UNICAST) l) [])
        as [e He]; try assumption; cbn [cur_data cur_read_size cur_nlri afi safi fresh_entry];
        try by rewrite ?app_nil_r.
      * lia.
      * lia.
      * unfold fresh_entry in He. rewrite He. reflexivity.
  - intros i q e Hq He. by eapply decoded_routes_ids_last.
Qed.

(** ** Whole attributes *)

Lemma next_hop_raw_done (nlri : mp_reach_nlri) :
  0 <= mp_nh_len nlri ->
  Z.min (mp_nh_len nlri) 16 <= Z.of_nat (length (mp_next_hop nlri)) ->
  next_hop_raw nlri =
  Done (take (Z.to_nat (Z.min (mp_nh_len nlri) 16)) (mp_next_hop nlri) ++
        replicate (16 - Z.to_nat (Z.min (mp_nh_len nlri) 16)) Byte.x00).
Proof.
  intros Hnh Hpresent.
  destruct (buffer_after_copy (mp_next_hop nlri) (Z.min (mp_nh_len nlri) 16)
              ltac:(lia) Hpresent) as [Hcopy _].
  unfold next_hop_raw. destruct (Z.ltb_spec 16 (mp_nh_len nlri)) as [Hgt|Hle].
  - rewrite <- Hcopy. f_equal. lia.
  - rewrite <- Hcopy. f_equal. lia.
Qed.

(** The next-hop bytes that reach the text conversion: the first
    min(length, 16) bytes of the next hop, padded with zeros to 16. *)
Lemma next_hop_of_header (n : u_char) (nh : list u_char) (rsv : u_char) (body : list u_char)
    (afi safi len : Z) :
  length nh = Z.to_nat (u8 n) ->
  next_hop_raw (MpReach afi safi (u8 n) (nh ++ rsv :: body) (u8 rsv) body len) =
  Done (take 16 nh ++ replicate (16 - length nh) Byte.x00).
Proof.
  intros Hnh. pose proof (u8_range n) as Hn.
  rewrite next_hop_raw_done; cbn [mp_nh_len mp_next_hop];
    [|lia|rewrite length_app; lia].
  f_equal. rewrite take_app_le by lia.
  destruct (Z.le_gt_cases (u8 n) 16) as [Hle|Hgt].
  - rewrite Z.min_l by lia. rewrite <- Hnh.
    rewrite take_ge by lia. rewrite (take_ge nh 16) by lia. reflexivity.
  - rewrite Z.min_r by lia. f_equal. f_equal. lia.
Qed.

(** X11. An attribute of a supported family whose declared length ends with
    the reserved octet has an empty NLRI span: the decode sets the next hop
    (the text of the first min(length, 16) next-hop bytes padded with zeros)
    and appends no entry, whatever bytes follow in the buffer. *)
Theorem empty_nlri_sets_next_hop_only (a0 a1 s n : u_char) (nh : list u_char) (rsv : u_char)
    (body : list u_char) (update : parsed_update) (isIPv4 : bool) :
  length nh = Z.to_nat (u8 n) ->
  family_flag (u8 a0 * 256 + u8 a1) = Some isIPv4 ->
  u8 s = BGP_SAFI_UNICAST \/ u8 s = BGP_SAFI_NLRI_LABEL ->
  parseReachNlriAttr (5 + u8 n) (a0 :: a1 :: s :: n :: nh ++ rsv :: body) update =
  Done (Update
          (set_next_hop
             (inet_ntop isIPv4 (take 16 nh ++ replicate (16 - length nh) Byte.x00))
             (attrs update))
          (nlri_list update)).
Proof.
  intros Hnh Hfam Hsafi. pose proof (u8_range n) as Hn.
  rewrite header_run by (try assumption; unfold INT_MIN, INT_MAX; lia).
  replace (5 + u8 n - (5 + u8 n)) with 0 by lia.
  cbn [Z.ltb Z.compare]. rewrite parseAfi_family. cbn [mp_afi]. rewrite Hfam.
  unfold parseAfi_IPv4IPv6. rewrite next_hop_of_header by assumption.
  cbn [mp_safi mp_nlri_data mp_nlri_len mbind outcome_mbind outcome_bind].
  destruct (Z.eqb_spec (u8 s) BGP_SAFI_UNICAST) as [Eu|Nu]; [reflexivity|].
  destruct (Z.eqb_spec (u8 s) BGP_SAFI_NLRI_LABEL) as [El|Nl]; [reflexivity|].
  destruct Hsafi; contradiction.
Qed.

(** X12. End to end, unicast: an attribute of family IPv4 or IPv6 with SAFI
    unicast, whose NLRI span is the encoding of well-formed routes and whose
    declared length covers exactly header, next hop and span, decodes (with
    add-path disabled) to the caller's update with the next-hop text appended
    under the next-hop key and one entry per route appended to the list. *)
Theorem unicast_attribute_end_to_end (a0 a1 s n : u_char) (nh : list u_char) (rsv : u_char)
    (ps : list unicast_route) (update : parsed_update) (isIPv4 : bool) :
  length nh = Z.to_nat (u8 n) ->
  family_flag (u8 a0 * 256 + u8 a1) = Some isIPv4 ->
  u8 s = BGP_SAFI_UNICAST ->
  Forall well_formed_route ps ->
  Z.of_nat (length (encode_unicast ps)) < 65536 ->
  getAddpathCapability (if isIPv4 then BGP_AFI_IPV4 else BGP_AFI_IPV6) BGP_SAFI_UNICAST = false ->
  parseReachNlriAttr (5 + u8 n + Z.of_nat (length (encode_unicast ps)))
    (a0 :: a1 :: s :: n :: nh ++ rsv :: encode_unicast ps) update =
  Done (Update
          (set_next_hop
             (inet_ntop isIPv4 (take 16 nh ++ replicate (16 - length nh) Byte.x00))
             (attrs update))
          (nlri_list update ++
           decoded_routes isIPv4 (fresh_entry isIPv4 BGP_SAFI_UNICAST) ps)).
Proof.
  intros Hnh Hfam Hsafi Hwf Hlen Hcap. pose proof (u8_range n) as Hn.
  rewrite header_run by (try assumption; unfold INT_MIN, INT_MAX; lia).
  replace (5 + u8 n + Z.of_nat (length (encode_unicast ps)) - (5 + u8 n))
    with (Z.of_nat (length (encode_unicast ps))) by lia.
  replace (Z.of_nat (length (encode_unicast ps)) <? 0) with false
    by (symmetry; apply Z.ltb_ge; lia).
  rewrite parseAfi_family. cbn [mp_afi]. rewrite Hfam.
  unfold parseAfi_IPv4IPv6. rewrite next_hop_of_header by assumption.
  cbn [mp_safi mp_nlri_data mp_nlri_len mbind outcome_mbind outcome_bind].
  rewrite Hsafi, Z.eqb_refl.
  unfold to_uint16. rewrite Z.mod_small by lia.
  rewrite unicast_round_trip by assumption. reflexivity.
Qed.

(** X13. One iteration of the unicast decoder is undefined exactly when no
    length byte is left in the buffer, when the length byte exceeds 128 bits
    (the copy would run past the 16 bytes of ip_raw), or when the buffer does
    not hold all the address bytes the length asks for. *)
Theorem unicast_iteration_undefined (isIPv4 : bool) (path_id : Z) (data : list u_char)
    (read_size : Z) (nlri : parse_bgp_lib_nlri) (nlri_list : list parse_bgp_lib_nlri) :
  unicast_prefix isIPv4 path_id data read_size nlri nlri_list = Fault <->
  match data with
  | [] => True
  | pl :: tail =>
      16 < (u8 pl + 7) / 8 \/ Z.of_nat (length tail) < (u8 pl + 7) / 8
  end.
Proof.
  destruct data as [|pl tail]; [by split|].
  pose proof (u8_range pl) as Hpl.
  pose proof (ceil_bytes_range (u8 pl) Hpl) as Hn.
  split.
  - intros H.
    destruct (Z.lt_ge_cases 16 ((u8 pl + 7) / 8)) as [Hbig|Hfit]; [by left|].
    destruct (Z.lt_ge_cases (Z.of_nat (length tail)) ((u8 pl + 7) / 8)) as [Hshort|Hhas];
      [by right|].
    rewrite unicast_prefix_run in H by lia. discriminate.
  - intros Hbad. unfold unicast_prefix. cbn [read_u8 mbind outcome_mbind outcome_bind].
    rewrite ceil_bytes by assumption. unfold memcpy, bzero. rewrite length_replicate.
    destruct (Z.ltb_spec (Z.of_nat (length tail)) ((u8 pl + 7) / 8)) as [H1|H1];
      [reflexivity|].
    destruct (Z.ltb_spec (Z.of_nat 16) ((u8 pl + 7) / 8)) as [H2|H2]; [reflexivity|].
    lia.
Qed.

(** ** Labeled prefixes: round trip *)

Lemma encode_labels_length (vs : list Z) :
  length (encode_labels vs) = (3 * length vs)%nat.
Proof.
  induction vs as [|v vs IH]; [reflexivity|].
  cbn [encode_labels]. rewrite length_app, IH. simpl. lia.
Qed.

(** The fields the decoder reads back from an encoded label. *)
Lemma encoded_label_fields (x0 x1 x2 x3 : u_char) (v : Z) (bos : bool) :
  0 <= v < 2 ^ 20 ->
  let label :=
    load_label [x0; x1; x2; x3] (octet (v / 4096)) (octet (v / 16 mod 256))
      (octet (v mod 16 * 16 + (if bos then 1 else 0))) in
  label_decode_value label = v /\
  label_decode_bos label = (if bos then 1 else 0) /\
  (v <> 0x80000 -> label_data label <> 0x80000000).
Proof.
  intros Hv label.
  destruct (label_fields x0 x1 x2 x3 (octet (v / 4096)) (octet (v / 16 mod 256))
              (octet (v mod 16 * 16 + (if bos then 1 else 0)))) as (Hd & Hval & Hb & _).
  fold label in Hd, Hval, Hb.
  pose proof (u8_range x3) as Hx3.
  change (2 ^ 20) with 1048576 in Hv.
  assert (H0 : 0 <= v / 4096 < 256)
    by (clear - Hv; Z.div_mod_to_equations; lia).
  assert (H1 : 0 <= v / 16 mod 256 < 256)
    by (clear - Hv; Z.div_mod_to_equations; lia).
  assert (H2 : 0 <= v mod 16 * 16 + (if bos then 1 else 0) < 256)
    by (clear - Hv; destruct bos; Z.div_mod_to_equations; lia).
  rewrite (u8_octet _ H0), (u8_octet _ H1), (u8_octet _ H2) in Hd.
  rewrite (u8_octet _ H0), (u8_octet _ H1), (u8_octet _ H2) in Hval.
  rewrite (u8_octet _ H2) in Hb.
  change (2 ^ 24) with 16777216 in Hd. change (2 ^ 16) with 65536 in Hd.
  change (2 ^ 8) with 256 in Hd. change (2 ^ 12) with 4096 in Hval.
  change (2 ^ 4) with 16 in Hval.
  rewrite Hd, Hval, Hb. clear - Hv Hx3.
  split; [|split].
  - destruct bos; Z.div_mod_to_equations; lia.
  - destruct bos; Z.div_mod_to_equations; lia.
  - intros Hs. destruct bos; Z.div_mod_to_equations; lia.
Qed.

(** The label loop reads an encoded stack back: one union object per label,
    carrying the label's value, and it stops at the last. *)
Lemma label_stack_encoded (vs : list Z) :
  forall (n : nat) (label rest : list u_char),
    vs <> [] ->
    length label = 4%nat ->
    Forall (fun v => 0 <= v < 2 ^ 20) vs ->
    Forall (fun v => v <> 0x80000) (removelast vs) ->
    (length vs <= n)%nat ->
    map label_decode_value (label_stack n label (encode_labels vs ++ rest)) = vs.
Proof.
  induction vs as [|v vs IH]; intros n label rest Hne Hlabel Hrange Hsent Hn; [done|].
  destruct n as [|n]; [simpl in Hn; lia|].
  destruct label as [|x0 [|x1 [|x2 [|x3 [|x4 label]]]]]; simpl in Hlabel; try lia.
  inversion Hrange as [|? ? Hv Hrange']; subst.
  destruct vs as [|v' vs].
  - change (encode_labels [v]) with (encode_label v true ++ []).
    cbn [encode_label app label_stack].
    destruct (encoded_label_fields x0 x1 x2 x3 v true Hv) as (Hval & Hb & _).
    unfold ends_stack. rewrite Hb. cbn [Z.eqb Pos.eqb orb map]. by rewrite Hval.
  - change (encode_labels (v :: v' :: vs))
      with (encode_label v false ++ encode_labels (v' :: vs)).
    cbn [encode_label app label_stack].
    destruct (encoded_label_fields x0 x1 x2 x3 v false Hv) as (Hval & Hb & Hd).
    inversion Hsent as [|? ? Hv0 Hsent']; subst.
    unfold ends_stack. rewrite Hb. cbn [Z.eqb orb].
    replace (label_data _ =? 0x80000000) with false
      by (symmetry; apply Z.eqb_neq; apply Hd; exact Hv0).
    cbn [map]. rewrite Hval. f_equal.
    apply IH; [done|by apply load_label_length|exact Hrange'|exact Hsent'|].
    simpl in Hn. simpl. lia.
Qed.

Lemma after_labels_push (ws : list (list u_char)) :
  forall st : label_state,
    24 * Z.of_nat (length ws) <= lb_prefix_len st < 256 ->
    lb_nlri (after_labels st ws) =
    push_labels (lb_prefix_len st) (map label_decode_value ws) (lb_nlri st).
Proof.
  induction ws as [|w ws IH]; intros st Hpl; [reflexivity|].
  cbn [after_labels map push_labels length] in *.
  rewrite IH; cbn [lb_prefix_len lb_nlri]; unfold to_u_char;
    rewrite Z.mod_small by lia; [reflexivity|lia].
Qed.

(** Lines 322-383 on an encoded labeled route. *)
Lemma labeled_prefix_run (isIPv4 : bool) (len parsed_bytes path_id : Z) (r : labeled_route)
    (rest : list u_char) (read_size : Z)
    (nlri : parse_bgp_lib_nlri) (nlri_list : list parse_bgp_lib_nlri) :
  parsed_bytes <> len ->
  well_formed_labeled r ->
  labeled_prefix isIPv4 len parsed_bytes path_id (encode_labeled r ++ rest) read_size
    nlri nlri_list =
  Done (Continue
          (Loop rest (read_size + Z.of_nat (length (encode_labeled r)) - 1)
             (decoded_labeled isIPv4 path_id nlri r)
             (nlri_list ++ [decoded_labeled isIPv4 path_id nlri r]))).
Proof.
  intros Hpb (Hne & Hrange & Hsent & Hbits & Hcomb & Haddr & H16).
  set (k := Z.of_nat (length (route_labels r))).
  assert (Hk : 1 <= k) by (subst k; destruct (route_labels r); [done|simpl; lia]).
  assert (Hc : combined_len r = 24 * k + route_bits r) by reflexivity.
  assert (Hab : (combined_len r + 7) / 8 = 3 * k + (route_bits r + 7) / 8).
  { rewrite Hc. replace (24 * k + route_bits r + 7) with (route_bits r + 7 + 3 * k * 8) by lia.
    rewrite Z.div_add by lia. lia. }
  assert (Hn : 0 <= (route_bits r + 7) / 8) by (apply Z.div_pos; lia).
  unfold labeled_prefix.
  replace (parsed_bytes =? len) with false by (symmetry; by apply Z.eqb_neq).
  unfold encode_labeled at 1. rewrite <- app_comm_cons.
  cbn [read_u8 mbind outcome_mbind outcome_bind].
  rewrite u8_octet by lia. rewrite ceil_bytes_int by lia. rewrite Hab.
  rewrite <- app_assoc.
  rewrite label_loop_run; cbn [lb_addr_bytes lb_data lb_label];
    [|lia|rewrite !length_app, encode_labels_length; lia|reflexivity].
  cbn [mbind outcome_mbind outcome_bind].
  set (st := Labels _ _ _ _ _ _).
  set (ws := label_stack _ _ _).
  assert (Hws : map label_decode_value ws = route_labels r).
  { subst ws. apply label_stack_encoded; try done.
    assert (k <= (3 * k + (route_bits r + 7) / 8) / 3)
      by (apply Z.div_le_lower_bound; lia).
    lia. }
  assert (Hlen : length ws = length (route_labels r))
    by (rewrite <- Hws; by rewrite length_map).
  destruct (after_labels_fields ws st) as (Hd & Hb & Hrs & _).
  pose proof (after_labels_push ws st) as Hpush.
  rewrite Hlen in Hd, Hb, Hrs, Hpush. rewrite Hws in Hpush.
  subst st. cbn [lb_data lb_addr_bytes lb_read_size lb_prefix_len lb_nlri] in Hd, Hb, Hrs, Hpush.
  fold k in Hb, Hrs, Hpush.
  specialize (Hpush ltac:(lia)).
  rewrite <- (encode_labels_length (route_labels r)) in Hd.
  rewrite drop_app_length in Hd.
  rewrite Hd, Hb, Hpush, Hrs.
  replace (3 * k + (route_bits r + 7) / 8 - 3 * k) with (Z.of_nat (length (labeled_addr r)))
    by lia.
  destruct (buffer_after_copy (labeled_addr r ++ rest) (Z.of_nat (length (labeled_addr r))))
    as [Hcopy _]; [lia|rewrite length_app; lia|].
  rewrite Hcopy. rewrite advance_done by (rewrite length_app; lia).
  cbn [mbind outcome_mbind outcome_bind].
  rewrite Nat2Z.id, take_app_length, drop_app_length.
  fold (labeled_raw r). fold (decoded_labeled isIPv4 path_id nlri r).
  do 3 f_equal.
  unfold encode_labeled. cbn [length]. rewrite length_app, encode_labels_length. lia.
Qed.

Lemma push_labels_tags (vs : list Z) :
  forall (total : Z) (e : parse_bgp_lib_nlri),
    afi (push_labels total vs e) = afi e /\
    safi (push_labels total vs e) = safi e /\
    type (push_labels total vs e) = type e.
Proof.
  induction vs as [|v vs IH]; intros total e; [done|].
  cbn [push_labels]. destruct (IH (total - 24)
    (nlri_push LIB_NLRI_LABELS (decimal v)
       (nlri_push LIB_NLRI_PREFIX_LENGTH (decimal (total - 24)) e))) as (-> & -> & ->).
  done.
Qed.

Lemma push_labels_fields (vs : list Z) :
  forall (total : Z) (e : parse_bgp_lib_nlri),
    field LIB_NLRI_LABELS (push_labels total vs e) =
      field LIB_NLRI_LABELS e ++ map decimal vs /\
    field LIB_NLRI_PREFIX_LENGTH (push_labels total vs e) =
      field LIB_NLRI_PREFIX_LENGTH e ++
      map (fun j => decimal (total - 24 * Z.of_nat j)) (seq 1 (length vs)) /\
    (forall key, key <> LIB_NLRI_LABELS -> key <> LIB_NLRI_PREFIX_LENGTH ->
       field key (push_labels total vs e) = field key e).
Proof.
  induction vs as [|v vs IH]; intros total e.
  - simpl. by rewrite !app_nil_r.
  - cbn [push_labels length].
    destruct (IH (total - 24)
      (nlri_push LIB_NLRI_LABELS (decimal v)
         (nlri_push LIB_NLRI_PREFIX_LENGTH (decimal (total - 24)) e))) as (Hl & Hp & Ho).
    split; [|split].
    + rewrite Hl, field_push_eq, field_push_ne by discriminate.
      by rewrite <- app_assoc.
    + rewrite Hp, field_push_ne, field_push_eq by discriminate.
      rewrite <- app_assoc. f_equal. cbn [seq map app].
      replace (total - 24 * Z.of_nat 1) with (total - 24) by lia. f_equal.
      rewrite <- (seq_shift (length vs) 1), map_map. apply map_ext. intros j.
      f_equal. lia.
    + intros key H1 H2. rewrite Ho by assumption. by rewrite !field_push_ne.
Qed.

Lemma decoded_labeled_tags (isIPv4 : bool) (path_id : Z) (e : parse_bgp_lib_nlri)
    (r : labeled_route) :
  afi (decoded_labeled isIPv4 path_id e r) = afi e /\
  safi (decoded_labeled isIPv4 path_id e r) = safi e.
Proof.
  unfold decoded_labeled. cbn [afi safi nlri_push].
  destruct (push_labels_tags (route_labels r) (combined_len r)
              (nlri_push LIB_NLRI_PATH_ID (decimal path_id) e)) as (-> & -> & _).
  done.
Qed.

Lemma encode_labeled_length (r : labeled_route) :
  (1 <= length (encode_labeled r))%nat.
Proof. unfold encode_labeled. simpl. lia. Qed.

Lemma labeled_loop_routes (isIPv4 : bool) (len : Z) (rs : list labeled_route) :
  forall (fuel : nat) (st : loop_state) (extra : list u_char),
    Forall well_formed_labeled rs ->
    getAddpathCapability (afi (cur_nlri st)) (safi (cur_nlri st)) = false ->
    cur_data st = encode_labeled_routes rs ++ extra ->
    len - cur_read_size st = Z.of_nat (length (encode_labeled_routes rs)) ->
    Z.of_nat (length (encode_labeled_routes rs)) <= Z.of_nat fuel ->
    0 <> len ->
    exists (e : parse_bgp_lib_nlri),
      labeled_loop fuel isIPv4 len 0 st =
        Done (Loop extra len e
                (cur_list st ++ decoded_labeled_routes isIPv4 (cur_nlri st) rs)).
Proof.
  induction rs as [|r rs IH]; intros fuel st extra Hwf Hcap Hdata Hlen Hfuel Hpb.
  - simpl in *. exists (cur_nlri st).
    assert (Hrs : cur_read_size st = len) by lia.
    destruct fuel; simpl;
      replace (cur_read_size st <? len) with false by (symmetry; apply Z.ltb_ge; lia);
      destruct st; simpl in *; subst; by rewrite app_nil_r.
  - inversion Hwf as [|? ? Hr Hwf']; subst.
    assert (Henc : encode_labeled_routes (r :: rs) =
                   encode_labeled r ++ encode_labeled_routes rs) by reflexivity.
    rewrite Henc in Hdata, Hlen, Hfuel. clear Henc.
    rewrite <- app_assoc in Hdata. rewrite length_app in Hlen, Hfuel.
    pose proof (encode_labeled_length r) as Hpos.
    destruct fuel as [|fuel]; [lia|].
    cbn [labeled_loop].
    replace (cur_read_size st <? len) with true by (symmetry; apply Z.ltb_lt; lia).
    unfold labeled_body. rewrite parse_add_path_disabled by (left; exact Hcap).
    cbn [mbind outcome_mbind outcome_bind]. rewrite Hdata.
    rewrite labeled_prefix_run by assumption.
    cbn [mbind outcome_mbind outcome_bind cur_data cur_read_size cur_nlri cur_list].
    destruct (decoded_labeled_tags isIPv4 0 (cur_nlri st) r) as [Hafi Hsafi].
    edestruct (IH fuel
                 (Loop (encode_labeled_routes rs ++ extra)
                    (cur_read_size st + Z.of_nat (length (encode_labeled r)) - 1 + 1)
                    (decoded_labeled isIPv4 0 (cur_nlri st) r)
                    (cur_list st ++ [decoded_labeled isIPv4 0 (cur_nlri st) r]))
                 extra) as [e He]; try assumption; try reflexivity.
    + cbn [cur_nlri]. by rewrite Hafi, Hsafi.
    + cbn [cur_read_size]. lia.
    + lia.
    + exists e. rewrite He. cbn [cur_list cur_nlri decoded_labeled_routes].
      by rewrite <- app_assoc.
Qed.

(** Decoding an encoded body of well-formed labeled routes, add-path
    disabled: one entry per route, each built on top of the one before. *)
Lemma labeled_round_trip (isIPv4 : bool) (rs : list labeled_route)
    (l : list parse_bgp_lib_nlri) :
  Forall well_formed_labeled rs ->
  getAddpathCapability (if isIPv4 then BGP_AFI_IPV4 else BGP_AFI_IPV6) BGP_SAFI_NLRI_LABEL
    = false ->
  parseNlriData_LabelIPv4IPv6 isIPv4 (Some (encode_labeled_routes rs))
    (Z.of_nat (length (encode_labeled_routes rs))) l =
  Done (l ++ decoded_labeled_routes isIPv4 (fresh_entry isIPv4 BGP_SAFI_NLRI_LABEL) rs).
Proof.
  intros Hwf Hcap. unfold parseNlriData_LabelIPv4IPv6.
  destruct (Z.leb_spec (Z.of_nat (length (encode_labeled_routes rs))) 0) as [Hz|Hpos].
  - destruct rs as [|r rs]; [by rewrite app_nil_r|].
    unfold encode_labeled_routes, encode_labeled in Hz. simpl in Hz. lia.
  - fold (fresh_entry isIPv4 BGP_SAFI_NLRI_LABEL).
    edestruct (labeled_loop_routes isIPv4 (Z.of_nat (length (encode_labeled_routes rs))) rs
                 (Z.to_nat (Z.of_nat (length (encode_labeled_routes rs))))
                 (Loop (encode_labeled_routes rs) 0
                    (fresh_entry isIPv4 BGP_SAFI_NLRI_LABEL) l) []) as [e He];
      try assumption; cbn [cur_data cur_read_size cur_nlri afi safi fresh_entry];
      try by rewrite ?app_nil_r.
    + lia.
    + lia.
    + lia.
    + rewrite He. reflexivity.
Qed.

(** X14. One well-formed labeled route at the cursor is read back whole: the
    labels are recorded in wire order with their values, one remaining length
    per label is recorded and the last of them is the number of address bits
    (no wrap-around), the address is padded to 16 bytes, the cursor ends
    behind the address and [read_size] has grown by three bytes per label
    plus the address bytes. *)
Theorem labeled_route_is_read_back (isIPv4 : bool) (len parsed_bytes path_id : Z)
    (r : labeled_route) (rest : list u_char) (read_size : Z)
    (nlri : parse_bgp_lib_nlri) (nlri_list : list parse_bgp_lib_nlri) :
  parsed_bytes <> len ->
  well_formed_labeled r ->
  exists e : parse_bgp_lib_nlri,
    labeled_prefix isIPv4 len parsed_bytes path_id (encode_labeled r ++ rest) read_size
      nlri nlri_list =
    Done (Continue
            (Loop rest
               (read_size + 3 * Z.of_nat (length (route_labels r)) +
                Z.of_nat (length (labeled_addr r)))
               e (nlri_list ++ [e]))) /\
    field LIB_NLRI_LABELS e = field LIB_NLRI_LABELS nlri ++ map decimal (route_labels r) /\
    field LIB_NLRI_PREFIX_LENGTH e =
      field LIB_NLRI_PREFIX_LENGTH nlri ++
      map (fun j => decimal (combined_len r - 24 * Z.of_nat j))
        (seq 1 (length (route_labels r))) /\
    last (field LIB_NLRI_PREFIX_LENGTH e) = Some (decimal (route_bits r)) /\
    field LIB_NLRI_PATH_ID e = field LIB_NLRI_PATH_ID nlri ++ [decimal path_id] /\
    field LIB_NLRI_PREFIX e = field LIB_NLRI_PREFIX nlri ++ [inet_ntop isIPv4 (labeled_raw r)] /\
    field LIB_NLRI_PREFIX_BIN e =
      field LIB_NLRI_PREFIX_BIN nlri ++ [binary_string (take 4 (labeled_raw r))].
Proof.
  intros Hpb Hwf. exists (decoded_labeled isIPv4 path_id nlri r).
  rewrite labeled_prefix_run by assumption.
  destruct Hwf as (Hne & _).
  destruct (push_labels_fields (route_labels r) (combined_len r)
              (nlri_push LIB_NLRI_PATH_ID (decimal path_id) nlri)) as (Hl & Hp & Ho).
  assert (HL : field LIB_NLRI_LABELS (decoded_labeled isIPv4 path_id nlri r) =
               field LIB_NLRI_LABELS nlri ++ map decimal (route_labels r)).
  { unfold decoded_labeled. rewrite 2!field_push_ne by done.
    rewrite Hl. by rewrite field_push_ne. }
  assert (HP : field LIB_NLRI_PREFIX_LENGTH (decoded_labeled isIPv4 path_id nlri r) =
               field LIB_NLRI_PREFIX_LENGTH nlri ++
               map (fun j => decimal (combined_len r - 24 * Z.of_nat j))
                 (seq 1 (length (route_labels r)))).
  { unfold decoded_labeled. rewrite 2!field_push_ne by done.
    rewrite Hp. by rewrite field_push_ne. }
  split; [|split; [|split; [|split; [|split; [|split]]]]].
  - do 3 f_equal. unfold encode_labeled. cbn [length].
    rewrite length_app, encode_labels_length. lia.
  - exact HL.
  - exact HP.
  - rewrite HP. destruct (route_labels r) as [|v vs] eqn:Ev; [done|].
    cbn [length]. rewrite seq_S, map_app, app_assoc. cbn [map].
    rewrite last_snoc. do 2 f_equal. unfold combined_len. rewrite Ev. cbn [length]. lia.
  - unfold decoded_labeled. rewrite 2!field_push_ne by done.
    rewrite Ho by done. by rewrite field_push_eq.
  - unfold decoded_labeled. rewrite field_push_ne by done.
    rewrite field_push_eq. f_equal. rewrite Ho by done. by rewrite field_push_ne.
  - unfold decoded_labeled. rewrite field_push_eq. f_equal.
    rewrite field_push_ne by done. rewrite Ho by done. by rewrite field_push_ne.
Qed.

(** X15. End to end, labeled unicast: an attribute of family IPv4 or IPv6
    with SAFI labeled unicast, whose NLRI span is the encoding of well-formed
    labeled routes and whose declared length covers exactly header, next hop
    and span, decodes (with add-path disabled) to the caller's update with the
    next-hop text appended under the next-hop key and one entry per route
    appended to the list. *)
Theorem labeled_attribute_end_to_end (a0 a1 s n : u_char) (nh : list u_char) (rsv : u_char)
    (rs : list labeled_route) (update : parsed_update) (isIPv4 : bool) :
  length nh = Z.to_nat (u8 n) ->
  family_flag (u8 a0 * 256 + u8 a1) = Some isIPv4 ->
  u8 s <> BGP_SAFI_UNICAST ->
  u8 s = BGP_SAFI_NLRI_LABEL ->
  Forall well_formed_labeled rs ->
  Z.of_nat (length (encode_labeled_routes rs)) < 65536 ->
  getAddpathCapability (if isIPv4 then BGP_AFI_IPV4 else BGP_AFI_IPV6) BGP_SAFI_NLRI_LABEL
    = false ->
  parseReachNlriAttr (5 + u8 n + Z.of_nat (length (encode_labeled_routes rs)))
    (a0 :: a1 :: s :: n :: nh ++ rsv :: encode_labeled_routes rs) update =
  Done (Update
          (set_next_hop
             (inet_ntop isIPv4 (take 16 nh ++ replicate (16 - length nh) Byte.x00))
             (attrs update))
          (nlri_list update ++
           decoded_labeled_routes isIPv4 (fresh_entry isIPv4 BGP_SAFI_NLRI_LABEL) rs)).
Proof.
  intros Hnh Hfam Hnu Hsafi Hwf Hlen Hcap. pose proof (u8_range n) as Hn.
  rewrite header_run by (try assumption; unfold INT_MIN, INT_MAX; lia).
  replace (5 + u8 n + Z.of_nat (length (encode_labeled_routes rs)) - (5 + u8 n))
    with (Z.of_nat (length (encode_labeled_routes rs))) by lia.
  replace (Z.of_nat (length (encode_labeled_routes rs)) <? 0) with false
    by (symmetry; apply Z.ltb_ge; lia).
  rewrite parseAfi_family. cbn [mp_afi]. rewrite Hfam.
  unfold parseAfi_IPv4IPv6. rewrite next_hop_of_header by assumption.
  cbn [mp_safi mp_nlri_data mp_nlri_len mbind outcome_mbind outcome_bind].
  replace (u8 s =? BGP_SAFI_UNICAST) with false by (symmetry; by apply Z.eqb_neq).
  rewrite Hsafi, Z.eqb_refl.
  unfold to_uint16. rewrite Z.mod_small by lia.
  rewrite labeled_round_trip by assumption. reflexivity.
Qed.

Lemma label_loop_short (fuel : nat) (st : label_state) :
  lb_addr_bytes st < 3 -> label_loop fuel st = Done st.
Proof.
  intros H. destruct fuel; simpl;
    replace (3 <=? lb_addr_bytes st) with false by (symmetry; apply Z.leb_gt; lia);
    reflexivity.
Qed.

(** X16. A labeled prefix whose length byte is at most 16 bits leaves no
    room for a label: the label loop is not entered, the bytes are taken as
    address bytes, and the entry receives a path identifier, a prefix and a
    binary prefix but no label and no prefix length. *)
Theorem short_labeled_prefix_has_no_label (isIPv4 : bool) (len parsed_bytes path_id : Z)
    (pl : u_char) (tail : list u_char) (read_size : Z)
    (nlri : parse_bgp_lib_nlri) (nlri_list : list parse_bgp_lib_nlri) :
  parsed_bytes <> len ->
  u8 pl <= 16 ->
  (u8 pl + 7) / 8 <= Z.of_nat (length tail) ->
  let n := (u8 pl + 7) / 8 in
  let ip_raw := take (Z.to_nat n) tail ++ replicate (16 - Z.to_nat n) Byte.x00 in
  let e :=
    nlri_push LIB_NLRI_PREFIX_BIN (binary_string (take 4 ip_raw))
      (nlri_push LIB_NLRI_PREFIX (inet_ntop isIPv4 ip_raw)
         (nlri_push LIB_NLRI_PATH_ID (decimal path_id) nlri)) in
  labeled_prefix isIPv4 len parsed_bytes path_id (pl :: tail) read_size nlri nlri_list =
    Done (Continue (Loop (drop (Z.to_nat n) tail) (read_size + n) e (nlri_list ++ [e]))) /\
  field LIB_NLRI_LABELS e = field LIB_NLRI_LABELS nlri /\
  field LIB_NLRI_PREFIX_LENGTH e = field LIB_NLRI_PREFIX_LENGTH nlri.
Proof.
  intros Hpb Hshort Hpresent n ip_raw e.
  pose proof (u8_range pl) as Hpl.
  assert (Hn : 0 <= n <= 2).
  { subst n. split; [apply Z.div_pos; lia|].
    apply Z.lt_succ_r. apply Z.div_lt_upper_bound; lia. }
  split; [|split].
  - unfold labeled_prefix.
    replace (parsed_bytes =? len) with false by (symmetry; by apply Z.eqb_neq).
    cbn [read_u8 mbind outcome_mbind outcome_bind].
    rewrite ceil_bytes_int by assumption. fold n.
    rewrite label_loop_short by (cbn [lb_addr_bytes]; lia).
    cbn [mbind outcome_mbind outcome_bind lb_data lb_addr_bytes lb_read_size lb_nlri].
    destruct (buffer_after_copy tail n) as [Hcopy _]; [lia|subst n; lia|].
    rewrite Hcopy. rewrite advance_done by (subst n; lia).
    reflexivity.
  - subst e. by rewrite !field_push_ne.
  - subst e. by rewrite !field_push_ne.
Qed.

End MPReachAttr.

(** * The decoder at sample inputs

    The enumerators are instantiated with the code points the names denote:
    AFI IPv4 = 1, IPv6 = 2, BGP-LS = 16388; SAFI unicast = 1, labeled
    unicast = 4; [NLRI_TYPE_NONE] = 0; next-hop key 4 and type 3. *)

Local Abbreviation sample_parseReachNlriAttr :=
  (parseReachNlriAttr 1 2 16388 1 4 0 4 3).
Local Abbreviation sample_parseNlriData_IPv4IPv6 :=
  (parseNlriData_IPv4IPv6 1 2 1 0).
Local Abbreviation sample_parseNlriData_LabelIPv4IPv6 :=
  (parseNlriData_LabelIPv4IPv6 1 2 4 0).

(** The announcement AFI 1, SAFI 1, next hop 10.0.0.1, NLRI 192.168.1.0/24. *)
Example end_to_end_unicast :
  exists (u : parsed_update) (e : parse_bgp_lib_nlri),
    sample_parseReachNlriAttr no_addpath sample_inet_ntop6 13
      (bytes_of [0; 1; 1; 4; 10; 0; 0; 1; 0; 24; 192; 168; 1]) (Update ∅ []) = Done u /\
    attrs u !! 4 = Some (AttrData 3 "nextHop" ["10.0.0.1"%string]) /\
    nlri_list u = [e] /\
    field LIB_NLRI_PATH_ID e = ["0"%string] /\
    field LIB_NLRI_PREFIX_LENGTH e = ["24"%string] /\
    field LIB_NLRI_PREFIX e = ["192.168.1.0"%string] /\
    field LIB_NLRI_LABELS e = [].
Proof.
  do 2 eexists. split; [vm_compute; reflexivity|].
  vm_compute. repeat split; reflexivity.
Qed.

(** The header is read before the declared length is looked at: a buffer of
    three bytes with declared length 3 is read past its end. *)
Example header_read_precedes_length_check :
  sample_parseReachNlriAttr no_addpath sample_inet_ntop6 3 (bytes_of [0; 1; 1]) (Update ∅ [])
  = Fault.
Proof. reflexivity. Qed.

(** A unicast length above 128 bits asks [memcpy] for more than the 16 bytes
    of [ip_raw]: with 136 bits, 17 bytes. *)
Example long_prefix_overruns_buffer :
  unicast_prefix sample_inet_ntop6 false 0
    (bytes_of [136; 1; 2; 3; 4; 5; 6; 7; 8; 9; 10; 11; 12; 13; 14; 15; 16; 17]) 0
    (Nlri 2 1 0 ∅) [] = Fault.
Proof. reflexivity. Qed.

(** A label stack of two: the first label 01 00 00 has the bottom-of-stack
    bit clear, so the second, 00 06 41, is read too; both values are recorded
    in wire order and the length 56 goes down by 24 twice. *)
Example two_label_stack :
  exists e : parse_bgp_lib_nlri,
    sample_parseNlriData_LabelIPv4IPv6 no_addpath sample_inet_ntop6 true
      (Some (bytes_of [56; 1; 0; 0; 0; 6; 65; 10])) 8 [] = Done [e] /\
    field LIB_NLRI_LABELS e = ["4096"%string; "100"%string] /\
    field LIB_NLRI_PREFIX_LENGTH e = ["32"%string; "8"%string] /\
    field LIB_NLRI_PREFIX e = ["10.0.0.0"%string].
Proof.
  eexists. split; [vm_compute; reflexivity|].
  vm_compute. repeat split; reflexivity.
Qed.

(** The withdrawal label 80 00 00 as first label of a prefix ends the stack
    although its bottom-of-stack bit is clear: the three bytes after it are
    address bytes. *)
Example withdrawn_label_ends_stack :
  exists e : parse_bgp_lib_nlri,
    sample_parseNlriData_LabelIPv4IPv6 no_addpath sample_inet_ntop6 true
      (Some (bytes_of [48; 128; 0; 0; 10; 1; 2])) 7 [] = Done [e] /\
    field LIB_NLRI_LABELS e = ["524288"%string] /\
    field LIB_NLRI_PREFIX_LENGTH e = ["24"%string] /\
    field LIB_NLRI_PREFIX e = ["10.1.2.0"%string].
Proof.
  eexists. split; [vm_compute; reflexivity|].
  vm_compute. repeat split; reflexivity.
Qed.

(** At a later label of the same prefix the union still holds, in its low
    byte, the first byte of the label before (it is cleared once per
    prefix): after 01 00 00 the bytes 80 00 00 load as 0x80000001, the loop
    goes on and the next three bytes are read as a third label. *)
Example withdrawn_label_after_another :
  label_data (load_label (load_label (bzero 4) (octet 1) (octet 0) (octet 0))
                (octet 128) (octet 0) (octet 0)) = 0x80000001 /\
  exists e : parse_bgp_lib_nlri,
    sample_parseNlriData_LabelIPv4IPv6 no_addpath sample_inet_ntop6 true
      (Some (bytes_of [72; 1; 0; 0; 128; 0; 0; 10; 1; 2])) 10 [] = Done [e] /\
    field LIB_NLRI_LABELS e = ["4096"%string; "524288"%string; "40976"%string].
Proof.
  split; [reflexivity|].
  eexists. split; [vm_compute; reflexivity|].
  vm_compute. reflexivity.
Qed.

(** C3. The withdrawal label 80 00 00 does not always end the label stack.
    The union is cleared once per prefix (line 330, outside the [while]), so
    at every label after the first its low byte still holds the first octet
    of the label before: the wire field 80 00 00 then loads as 0x80000000
    plus that octet, and the test of line 360 succeeds exactly when that
    octet is zero.  On the prefix 01 00 00, 80 00 00, 0A 01 02 (declared
    length 72 bits) the loop does not stop at the second label, whose
    bottom-of-stack bit is clear: the three address bytes are consumed as a
    third label (value 40976), three lengths are recorded and no address
    byte is left for the prefix.  As first label of a prefix the same wire
    field does end the stack. *)
Theorem withdrawal_label_after_another_goes_on :
  (forall x0 x1 x2 x3 w0 w1 w2 : u_char,
     let second :=
       load_label (load_label [x0; x1; x2; x3] w0 w1 w2) (octet 128) (octet 0) (octet 0) in
     label_decode_value second = 0x80000 /\
     label_decode_bos second = 0 /\
     label_data second = 0x80000000 + u8 w0 /\
     (ends_stack second = true <-> u8 w0 = 0)) /\
  ends_stack (load_label (bzero 4) (octet 128) (octet 0) (octet 0)) = true /\
  ends_stack (load_label (load_label (bzero 4) (octet 1) (octet 0) (octet 0))
                (octet 128) (octet 0) (octet 0)) = false /\
  exists e : parse_bgp_lib_nlri,
    sample_parseNlriData_LabelIPv4IPv6 no_addpath sample_inet_ntop6 true
      (Some (bytes_of [72; 1; 0; 0; 128; 0; 0; 10; 1; 2])) 10 [] = Done [e] /\
    field LIB_NLRI_LABELS e = ["4096"%string; "524288"%string; "40976"%string] /\
    field LIB_NLRI_PREFIX_LENGTH e = ["48"%string; "24"%string; "0"%string] /\
    field LIB_NLRI_PREFIX e = ["0.0.0.0"%string].
Proof.
  split; [|split; [reflexivity|split; [reflexivity|]]].
  - intros x0 x1 x2 x3 w0 w1 w2 second. subst second.
    rewrite (load_label_bytes x0 x1 x2 x3 w0 w1 w2).
    destruct (label_fields x3 w2 w1 w0 (octet 128) (octet 0) (octet 0))
      as (Hd & Hv & Hb & _).
    change (u8 (octet 128)) with 128 in Hd, Hv.
    change (u8 (octet 0)) with 0 in Hd, Hv, Hb.
    pose proof (u8_range w0) as Hw0.
    assert (Hdata : label_data (load_label [x3; w2; w1; w0] (octet 128) (octet 0) (octet 0)) =
                    0x80000000 + u8 w0) by (rewrite Hd; reflexivity).
    split; [rewrite Hv; reflexivity|]. split; [rewrite Hb; reflexivity|].
    split; [exact Hdata|].
    unfold ends_stack. rewrite Hb, Hdata. cbn [Z.eqb Z.modulo orb].
    change (0 mod 2 =? 1) with false. cbn [orb].
    rewrite Z.eqb_eq. lia.
  - eexists. split; [vm_compute; reflexivity|].
    vm_compute. repeat split; reflexivity.
Qed.

(** C1. Two routes, 10.0.0.0/8 and 192.168.1.0/24, encoded without path
    identifiers and decoded with add-path disabled: two entries are appended,
    and the second one holds both routes (two path identifiers, two lengths,
    two prefixes) instead of the second route alone. *)
Theorem unicast_second_entry_holds_both_routes :
  exists e1 e2 : parse_bgp_lib_nlri,
    sample_parseNlriData_IPv4IPv6 no_addpath sample_inet_ntop6 true
      (Some (bytes_of [8; 10; 24; 192; 168; 1])) 6 [] = Done [e1; e2] /\
    field LIB_NLRI_PREFIX e1 = ["10.0.0.0"%string] /\
    field LIB_NLRI_PATH_ID e2 = ["0"%string; "0"%string] /\
    field LIB_NLRI_PREFIX_LENGTH e2 = ["8"%string; "24"%string] /\
    field LIB_NLRI_PREFIX e2 = ["10.0.0.0"%string; "192.168.1.0"%string].
Proof.
  do 2 eexists. split; [vm_compute; reflexivity|].
  vm_compute. repeat split; reflexivity.
Qed.

(** C4. A labeled prefix that declares 17 bits and carries one label with the
    bottom-of-stack bit set: the label loop consumes the label and the length
    recorded for the entry is 17 - 24 wrapped to 8 bits, 249. *)
Theorem labeled_prefix_length_wraps :
  exists e : parse_bgp_lib_nlri,
    sample_parseNlriData_LabelIPv4IPv6 no_addpath sample_inet_ntop6 true
      (Some (bytes_of [17; 0; 6; 65])) 4 [] = Done [e] /\
    field LIB_NLRI_LABELS e = ["100"%string] /\
    field LIB_NLRI_PREFIX_LENGTH e = ["249"%string] /\
    to_u_char (17 - 24 * 1) = 249.
Proof.
  eexists. split; [vm_compute; reflexivity|].
  vm_compute. repeat split; reflexivity.
Qed.

(** C8. Two MP_REACH attributes decoded into the same update, with next
    hops 10.0.0.1 and 10.0.0.2: the next-hop attribute ends up with both
    values, the second appended to the first. *)
Theorem second_next_hop_is_appended :
  exists u1 u2 : parsed_update,
    sample_parseReachNlriAttr no_addpath sample_inet_ntop6 13
      (bytes_of [0; 1; 1; 4; 10; 0; 0; 1; 0; 24; 192; 168; 1]) (Update ∅ []) = Done u1 /\
    sample_parseReachNlriAttr no_addpath sample_inet_ntop6 13
      (bytes_of [0; 1; 1; 4; 10; 0; 0; 2; 0; 24; 192; 168; 2]) u1 = Done u2 /\
    attr_value <$> (attrs u1 !! 4) = Some ["10.0.0.1"%string] /\
    attr_value <$> (attrs u2 !! 4) = Some ["10.0.0.1"%string; "10.0.0.2"%string].
Proof.
  do 2 eexists. split; [vm_compute; reflexivity|].
  split; [vm_compute; reflexivity|].
  vm_compute. split; reflexivity.
Qed.

(** ** The theorems applied to concrete inputs *)

Lemma declared_length_too_short_witness :
  consumed_header_bytes (bytes_of [0; 1; 1; 4; 10; 0; 0; 1; 0]) = Some 9 /\
  (3 - 9 < 0 \/ 3 < 4) /\
  sample_parseReachNlriAttr no_addpath sample_inet_ntop6 3
    (bytes_of [0; 1; 1; 4; 10; 0; 0; 1; 0]) (Update ∅ []) = Done (Update ∅ []).
Proof.
  assert (H1 : consumed_header_bytes (bytes_of [0; 1; 1; 4; 10; 0; 0; 1; 0]) = Some 9)
    by reflexivity.
  assert (H2 : 3 - 9 < 0 \/ 3 < 4) by (left; lia).
  split; [exact H1|]. split; [exact H2|].
  apply (proj2 (declared_length_too_short 1 2 16388 1 4 0 4 3 no_addpath sample_inet_ntop6
                  3 (bytes_of [0; 1; 1; 4; 10; 0; 0; 1; 0]) (Update ∅ []) 9 H1 H2)).
  - simpl. lia.
  - unfold INT_MIN. lia.
  - unfold INT_MAX. lia.
Defined.

Lemma label_loop_stops_witness :
  0 <= 5 <= Z.of_nat 5 /\
  5 <= Z.of_nat (length (bytes_of [0; 6; 65; 10; 1])) /\
  length (bzero 4) = 4%nat /\
  exists st' : label_state,
    label_loop 5 (Labels (bytes_of [0; 6; 65; 10; 1]) 5 1 40 (Nlri 1 4 0 ∅) (bzero 4)) = Done st' /\
    lb_addr_bytes st' = 2 /\
    field LIB_NLRI_LABELS (lb_nlri st') = ["100"%string].
Proof.
  assert (H1 : 0 <= 5 <= Z.of_nat 5) by (simpl; lia).
  assert (H2 : 5 <= Z.of_nat (length (bytes_of [0; 6; 65; 10; 1]))) by (simpl; lia).
  assert (H3 : length (bzero 4) = 4%nat) by reflexivity.
  split; [exact H1|]. split; [exact H2|]. split; [exact H3|].
  destruct (label_loop_stops 5
              (Labels (bytes_of [0; 6; 65; 10; 1]) 5 1 40 (Nlri 1 4 0 ∅) (bzero 4)) H1 H2 H3)
    as (st' & Hrun & _ & Hab & _ & _ & _ & Hlab & _).
  exists st'. split; [exact Hrun|]. split.
  - rewrite Hab. reflexivity.
  - rewrite Hlab. reflexivity.
Defined.

Lemma add_path_identifier_witness :
  all_addpath 1 1 = true /\
  4 <= 6 - 0 /\
  unicast_body all_addpath sample_inet_ntop6 true 6
    (Loop (bytes_of [0; 0; 1; 2; 8; 10]) 0 (Nlri 1 1 0 ∅) []) =
  unicast_prefix sample_inet_ntop6 true 258 (bytes_of [8; 10]) 4 (Nlri 1 1 0 ∅) [] /\
  (no_addpath 1 1 = false \/ 6 - 0 < 4) /\
  unicast_body no_addpath sample_inet_ntop6 true 6
    (Loop (bytes_of [8; 10; 24; 192; 168; 1]) 0 (Nlri 1 1 0 ∅) []) =
  unicast_prefix sample_inet_ntop6 true 0 (bytes_of [8; 10; 24; 192; 168; 1]) 0 (Nlri 1 1 0 ∅) [].
Proof.
  assert (H1 : all_addpath 1 1 = true) by reflexivity.
  assert (H2 : 4 <= 6 - 0) by lia.
  assert (H3 : no_addpath 1 1 = false \/ 6 - 0 < 4) by (left; reflexivity).
  split; [exact H1|]. split; [exact H2|]. split; [|split; [exact H3|]].
  - exact (proj1 (proj2 (proj1 (add_path_identifier all_addpath sample_inet_ntop6 true 6 0
                    (Loop (bytes_of [0; 0; 1; 2; 8; 10]) 0 (Nlri 1 1 0 ∅) []))
                  H1 H2 (octet 0) (octet 0) (octet 1) (octet 2) (bytes_of [8; 10]) eq_refl))).
  - exact (proj1 (proj2 (add_path_identifier no_addpath sample_inet_ntop6 true 6 0
                    (Loop (bytes_of [8; 10; 24; 192; 168; 1]) 0 (Nlri 1 1 0 ∅) [])) H3)).
Defined.

Lemma unicast_address_bytes_witness :
  (u8 (octet 24) + 7) / 8 <= 16 /\
  (u8 (octet 24) + 7) / 8 <= Z.of_nat (length (bytes_of [192; 168; 1])) /\
  exists entry : parse_bgp_lib_nlri,
    unicast_prefix sample_inet_ntop6 true 0 (octet 24 :: bytes_of [192; 168; 1]) 0
      (Nlri 1 1 0 ∅) [] = Done (Loop [] 3 entry [entry]) /\
    field LIB_NLRI_PREFIX entry = ["192.168.1.0"%string].
Proof.
  assert (H1 : (u8 (octet 24) + 7) / 8 <= 16) by (vm_compute; discriminate).
  assert (H2 : (u8 (octet 24) + 7) / 8 <= Z.of_nat (length (bytes_of [192; 168; 1])))
    by (vm_compute; discriminate).
  split; [exact H1|]. split; [exact H2|].
  destruct (unicast_address_bytes sample_inet_ntop6 true 0 (octet 24) (bytes_of [192; 168; 1]) 0
              (Nlri 1 1 0 ∅) [] H1 H2) as (_ & _ & Hrun & _).
  eexists. split; [exact Hrun|]. vm_compute. reflexivity.
Defined.

Lemma next_hop_bytes_witness :
  0 <= 4 /\
  Z.min 4 16 <= Z.of_nat (length (bytes_of [10; 0; 0; 1; 0; 24; 192; 168; 1])) /\
  next_hop_raw
    (MpReach 1 1 4 (bytes_of [10; 0; 0; 1; 0; 24; 192; 168; 1]) 0 (bytes_of [24; 192; 168; 1]) 4) =
  Done (bytes_of [10; 0; 0; 1; 0; 0; 0; 0; 0; 0; 0; 0; 0; 0; 0; 0]).
Proof.
  assert (H1 : 0 <= 4) by lia.
  assert (H2 : Z.min 4 16 <= Z.of_nat (length (bytes_of [10; 0; 0; 1; 0; 24; 192; 168; 1])))
    by (vm_compute; discriminate).
  split; [exact H1|]. split; [exact H2|].
  exact (proj1 (proj2 (next_hop_bytes 1 2 1 4 0 4 3 no_addpath sample_inet_ntop6 true
                  (MpReach 1 1 4 (bytes_of [10; 0; 0; 1; 0; 24; 192; 168; 1]) 0
                     (bytes_of [24; 192; 168; 1]) 4)
                  (Update ∅ []) H1 H2))).
Defined.

Lemma decode_terminates_witness :
  sample_parseReachNlriAttr no_addpath sample_inet_ntop6 13
    (bytes_of [0; 1; 1; 4; 10; 0; 0; 1; 0; 24; 192; 168; 1]) (Update ∅ []) <> OutOfFuel /\
  exists st' : loop_state,
    unicast_body no_addpath sample_inet_ntop6 true 4
      (Loop (bytes_of [24; 192; 168; 1]) 0 (Nlri 1 1 0 ∅) []) = Done st' /\
    0 < cur_read_size st' + 1 /\
    (length (cur_data st') < 4)%nat.
Proof.
  split.
  - exact (proj1 (decode_terminates 1 2 16388 1 4 0 4 3 no_addpath sample_inet_ntop6) 13
             (bytes_of [0; 1; 1; 4; 10; 0; 0; 1; 0; 24; 192; 168; 1]) (Update ∅ [])).
  - assert (E : { st' | unicast_body no_addpath sample_inet_ntop6 true 4
                          (Loop (bytes_of [24; 192; 168; 1]) 0 (Nlri 1 1 0 ∅) []) = Done st' })
      by (eexists; vm_compute; reflexivity).
    destruct E as [st' E]. exists st'. split; [exact E|].
    destruct (proj1 (proj2 (proj2
                (decode_terminates 1 2 16388 1 4 0 4 3 no_addpath sample_inet_ntop6)))
                true 4 _ st' E) as (Hrs & Hd & _).
    split; [exact Hrs|exact Hd].
Defined.

Lemma working_entry_accumulates_witness :
  exists l' new : list parse_bgp_lib_nlri,
    sample_parseNlriData_IPv4IPv6 no_addpath sample_inet_ntop6 true
      (Some (bytes_of [8; 10; 24; 192; 168; 1])) 6 [] = Done l' /\
    l' = [] ++ new /\
    length new = 2%nat /\
    forall (i : nat) (e e' : parse_bgp_lib_nlri),
      new !! i = Some e -> new !! S i = Some e' ->
      forall k : BGP_LIB_NLRI, field k e `prefix_of` field k e'.
Proof.
  assert (E : { l' | sample_parseNlriData_IPv4IPv6 no_addpath sample_inet_ntop6 true
                       (Some (bytes_of [8; 10; 24; 192; 168; 1])) 6 [] = Done l' /\
                     length l' = 2%nat })
    by (eexists; split; vm_compute; reflexivity).
  destruct E as (l' & E & Hlen).
  destruct (working_entry_accumulates 1 2 1 4 0 no_addpath sample_inet_ntop6 true
              (Some (bytes_of [8; 10; 24; 192; 168; 1])) 6 [] l' (or_introl E))
    as (new & Hl & Hchain & _).
  exists l', new. split; [exact E|]. split; [exact Hl|]. split; [|exact Hchain].
  rewrite Hl in Hlen. exact Hlen.
Defined.

(** * Instances of the further properties *)

Lemma header_fields_witness :
  length (bytes_of [10; 0; 0; 1]) = Z.to_nat (u8 (octet 4)) /\
  0 <= 13 - (5 + u8 (octet 4)) /\
  13 <= INT_MAX /\
  sample_parseReachNlriAttr no_addpath sample_inet_ntop6 13
    (bytes_of [0; 1; 1; 4; 10; 0; 0; 1; 0; 24; 192; 168; 1]) (Update ∅ []) =
  parseAfi 1 2 16388 1 4 0 4 3 no_addpath sample_inet_ntop6
    (MpReach 1 1 4 (bytes_of [10; 0; 0; 1; 0; 24; 192; 168; 1]) 0
       (bytes_of [24; 192; 168; 1]) 4)
    (Update ∅ []).
Proof.
  assert (H1 : length (bytes_of [10; 0; 0; 1]) = Z.to_nat (u8 (octet 4))) by reflexivity.
  assert (H2 : 0 <= 13 - (5 + u8 (octet 4))) by (vm_compute; discriminate).
  assert (H3 : 13 <= INT_MAX) by (vm_compute; discriminate).
  split; [exact H1|]. split; [exact H2|]. split; [exact H3|].
  exact (header_fields 1 2 16388 1 4 0 4 3 no_addpath sample_inet_ntop6 13
           (octet 0) (octet 1) (octet 1) (octet 4) (bytes_of [10; 0; 0; 1]) (octet 0)
           (bytes_of [24; 192; 168; 1]) (Update ∅ []) H1 H2 H3).
Defined.

Lemma unsupported_family_is_skipped_witness :
  family_flag 1 2 (u8 (octet 64) * 256 + u8 (octet 4)) = None /\
  sample_parseReachNlriAttr no_addpath sample_inet_ntop6 13
    (bytes_of [64; 4; 71; 4; 10; 0; 0; 1; 0; 24; 192; 168; 1]) (Update ∅ []) =
  Done (Update ∅ []).
Proof.
  assert (H1 : length (bytes_of [10; 0; 0; 1]) = Z.to_nat (u8 (octet 4))) by reflexivity.
  assert (H2 : INT_MIN <= 13 - (5 + u8 (octet 4))) by (vm_compute; discriminate).
  assert (H3 : 13 <= INT_MAX) by (vm_compute; discriminate).
  assert (H4 : family_flag 1 2 (u8 (octet 64) * 256 + u8 (octet 4)) = None) by reflexivity.
  split; [exact H4|].
  exact (unsupported_family_is_skipped 1 2 16388 1 4 0 4 3 no_addpath sample_inet_ntop6 13
           (octet 64) (octet 4) (octet 71) (octet 4) (bytes_of [10; 0; 0; 1]) (octet 0)
           (bytes_of [24; 192; 168; 1]) (Update ∅ []) H1 H2 H3 (or_introl H4)).
Defined.

Lemma appended_entries_are_tagged_witness :
  exists l' new : list parse_bgp_lib_nlri,
    sample_parseNlriData_IPv4IPv6 no_addpath sample_inet_ntop6 true
      (Some (bytes_of [8; 10; 24; 192; 168; 1])) 6 [] = Done l' /\
    l' = [] ++ new /\
    Forall (fun e => afi e = 1 /\ safi e = 1 /\ type e = 0) new.
Proof.
  assert (E : { l' | sample_parseNlriData_IPv4IPv6 no_addpath sample_inet_ntop6 true
                       (Some (bytes_of [8; 10; 24; 192; 168; 1])) 6 [] = Done l' })
    by (eexists; vm_compute; reflexivity).
  destruct E as (l' & E).
  destruct (proj1 (appended_entries_are_tagged 1 2 1 4 0 no_addpath sample_inet_ntop6 true
                     (Some (bytes_of [8; 10; 24; 192; 168; 1])) 6 [] l') E)
    as (new & Hl & Hall).
  exists l', new. split; [exact E|]. split; [exact Hl|exact Hall].
Defined.

Lemma binary_prefix_is_four_bytes_witness :
  exists l' new : list parse_bgp_lib_nlri,
    sample_parseNlriData_LabelIPv4IPv6 no_addpath sample_inet_ntop6 true
      (Some (bytes_of [40; 0; 6; 65; 10; 1])) 6 [] = Done l' /\
    l' = [] ++ new /\
    Forall (fun e => Forall (fun s => String.length s = 4%nat) (field LIB_NLRI_PREFIX_BIN e))
      new.
Proof.
  assert (E : { l' | sample_parseNlriData_LabelIPv4IPv6 no_addpath sample_inet_ntop6 true
                       (Some (bytes_of [40; 0; 6; 65; 10; 1])) 6 [] = Done l' })
    by (eexists; vm_compute; reflexivity).
  destruct E as (l' & E).
  destruct (binary_prefix_is_four_bytes 1 2 1 4 0 no_addpath sample_inet_ntop6 true
              (Some (bytes_of [40; 0; 6; 65; 10; 1])) 6 [] l' (or_intror E))
    as (new & Hl & Hall).
  exists l', new. split; [exact E|]. split; [exact Hl|exact Hall].
Defined.

Lemma prefix_lengths_follow_labels_witness :
  exists l' new : list parse_bgp_lib_nlri,
    sample_parseNlriData_LabelIPv4IPv6 no_addpath sample_inet_ntop6 true
      (Some (bytes_of [40; 0; 6; 65; 10; 1])) 6 [] = Done l' /\
    l' = [] ++ new /\
    Forall (fun e => length (field LIB_NLRI_PREFIX_LENGTH e) =
                     length (field LIB_NLRI_LABELS e)) new.
Proof.
  assert (E : { l' | sample_parseNlriData_LabelIPv4IPv6 no_addpath sample_inet_ntop6 true
                       (Some (bytes_of [40; 0; 6; 65; 10; 1])) 6 [] = Done l' })
    by (eexists; vm_compute; reflexivity).
  destruct E as (l' & E).
  destruct (proj2 (prefix_lengths_follow_labels 1 2 1 4 0 no_addpath sample_inet_ntop6 true
                     (Some (bytes_of [40; 0; 6; 65; 10; 1])) 6 [] l') E)
    as (new & Hl & Hall).
  exists l', new. split; [exact E|]. split; [exact Hl|exact Hall].
Defined.

Lemma decode_keeps_the_update_witness :
  exists u' : parsed_update,
    sample_parseReachNlriAttr no_addpath sample_inet_ntop6 13
      (bytes_of [0; 1; 1; 4; 10; 0; 0; 1; 0; 24; 192; 168; 1]) (Update ∅ []) = Done u' /\
    (exists new : list parse_bgp_lib_nlri, nlri_list u' = [] ++ new) /\
    (forall k : Z, k <> 4 -> attrs u' !! k = (∅ : gmap Z parse_bgp_lib_data) !! k).
Proof.
  assert (E : { u' | sample_parseReachNlriAttr no_addpath sample_inet_ntop6 13
                       (bytes_of [0; 1; 1; 4; 10; 0; 0; 1; 0; 24; 192; 168; 1])
                       (Update ∅ []) = Done u' })
    by (eexists; vm_compute; reflexivity).
  destruct E as (u' & E).
  destruct (decode_keeps_the_update 1 2 16388 1 4 0 4 3 no_addpath sample_inet_ntop6 13
              (bytes_of [0; 1; 1; 4; 10; 0; 0; 1; 0; 24; 192; 168; 1]) (Update ∅ []) u' E)
    as (Hnew & Hk & _).
  exists u'. split; [exact E|]. split; [exact Hnew|exact Hk].
Defined.

Lemma read_size_counts_consumed_bytes_witness :
  0 < 6 /\
  exists st' : loop_state,
    unicast_loop no_addpath sample_inet_ntop6 6 true 6
      (Loop (bytes_of [8; 10; 24; 192; 168; 1]) 0 (Nlri 1 1 0 ∅) []) = Done st' /\
    6 <= cur_read_size st' <= 6 + 20 /\
    cur_data st' =
      drop (Z.to_nat (cur_read_size st' - 0)) (bytes_of [8; 10; 24; 192; 168; 1]).
Proof.
  assert (H1 : 0 < 6) by reflexivity.
  assert (E : { st' | unicast_loop no_addpath sample_inet_ntop6 6 true 6
                        (Loop (bytes_of [8; 10; 24; 192; 168; 1]) 0 (Nlri 1 1 0 ∅) [])
                      = Done st' })
    by (eexists; vm_compute; reflexivity).
  destruct E as (st' & E).
  destruct (proj1 (read_size_counts_consumed_bytes no_addpath sample_inet_ntop6 6 true 6
                     (Loop (bytes_of [8; 10; 24; 192; 168; 1]) 0 (Nlri 1 1 0 ∅) []) st' H1) E)
    as (Hrs & Hd).
  split; [exact H1|]. exists st'. split; [exact E|]. split; [exact Hrs|exact Hd].
Defined.

Lemma span_may_end_inside_last_route_witness :
  Forall well_formed_route
    ([Route (octet 8) (bytes_of [10])] ++ [Route (octet 24) (bytes_of [192; 168; 1])]) /\
  Z.of_nat (length (encode_unicast [Route (octet 8) (bytes_of [10])])) < 3 <=
    Z.of_nat (length (encode_unicast
                        ([Route (octet 8) (bytes_of [10])] ++
                         [Route (octet 24) (bytes_of [192; 168; 1])]))) /\
  sample_parseNlriData_IPv4IPv6 no_addpath sample_inet_ntop6 true
    (Some (bytes_of [8; 10; 24; 192; 168; 1])) 3 [] =
  sample_parseNlriData_IPv4IPv6 no_addpath sample_inet_ntop6 true
    (Some (bytes_of [8; 10; 24; 192; 168; 1])) 6 [].
Proof.
  assert (H1 : Forall well_formed_route
                 ([Route (octet 8) (bytes_of [10])] ++
                  [Route (octet 24) (bytes_of [192; 168; 1])])).
  { repeat constructor; vm_compute; discriminate. }
  assert (H2 : no_addpath 1 1 = false) by reflexivity.
  assert (H3 : Z.of_nat (length (encode_unicast [Route (octet 8) (bytes_of [10])])) < 3 <=
               Z.of_nat (length (encode_unicast
                                   ([Route (octet 8) (bytes_of [10])] ++
                                    [Route (octet 24) (bytes_of [192; 168; 1])])))).
  { split; [reflexivity|vm_compute; discriminate]. }
  split; [exact H1|]. split; [exact H3|].
  exact (span_may_end_inside_last_route 1 2 1 0 no_addpath sample_inet_ntop6 true
           [Route (octet 8) (bytes_of [10])] (Route (octet 24) (bytes_of [192; 168; 1]))
           [] 3 [] H1 H2 H3).
Defined.

Lemma unicast_round_trip_last_values_witness :
  Forall well_formed_route
    [Route (octet 8) (bytes_of [10]); Route (octet 24) (bytes_of [192; 168; 1])] /\
  exists new : list parse_bgp_lib_nlri,
    sample_parseNlriData_IPv4IPv6 no_addpath sample_inet_ntop6 true
      (Some (bytes_of [8; 10; 24; 192; 168; 1])) 6 [] = Done ([] ++ new) /\
    length new = 2%nat /\
    forall e : parse_bgp_lib_nlri,
      new !! 1%nat = Some e ->
      last (field LIB_NLRI_PREFIX_LENGTH e) = Some "24"%string /\
      last (field LIB_NLRI_PREFIX e) = Some "192.168.1.0"%string.
Proof.
  assert (H1 : Forall well_formed_route
                 [Route (octet 8) (bytes_of [10]); Route (octet 24) (bytes_of [192; 168; 1])]).
  { repeat constructor; vm_compute; discriminate. }
  assert (H2 : Z.of_nat (length (encode_unicast
                 [Route (octet 8) (bytes_of [10]); Route (octet 24) (bytes_of [192; 168; 1])]))
               < 65536) by reflexivity.
  assert (H3 : no_addpath 1 1 = false) by reflexivity.
  destruct (unicast_round_trip_last_values 1 2 1 0 no_addpath sample_inet_ntop6 true
              [Route (octet 8) (bytes_of [10]); Route (octet 24) (bytes_of [192; 168; 1])]
              [] H1 H2 H3) as (new & Hrun & Hlen & Hlast).
  split; [exact H1|]. exists new. split; [exact Hrun|]. split; [exact Hlen|].
  intros e He.
  destruct (Hlast 1%nat (Route (octet 24) (bytes_of [192; 168; 1])) e eq_refl He)
    as (_ & Hpl & Hp & _).
  split; [exact Hpl|exact Hp].
Defined.

Lemma unicast_round_trip_with_path_ids_witness :
  all_addpath 1 1 = true /\
  exists new : list parse_bgp_lib_nlri,
    sample_parseNlriData_IPv4IPv6 all_addpath sample_inet_ntop6 true
      (Some (bytes_of [0; 0; 1; 2; 8; 10])) 6 [] = Done ([] ++ new) /\
    length new = 1%nat /\
    forall e : parse_bgp_lib_nlri,
      new !! 0%nat = Some e ->
      last (field LIB_NLRI_PATH_ID e) = Some "258"%string /\
      last (field LIB_NLRI_PREFIX e) = Some "10.0.0.0"%string.
Proof.
  assert (H1 : Forall (fun q : Z * unicast_route =>
                         0 <= q.1 < 2 ^ 32 /\ well_formed_route q.2)
                 [(258, Route (octet 8) (bytes_of [10]))]).
  { repeat constructor; vm_compute; discriminate. }
  assert (H2 : Z.of_nat (length (encode_unicast_ids [(258, Route (octet 8) (bytes_of [10]))]))
               < 65536) by reflexivity.
  assert (H3 : all_addpath 1 1 = true) by reflexivity.
  destruct (unicast_round_trip_with_path_ids 1 2 1 0 all_addpath sample_inet_ntop6 true
              [(258, Route (octet 8) (bytes_of [10]))] [] H1 H2 H3)
    as (new & Hrun & Hlen & Hlast).
  split; [exact H3|]. exists new. split; [exact Hrun|]. split; [exact Hlen|].
  intros e He.
  destruct (Hlast 0%nat (258, Route (octet 8) (bytes_of [10])) e eq_refl He)
    as (Hid & _ & Hp & _).
  split; [exact Hid|exact Hp].
Defined.

Lemma empty_nlri_sets_next_hop_only_witness :
  family_flag 1 2 (u8 (octet 0) * 256 + u8 (octet 1)) = Some true /\
  sample_parseReachNlriAttr no_addpath sample_inet_ntop6 9
    (bytes_of [0; 1; 1; 4; 10; 0; 0; 1; 0; 24; 192; 168; 1]) (Update ∅ []) =
  Done (Update (set_next_hop 4 3 "10.0.0.1"%string ∅) []).
Proof.
  assert (H1 : length (bytes_of [10; 0; 0; 1]) = Z.to_nat (u8 (octet 4))) by reflexivity.
  assert (H2 : family_flag 1 2 (u8 (octet 0) * 256 + u8 (octet 1)) = Some true)
    by reflexivity.
  assert (H3 : u8 (octet 1) = 1 \/ u8 (octet 1) = 4) by (left; reflexivity).
  split; [exact H2|].
  exact (empty_nlri_sets_next_hop_only 1 2 16388 1 4 0 4 3 no_addpath sample_inet_ntop6
           (octet 0) (octet 1) (octet 1) (octet 4) (bytes_of [10; 0; 0; 1]) (octet 0)
           (bytes_of [24; 192; 168; 1]) (Update ∅ []) true H1 H2 H3).
Defined.

Lemma unicast_attribute_end_to_end_witness :
  Forall well_formed_route
    [Route (octet 8) (bytes_of [10]); Route (octet 24) (bytes_of [192; 168; 1])] /\
  sample_parseReachNlriAttr no_addpath sample_inet_ntop6 15
    (bytes_of [0; 1; 1; 4; 10; 0; 0; 1; 0; 8; 10; 24; 192; 168; 1]) (Update ∅ []) =
  Done (Update (set_next_hop 4 3 "10.0.0.1"%string ∅)
          (decoded_routes sample_inet_ntop6 true (fresh_entry 1 2 0 true 1)
             [Route (octet 8) (bytes_of [10]); Route (octet 24) (bytes_of [192; 168; 1])])).
Proof.
  assert (H1 : length (bytes_of [10; 0; 0; 1]) = Z.to_nat (u8 (octet 4))) by reflexivity.
  assert (H2 : family_flag 1 2 (u8 (octet 0) * 256 + u8 (octet 1)) = Some true)
    by reflexivity.
  assert (H3 : u8 (octet 1) = 1) by reflexivity.
  assert (H4 : Forall well_formed_route
                 [Route (octet 8) (bytes_of [10]); Route (octet 24) (bytes_of [192; 168; 1])]).
  { repeat constructor; vm_compute; discriminate. }
  assert (H5 : Z.of_nat (length (encode_unicast
                 [Route (octet 8) (bytes_of [10]); Route (octet 24) (bytes_of [192; 168; 1])]))
               < 65536) by reflexivity.
  assert (H6 : no_addpath 1 1 = false) by reflexivity.
  split; [exact H4|].
  exact (unicast_attribute_end_to_end 1 2 16388 1 4 0 4 3 no_addpath sample_inet_ntop6
           (octet 0) (octet 1) (octet 1) (octet 4) (bytes_of [10; 0; 0; 1]) (octet 0)
           [Route (octet 8) (bytes_of [10]); Route (octet 24) (bytes_of [192; 168; 1])]
           (Update ∅ []) true H1 H2 H3 H4 H5 H6).
Defined.

Lemma labeled_route_is_read_back_witness :
  well_formed_labeled (LabeledRoute [100; 200] 16 (bytes_of [10; 1])) /\
  encode_labeled (LabeledRoute [100; 200] 16 (bytes_of [10; 1])) =
    bytes_of [64; 0; 6; 64; 0; 12; 129; 10; 1] /\
  exists e : parse_bgp_lib_nlri,
    labeled_prefix sample_inet_ntop6 true 9 0 0
      (bytes_of [64; 0; 6; 64; 0; 12; 129; 10; 1] ++ []) 0 (Nlri 1 4 0 ∅) [] =
    Done (Continue (Loop [] 8 e ([] ++ [e]))) /\
    field LIB_NLRI_LABELS e = ["100"%string; "200"%string] /\
    last (field LIB_NLRI_PREFIX_LENGTH e) = Some "16"%string /\
    field LIB_NLRI_PREFIX e = ["10.1.0.0"%string].
Proof.
  assert (H1 : 0 <> 9) by discriminate.
  assert (H2 : well_formed_labeled (LabeledRoute [100; 200] 16 (bytes_of [10; 1]))).
  { unfold well_formed_labeled. cbn [route_labels route_bits labeled_addr removelast].
    split; [discriminate|]. split; [repeat constructor; vm_compute; discriminate|].
    split; [repeat constructor; discriminate|].
    repeat split; vm_compute; discriminate. }
  destruct (labeled_route_is_read_back sample_inet_ntop6 true 9 0 0
              (LabeledRoute [100; 200] 16 (bytes_of [10; 1])) [] 0 (Nlri 1 4 0 ∅) [] H1 H2)
    as (e & Hrun & Hlab & _ & Hlast & _ & Hp & _).
  split; [exact H2|]. split; [reflexivity|].
  exists e. split; [exact Hrun|]. split; [exact Hlab|]. split; [exact Hlast|exact Hp].
Defined.

Lemma labeled_attribute_end_to_end_witness :
  Forall well_formed_labeled [LabeledRoute [100; 200] 16 (bytes_of [10; 1])] /\
  sample_parseReachNlriAttr no_addpath sample_inet_ntop6 18
    (bytes_of [0; 1; 4; 4; 10; 0; 0; 1; 0; 64; 0; 6; 64; 0; 12; 129; 10; 1]) (Update ∅ []) =
  Done (Update (set_next_hop 4 3 "10.0.0.1"%string ∅)
          (decoded_labeled_routes sample_inet_ntop6 true (fresh_entry 1 2 0 true 4)
             [LabeledRoute [100; 200] 16 (bytes_of [10; 1])])).
Proof.
  assert (H1 : length (bytes_of [10; 0; 0; 1]) = Z.to_nat (u8 (octet 4))) by reflexivity.
  assert (H2 : family_flag 1 2 (u8 (octet 0) * 256 + u8 (octet 1)) = Some true)
    by reflexivity.
  assert (H3 : u8 (octet 4) <> 1) by discriminate.
  assert (H4 : u8 (octet 4) = 4) by reflexivity.
  assert (H5 : Forall well_formed_labeled [LabeledRoute [100; 200] 16 (bytes_of [10; 1])]).
  { constructor; [|constructor].
    unfold well_formed_labeled. cbn [route_labels route_bits labeled_addr removelast].
    split; [discriminate|]. split; [repeat constructor; vm_compute; discriminate|].
    split; [repeat constructor; discriminate|].
    repeat split; vm_compute; discriminate. }
  assert (H6 : Z.of_nat (length (encode_labeled_routes
                 [LabeledRoute [100; 200] 16 (bytes_of [10; 1])])) < 65536) by reflexivity.
  assert (H7 : no_addpath 1 4 = false) by reflexivity.
  split; [exact H5|].
  exact (labeled_attribute_end_to_end 1 2 16388 1 4 0 4 3 no_addpath sample_inet_ntop6
           (octet 0) (octet 1) (octet 4) (octet 4) (bytes_of [10; 0; 0; 1]) (octet 0)
           [LabeledRoute [100; 200] 16 (bytes_of [10; 1])]
           (Update ∅ []) true H1 H2 H3 H4 H5 H6 H7).
Defined.

Lemma short_labeled_prefix_has_no_label_witness :
  u8 (octet 16) <= 16 /\
  (u8 (octet 16) + 7) / 8 <= Z.of_nat (length (bytes_of [10; 1])) /\
  exists e : parse_bgp_lib_nlri,
    labeled_prefix sample_inet_ntop6 true 3 0 0 (octet 16 :: bytes_of [10; 1]) 0
      (Nlri 1 4 0 ∅) [] = Done (Continue (Loop [] 2 e [e])) /\
    field LIB_NLRI_PREFIX e = ["10.1.0.0"%string] /\
    field LIB_NLRI_LABELS e = [] /\
    field LIB_NLRI_PREFIX_LENGTH e = [].
Proof.
  assert (H1 : 0 <> 3) by discriminate.
  assert (H2 : u8 (octet 16) <= 16) by (vm_compute; discriminate).
  assert (H3 : (u8 (octet 16) + 7) / 8 <= Z.of_nat (length (bytes_of [10; 1])))
    by (vm_compute; discriminate).
  destruct (short_labeled_prefix_has_no_label sample_inet_ntop6 true 3 0 0 (octet 16)
              (bytes_of [10; 1]) 0 (Nlri 1 4 0 ∅) [] H1 H2 H3) as (Hrun & Hlab & Hpl).
  split; [exact H2|]. split; [exact H3|].
  eexists. split; [exact Hrun|]. split; [reflexivity|]. split; [exact Hlab|exact Hpl].
Defined.
